(** * AlphaZero training controller, PUCT scorer and Keras evaluator

    A shallow embedding of [open_spiel/python/algorithms/alpha_zero.py] and
    the properties of its natural-language specification.

    Conventions of the embedding.
    - Python [int] is [Z]; Python and numpy/TensorFlow floating-point numbers
      are read as real numbers ([R]): rounding is outside the model, and
      every statement about a float is a statement about the real number the
      expression denotes.  Two places keep more of the floating-point
      behaviour, because the code is written around it: [np.exp] in
      [np_softmax] has the range of a float64 (a result too large is inf, one
      too small is 0), and the two float32 additions that form the total loss
      of the evaluator's update are rounded to the nearest float32.
    - A Python call that can raise returns a [Result]; the [while] loop of a
      self-play episode is a fuelled fixpoint returning [option].
    - Mutable state outside the controller (numpy's global generator, the
      model parameters held by TensorFlow) is one abstract [World] that is
      threaded through the calls in program order. *)

From Stdlib Require Import List ZArith String Ascii Bool Lia.
From Stdlib Require Import Permutation.
From Stdlib Require Import Reals Lra.
Import ListNotations.

Set Implicit Arguments.

(** ** Python primitives *)

Module Py.

(** The exceptions the embedded code can raise. *)
Inductive Exn : Type :=
| ValueError (msg : string)
| AttributeError (attr : string)
| IndexError
| ZeroDivisionError
| EmptyBufferError.

Inductive Result (A : Type) : Type :=
| Ok (a : A)
| Raise (e : Exn).

Arguments Ok {A} a.
Arguments Raise {A} e.

Definition bind {A B} (c : Result A) (k : A -> Result B) : Result B :=
  match c with
  | Ok a => k a
  | Raise e => Raise e
  end.

(** [seq[i]] on a Python list or a numpy vector: a negative index counts
    from the end, an index outside [-len, len) raises IndexError. *)
Definition getitem {A} (l : list A) (i : Z) : Result A :=
  let n := Z.of_nat (List.length l) in
  let j := if (i <? 0)%Z then (i + n)%Z else i in
  if ((j <? 0) || (n <=? j))%Z%bool then Raise IndexError
  else match nth_error l (Z.to_nat j) with
       | Some x => Ok x
       | None => Raise IndexError
       end.

Fixpoint update_nth {A} (l : list A) (k : nat) (x : A) : list A :=
  match l, k with
  | [], _ => []
  | _ :: t, O => x :: t
  | h :: t, S k' => h :: update_nth t k' x
  end.

(** [seq[i] = x], with the same index rule as [getitem]. *)
Definition setitem {A} (l : list A) (i : Z) (x : A) : Result (list A) :=
  let n := Z.of_nat (List.length l) in
  let j := if (i <? 0)%Z then (i + n)%Z else i in
  if ((j <? 0) || (n <=? j))%Z%bool then Raise IndexError
  else Ok (update_nth l (Z.to_nat j) x).

(** [a < b] on pairs of ints: tuples compare lexicographically. *)
Definition tuple_ltb (a b : Z * Z) : bool :=
  ((fst a <? fst b) || ((fst a =? fst b) && (snd a <? snd b)))%Z%bool.

(** The builtin [max] on a list of pairs: the first greatest element;
    ValueError on an empty sequence. *)
Definition max_pairs (l : list (Z * Z)) : Result (Z * Z) :=
  match l with
  | [] => Raise (ValueError "max() arg is an empty sequence")
  | h :: t => Ok (fold_left (fun m x => if tuple_ltb m x then x else m) t h)
  end.

(** The order of pairs [max] uses. *)
Definition tuple_le (a b : Z * Z) : Prop :=
  (fst a < fst b)%Z \/ (fst a = fst b /\ (snd a <= snd b)%Z).

(** The builtin [sum] on a vector of floats. *)
Definition sum (l : list R) : R := fold_left Rplus l 0%R.

(** [s in msg] on strings. *)
Fixpoint contains (s msg : string) : bool :=
  if String.prefix s msg then true
  else match msg with
       | EmptyString => false
       | String _ rest => contains s rest
       end.

(** [x / y] on floats (true division): ZeroDivisionError on a zero divisor. *)
Definition truediv (x y : R) : Result R :=
  if Req_dec_T y 0 then Raise ZeroDivisionError else Ok (x / y)%R.

(** [math.log] and [math.sqrt]: ValueError outside the domain. *)
Definition math_log (x : R) : Result R :=
  if Rlt_dec 0 x then Ok (ln x) else Raise (ValueError "math domain error").

Definition math_sqrt (x : R) : Result R :=
  if Rle_dec 0 x then Ok (sqrt x) else Raise (ValueError "math domain error").

(** [n and e] with an int on the left: the left operand itself when it is
    falsy (zero), and only otherwise the value of the right operand, which is
    not evaluated in the first case. *)
Definition and_int (n : Z) (e : Result R) : Result R :=
  if (n =? 0)%Z then Ok (IZR n) else e.

End Py.

Import Py.

Notation "x <- c ;; k" := (Py.bind c (fun x => k))
  (at level 61, c at next level, right associativity).

(** ** The game abstraction (pyspiel) *)

(** Modelled from the spec: the enumerations of [pyspiel.GameType] (section 6,
    "structural metadata ... each drawn from a fixed enumeration"); pyspiel is
    not part of the embedded file, which names only the accepted member of
    each enumeration. *)
Inductive ChanceMode := DETERMINISTIC | EXPLICIT_STOCHASTIC | SAMPLED_STOCHASTIC.
Inductive Information := ONE_SHOT | PERFECT_INFORMATION | IMPERFECT_INFORMATION.
Inductive Dynamics := SIMULTANEOUS | SEQUENTIAL.
Inductive Utility := ZERO_SUM | CONSTANT_SUM | GENERAL_SUM | IDENTICAL.

Definition ChanceMode_eqb (a b : ChanceMode) : bool :=
  match a, b with
  | DETERMINISTIC, DETERMINISTIC
  | EXPLICIT_STOCHASTIC, EXPLICIT_STOCHASTIC
  | SAMPLED_STOCHASTIC, SAMPLED_STOCHASTIC => true
  | _, _ => false
  end.

Definition Information_eqb (a b : Information) : bool :=
  match a, b with
  | ONE_SHOT, ONE_SHOT
  | PERFECT_INFORMATION, PERFECT_INFORMATION
  | IMPERFECT_INFORMATION, IMPERFECT_INFORMATION => true
  | _, _ => false
  end.

Definition Dynamics_eqb (a b : Dynamics) : bool :=
  match a, b with
  | SIMULTANEOUS, SIMULTANEOUS | SEQUENTIAL, SEQUENTIAL => true
  | _, _ => false
  end.

Definition Utility_eqb (a b : Utility) : bool :=
  match a, b with
  | ZERO_SUM, ZERO_SUM | CONSTANT_SUM, CONSTANT_SUM
  | GENERAL_SUM, GENERAL_SUM | IDENTICAL, IDENTICAL => true
  | _, _ => false
  end.

(** The value of [game.get_type()]. *)
Record GameType : Type := {
  chance_mode : ChanceMode;
  information : Information;
  dynamics : Dynamics;
  utility : Utility
}.

(** Modelled from the spec: a child of the search root ([mcts.SearchNode];
    the mcts module is not part of the embedded file), with the fields of
    SearchChildStats in section 3. *)
Record SearchNode : Type := {
  action : Z;
  explore_count : Z;
  total_reward : R;
  prior : R;
  outcome : option (list R);
  player : Z
}.

(** [MCTSResult = namedtuple("MCTSResult",
                             "observation target_value target_policy")]. *)
Record MCTSResult : Type := {
  observation : list R;
  target_value : R;
  target_policy : list R
}.

(** [LossValues = namedtuple("LossValues", "total policy value l2")]. *)
Record LossValues : Type := {
  total : R;
  policy : R;
  value : R;
  l2 : R
}.

(** ** The PUCT scorer *)

(** [alpha_zero_ucb_score(child, parent_explore_count, params)]. *)
Definition alpha_zero_ucb_score (child : SearchNode)
    (parent_explore_count : Z) (params : R * R) : Result R :=
  let '(c_init, c_base) := params in
  match outcome child with
  | Some o => getitem o (player child)
  | None =>
      q <- truediv (IZR parent_explore_count + c_base + 1) c_base ;;
      lg <- math_log q ;;
      let c := (lg + c_init)%R in
      sq <- math_sqrt (IZR parent_explore_count) ;;
      r <- truediv sq (IZR (explore_count child + 1)) ;;
      let c := (c * r)%R in
      let prior_score := (c * prior child)%R in
      value_score <- and_int (explore_count child)
                       (truediv (total_reward child)
                                (IZR (explore_count child))) ;;
      Ok (prior_score + value_score)%R
  end.

(** The two terms of the score in the words of the specification. *)
Definition spec_prior_term (child : SearchNode) (parent_explore_count : Z)
    (c_init c_base : R) : R :=
  ((ln ((IZR parent_explore_count + c_base + 1) / c_base) + c_init)
   * sqrt (IZR parent_explore_count)
   / (IZR (explore_count child) + 1)
   * prior child)%R.

Definition spec_exploitation_term (child : SearchNode) : R :=
  if (explore_count child =? 0)%Z then 0%R
  else (total_reward child / IZR (explore_count child))%R.

(** ** Softmax *)

(** [np.amax(logits, axis=-1, keepdims=True)] on a vector: ValueError on a
    zero-size array. *)
Definition np_amax (logits : list R) : Result R :=
  match logits with
  | [] => Raise (ValueError "zero-size array to reduction operation maximum which has no identity")
  | h :: t => Ok (fold_left Rmax t h)
  end.

(** An entry of a float64 array: a finite value, an infinity or nan. *)
Inductive Float : Type :=
| Fin (r : R)
| PosInf
| NegInf
| NaN.

(** The range of a float64: a real of at least [float_overflow]
    (2^1024 - 2^970, half a unit in the last place above the largest float64)
    rounds to inf, and a positive real of at most [float_underflow] (2^-1075,
    half the smallest positive float64) rounds to 0. *)
Definition float_overflow : R := ((2 - / 2 ^ 53) * 2 ^ 1023)%R.
Definition float_underflow : R := (/ 2 ^ 1075)%R.

(** [np.exp(x)] on a float64: inf on overflow (numpy warns and goes on), 0 on
    underflow, and the exponential in between. *)
Definition np_exp (x : R) : Float :=
  if Rle_dec float_overflow (exp x) then PosInf
  else if Rle_dec (exp x) float_underflow then Fin 0
  else Fin (exp x).

(** [a + b] and [a / b] on float64 values; on finite operands the exact sum
    and quotient, [x / 0] being an infinity of the sign of [x] and [0 / 0]
    nan (numpy warns and goes on). *)
Definition float_add (a b : Float) : Float :=
  match a, b with
  | NaN, _ | _, NaN => NaN
  | PosInf, NegInf | NegInf, PosInf => NaN
  | PosInf, _ | _, PosInf => PosInf
  | NegInf, _ | _, NegInf => NegInf
  | Fin x, Fin y => Fin (x + y)
  end.

Definition float_div (a b : Float) : Float :=
  match a, b with
  | NaN, _ | _, NaN => NaN
  | Fin x, Fin y =>
      if Req_dec_T y 0 then
        if Req_dec_T x 0 then NaN
        else if Rlt_dec 0 x then PosInf else NegInf
      else Fin (x / y)
  | Fin _, _ => Fin 0
  | PosInf, Fin y => if Rlt_dec y 0 then NegInf else PosInf
  | NegInf, Fin y => if Rlt_dec y 0 then PosInf else NegInf
  | _, _ => NaN
  end.

(** [np.sum] of a float64 vector. *)
Definition np_sum (l : list Float) : Float := fold_left float_add l (Fin 0).

(** [np_softmax(logits)]. *)
Definition np_softmax (logits : list R) : Result (list Float) :=
  max_logit <- np_amax logits ;;
  let exp_logit := map (fun x => np_exp (x - max_logit)) logits in
  Ok (map (fun e => float_div e (np_sum exp_logit)) exp_logit).

(** The value of [np.exp] at an argument that does not overflow: the
    exponential, or 0 where it underflows. *)
Definition exp_or_zero (x : R) : R :=
  if Rle_dec (exp x) float_underflow then 0%R else exp x.

(** ** The training controller *)

Section Controller.

(** [pyspiel.State] objects, the mutable world outside the controller and
    numpy [RandomState] objects. *)
Variables State World RandomState : Type.

(** The methods of a state the controller calls.  [apply_action] mutates the
    state in place; the controller holds the only reference, so the new state
    is returned. *)
Variable is_terminal : State -> bool.
Variable observation_tensor : State -> list R.
Variable history : State -> list Z.
Variable rewards : State -> list R.
Variable apply_action : State -> Z -> State.

(** [np.random.choice(range(len(p)), p=p)]: an index drawn with the global
    generator of the numpy random module, which is part of the world. *)
Variable np_random_choice : list Float -> World -> Z * World.

(** The index the replay buffer draws (the generator is part of the world). *)
Variable random_below : nat -> World -> nat * World.

(** A computation of the controller: it reads and writes the world and may
    raise. *)
Definition M (A : Type) : Type := World -> Result (A * World).

(** A [pyspiel.Game] object.  [getattr] is attribute lookup on the game object
    itself, rendered as [str.format] renders it; [None] is a missing
    attribute. *)
Record Game : Type := {
  num_players : Z;
  get_type : GameType;
  getattr : string -> option string;
  num_distinct_actions : Z;
  new_initial_state : State
}.

(** The node [mcts_search] returns. *)
Record RootNode : Type := { children : list SearchNode }.

(** A trainable evaluator, as the controller uses it. *)
Record Evaluator : Type := {
  evaluator_update : list MCTSResult -> M LossValues
}.

(** An [MCTSBot]. *)
Record MCTSBot : Type := {
  evaluator : Evaluator;
  mcts_search : State -> M RootNode
}.

(** Modelled from the spec: [dqn.ReplayBuffer], which is not part of the
    embedded file (section 4.1): a fixed-capacity store; [add] evicts the
    single oldest transition when the buffer is at capacity; [sample] with
    replacement returns exactly [n] transitions drawn from the current
    contents, fails on an empty buffer and leaves the buffer as it is. *)
Record ReplayBuffer : Type := {
  capacity : Z;
  items : list MCTSResult
}.

Definition ReplayBuffer_new (replay_buffer_capacity : Z) : ReplayBuffer :=
  {| capacity := replay_buffer_capacity; items := [] |}.

Definition ReplayBuffer_add (b : ReplayBuffer) (t : MCTSResult) : ReplayBuffer :=
  if (Z.of_nat (List.length (items b)) =? capacity b)%Z
  then {| capacity := capacity b; items := tl (items b) ++ [t] |}
  else {| capacity := capacity b; items := items b ++ [t] |}.

Fixpoint draw (its : list MCTSResult) (d : MCTSResult) (n : nat) (w : World)
  : list MCTSResult * World :=
  match n with
  | O => ([], w)
  | S n' =>
      let '(i, w1) := random_below (List.length its) w in
      let '(rest, w2) := draw its d n' w1 in
      (nth (i mod List.length its) its d :: rest, w2)
  end.

(** [buffer.sample(n, replace=True)]. *)
Definition ReplayBuffer_sample (b : ReplayBuffer) (n : Z) : M (list MCTSResult) :=
  fun w =>
    match items b with
    | [] => Raise EmptyBufferError
    | d :: _ => Ok (draw (items b) d (Z.to_nat n) w)
    end.

(** The attributes [__init__] stores on [self]. *)
Record AlphaZero : Type := {
  bot : MCTSBot;
  game : Game;
  buffer : ReplayBuffer;
  num_self_play_games : Z;
  _action_selection_transition : Z;
  batch_size : Z
}.

(** ["...{}".format(game.name)]. *)
Definition format_attr (g : Game) (name : string) : Result string :=
  match getattr g name with
  | Some s => Ok s
  | None => Raise (AttributeError name)
  end.

(** [AlphaZero.__init__]; [Ok self] when it returns. *)
Definition AlphaZero_init (game : Game) (bot : MCTSBot)
    (replay_buffer_capacity action_selection_transition num_self_play_games
     num_training_rounds batch_size : Z)
    (random_state : option RandomState) : Result AlphaZero :=
  let game_info := get_type game in
  if negb (num_players game =? 2)%Z then
    Raise (ValueError "Game must be a 2-player game")
  else if negb (ChanceMode_eqb (chance_mode game_info) DETERMINISTIC) then
    v <- format_attr game "chance_mode" ;;
    Raise (ValueError ("The game must be a Deterministic one, not " ++ v))
  else if negb (Information_eqb (information game_info) PERFECT_INFORMATION) then
    v <- format_attr game "information" ;;
    Raise (ValueError ("The game must be a perfect information one, not " ++ v))
  else if negb (Dynamics_eqb (dynamics game_info) SEQUENTIAL) then
    v <- format_attr game "dynamics" ;;
    Raise (ValueError ("The game must be turn-based, not " ++ v))
  else if negb (Utility_eqb (utility game_info) ZERO_SUM) then
    v <- format_attr game "utility" ;;
    Raise (ValueError ("The game must be 0-sum, not " ++ v))
  else if negb (num_players game =? 2)%Z then
    Raise (ValueError "Game must have exactly 2 players.")
  else
    Ok {| bot := bot;
          game := game;
          buffer := ReplayBuffer_new replay_buffer_capacity;
          num_self_play_games := num_self_play_games;
          _action_selection_transition := action_selection_transition;
          batch_size := batch_size |}.

(** [AlphaZero.update]. *)
Definition AlphaZero_update (self : AlphaZero) : M LossValues :=
  fun w =>
    r <- ReplayBuffer_sample (buffer self) (batch_size self) w ;;
    let '(data, w1) := r in
    r <- evaluator_update (evaluator (bot self)) data w1 ;;
    let '(lv, w2) := r in
    let '(total_loss, policy_loss, value_loss, l2_loss) :=
      (total lv, policy lv, value lv, l2 lv) in
    Ok ({| total := total_loss; policy := policy_loss;
           value := value_loss; l2 := l2_loss |}, w2).

(** [AlphaZero._select_action]. *)
Definition AlphaZero__select_action (self : AlphaZero)
    (children : list SearchNode) (game_history_len : Z) : M Z :=
  fun w =>
    let explore_counts :=
      map (fun child => (explore_count child, action child)) children in
    if (game_history_len <? _action_selection_transition self)%Z then
      probs <- np_softmax (map (fun i => IZR (fst i)) explore_counts) ;;
      let '(action_index, w1) := np_random_choice probs w in
      p <- getitem explore_counts action_index ;;
      Ok (snd p, w1)
    else
      m <- max_pairs explore_counts ;;
      Ok (snd m, w).

(** [np.zeros(n, dtype=np.float32)]. *)
Definition np_zeros (n : Z) : Result (list R) :=
  if (n <? 0)%Z then Raise (ValueError "negative dimensions are not allowed")
  else Ok (repeat 0%R (Z.to_nat n)).

(** [for child in children: target_policy[child.action] = child.explore_count]. *)
Fixpoint fill_counts (target_policy : list R) (children : list SearchNode)
  : Result (list R) :=
  match children with
  | [] => Ok target_policy
  | child :: rest =>
      tp <- setitem target_policy (action child) (IZR (explore_count child)) ;;
      fill_counts tp rest
  end.

(** Lines 122-126: the target policy of one step.  [target_policy /= s]
    divides every entry; where numpy yields nan for a zero sum the model has
    the real [x / 0], about which nothing is proved. *)
Definition step_target_policy (g : Game) (children : list SearchNode)
  : Result (list R) :=
  z <- np_zeros (num_distinct_actions g) ;;
  tp <- fill_counts z children ;;
  Ok (map (fun x => (x / Py.sum tp)%R) tp).

(** The [while not state.is_terminal()] loop of [_self_play_single]; [None]
    when the fuel runs out before the state is terminal. *)
Fixpoint play_loop (fuel : nat) (self : AlphaZero) (state : State)
    (observations policy_target : list (list R)) (w : World)
  : option (Result (State * list (list R) * list (list R) * World)) :=
  match fuel with
  | O => None
  | S fuel' =>
      if is_terminal state then Some (Ok (state, observations, policy_target, w))
      else
        match mcts_search (bot self) state w with
        | Raise e => Some (Raise e)
        | Ok (root_node, w1) =>
            let observations := observations ++ [observation_tensor state] in
            match step_target_policy (game self) (children root_node) with
            | Raise e => Some (Raise e)
            | Ok target_policy =>
                let policy_target := policy_target ++ [target_policy] in
                match AlphaZero__select_action self (children root_node)
                        (Z.of_nat (List.length (history state))) w1 with
                | Raise e => Some (Raise e)
                | Ok (a, w2) =>
                    play_loop fuel' self (apply_action state a)
                              observations policy_target w2
                end
            end
        end
  end.

(** The [for i, (obs, pol) in enumerate(zip(...))] loop, from index [i]. *)
Fixpoint emit (i : nat) (steps : list (list R * list R))
    (terminal_rewards : list R) (b : ReplayBuffer) : Result ReplayBuffer :=
  match steps with
  | [] => Ok b
  | (obs, pol) :: rest =>
      value <- getitem terminal_rewards (Z.of_nat i mod 2) ;;
      emit (S i) rest terminal_rewards
           (ReplayBuffer_add b {| observation := obs;
                                  target_policy := pol;
                                  target_value := value |})
  end.

Definition set_buffer (self : AlphaZero) (b : ReplayBuffer) : AlphaZero :=
  {| bot := bot self; game := game self; buffer := b;
     num_self_play_games := num_self_play_games self;
     _action_selection_transition := _action_selection_transition self;
     batch_size := batch_size self |}.

(** [AlphaZero._self_play_single]: the controller with its buffer after the
    episode. *)
Definition AlphaZero__self_play_single (fuel : nat) (self : AlphaZero)
    (w : World) : option (Result (AlphaZero * World)) :=
  match play_loop fuel self (new_initial_state (game self)) [] [] w with
  | None => None
  | Some (Raise e) => Some (Raise e)
  | Some (Ok (state, observations, policy_target, w1)) =>
      let terminal_rewards := rewards state in
      match emit 0 (combine observations policy_target) terminal_rewards
                 (buffer self) with
      | Raise e => Some (Raise e)
      | Ok b => Some (Ok (set_buffer self b, w1))
      end
  end.

(** [AlphaZero.self_play], with [n] games left to play. *)
Fixpoint self_play_games (fuel : nat) (n : nat) (self : AlphaZero) (w : World)
  : option (Result (AlphaZero * World)) :=
  match n with
  | O => Some (Ok (self, w))
  | S n' =>
      match AlphaZero__self_play_single fuel self w with
      | Some (Ok (self1, w1)) => self_play_games fuel n' self1 w1
      | r => r
      end
  end.

Definition AlphaZero_self_play (fuel : nat) (self : AlphaZero) (w : World)
  : option (Result (AlphaZero * World)) :=
  self_play_games fuel (Z.to_nat (num_self_play_games self)) self w.

(** The structural preconditions of section 4.4. *)
Definition meets_preconditions (g : Game) : bool :=
  (num_players g =? 2)%Z
  && ChanceMode_eqb (chance_mode (get_type g)) DETERMINISTIC
  && Information_eqb (information (get_type g)) PERFECT_INFORMATION
  && Dynamics_eqb (dynamics (get_type g)) SEQUENTIAL
  && Utility_eqb (utility (get_type g)) ZERO_SUM.

(** The children of a search root: one child per action, each action an id
    of the game, explore counts non-negative. *)
Definition well_formed_children (g : Game) (cs : list SearchNode) : Prop :=
  (forall c, In c cs -> (0 <= action c < num_distinct_actions g)%Z)
  /\ NoDup (map action cs)
  /\ (forall c, In c cs -> (0 <= explore_count c)%Z).

End Controller.

(** ** numpy and TensorFlow operations the evaluator calls *)

(** [np.vstack(rows)]: at least one row, all of one length. *)
Definition np_vstack (rows : list (list R)) : Result (list (list R)) :=
  match rows with
  | [] => Raise (ValueError "need at least one array to concatenate")
  | r :: rest =>
      if forallb (fun r' => Nat.eqb (List.length r') (List.length r)) rest
      then Ok rows
      else Raise (ValueError "all the input array dimensions except for the concatenation axis must match exactly")
  end.

(** Modelled from the spec: [masked_softmax.np_masked_softmax], which is not
    part of the embedded file (section 4.5 and the glossary): softmax
    restricted to the allowed entries; a masked entry gets probability zero
    and does not enter the normalisation denominator. *)
Definition np_masked_softmax (logits : list R) (mask : list Z) : Result (list R) :=
  if negb (Nat.eqb (List.length logits) (List.length mask)) then
    Raise (ValueError "operands could not be broadcast together")
  else
    let e := map (fun lm => if (snd lm =? 0)%Z then 0%R else exp (fst lm))
                 (combine logits mask) in
    Ok (map (fun x => (x / Py.sum e)%R) e).

(** The mask and the list of legal actions describe the same set of
    action-ids. *)
Definition mask_matches (mask legal : list Z) : Prop :=
  forall a, (0 <= a < Z.of_nat (List.length mask))%Z ->
            (In a legal <-> nth (Z.to_nat a) mask 0%Z <> 0%Z).

(** Two batches have the same number of rows and rows of the same lengths. *)
Fixpoint same_shape (a b : list (list R)) : bool :=
  match a, b with
  | [], [] => true
  | x :: a', y :: b' =>
      Nat.eqb (List.length x) (List.length y) && same_shape a' b'
  | _, _ => false
  end.

(** The integer nearest to [y], the even one of the two when [y] lies half
    way between them. *)
Definition round_half_even (y : R) : Z :=
  let f := Int_part y in
  let d := (y - IZR f)%R in
  if Rlt_dec d (1 / 2) then f
  else if Rlt_dec (1 / 2) d then (f + 1)%Z
  else if Z.even f then f else (f + 1)%Z.

(** The binary exponent of [x]: the integer part of its logarithm in base
    2. *)
Definition binade (x : R) : Z := Int_part (ln (Rabs x) / ln 2).

(** The float32 nearest to [x], ties to even: 24 significant bits, the least
    exponent -126, gradual underflow beneath it.  A result beyond the
    largest float32, inf in the program, is left finite here. *)
Definition round32 (x : R) : R :=
  let q := powerRZ 2 (Z.max (binade x) (-126) - 23) in
  (IZR (round_half_even (x / q)) * q)%R.

Module Tf.

(** [x + y] on float32 scalars: the sum rounded to the nearest float32. *)
Definition add (x y : R) : R := round32 (x + y).

(** [tf.nn.l2_loss(t)]: [sum(t ** 2) / 2]. *)
Definition l2_loss (t : list R) : R :=
  (Py.sum (map (fun x => x * x) t) / 2)%R.

(** [tf.reduce_mean] of a vector. *)
Definition reduce_mean (t : list R) : R :=
  (Py.sum t / INR (List.length t))%R.

(** [tf.losses.mean_squared_error(labels, predictions)] with the default
    weights and reduction: the squared differences summed over all entries
    and divided by their number; ValueError on incompatible shapes. *)
Definition mean_squared_error (labels predictions : list (list R)) : Result R :=
  if negb (same_shape labels predictions)
  then Raise (ValueError "Shapes are incompatible")
  else
    let d := map (fun lp => ((snd lp - fst lp) * (snd lp - fst lp))%R)
                 (combine (List.concat labels) (List.concat predictions)) in
    Ok (Py.sum d / INR (List.length d))%R.

(** [tf.nn.softmax_cross_entropy_with_logits_v2] on one row:
    [- sum_a labels[a] * log_softmax(logits)[a]]. *)
Definition cross_entropy_row (logits labels : list R) : R :=
  let lse := ln (Py.sum (map exp logits)) in
  (- Py.sum (map (fun ll => snd ll * (fst ll - lse)) (combine logits labels)))%R.

Definition softmax_cross_entropy_with_logits_v2
    (logits labels : list (list R)) : Result (list R) :=
  if negb (same_shape logits labels)
  then Raise (ValueError "logits and labels must be broadcastable")
  else Ok (map (fun ll => cross_entropy_row (fst ll) (snd ll))
               (combine logits labels)).

End Tf.

(** ** The Keras evaluator *)

Section KerasEvaluator.

Variable State : Type.
Variable observation_tensor : State -> list R.
Variable legal_actions : State -> list Z.
Variable legal_actions_mask : State -> list Z.

(** A Keras model with a value head and a policy head: [call training x] is
    [model(x, training=training)] on a batch [x], giving the batch of values
    (one column) and the batch of policy logits; [trainable_variables] are
    the weight tensors, each flattened. *)
Record KerasModel : Type := {
  call : bool -> list (list R) -> list (list R) * list (list R);
  trainable_variables : list (list R)
}.

(** The gradient step of the optimizer on the total loss of a batch
    ([tape.gradient] and [optimizer.apply_gradients]; TensorFlow). *)
Variable apply_gradients :
  KerasModel -> list (list R) -> list (list R) -> list (list R) -> KerasModel.

Record AlphaZeroKerasEvaluator : Type := {
  model : KerasModel;
  num_actions : Z;
  l2_regularization : R
}.

(** [[(action, policy[action]) for action in legal]]. *)
Fixpoint gather (policy : list R) (legal : list Z) : Result (list (Z * R)) :=
  match legal with
  | [] => Ok []
  | a :: rest =>
      p <- getitem policy a ;;
      ps <- gather policy rest ;;
      Ok ((a, p) :: ps)
  end.

(** [AlphaZeroKerasEvaluator.value_and_prior]. *)
Definition AlphaZeroKerasEvaluator_value_and_prior
    (self : AlphaZeroKerasEvaluator) (state : State)
  : Result (list R * list (Z * R)) :=
  let tensor_state := [observation_tensor state] in
  let '(value, policy) := call (model self) false tensor_state in
  policy <- getitem policy 0 ;;
  let mask := legal_actions_mask state in
  policy <- np_masked_softmax policy mask ;;
  policy <- gather policy (legal_actions state) ;;
  row <- getitem value 0 ;;
  value <- getitem row 0 ;;
  let value := [value; (- value)%R] in
  Ok (value, policy).

(** [AlphaZeroKerasEvaluator.update]: the losses of the batch and the
    evaluator after the gradient step.  The reported total is the float32
    sum of the three reported losses, formed by two rounded additions. *)
Definition AlphaZeroKerasEvaluator_update
    (self : AlphaZeroKerasEvaluator) (training_examples : list MCTSResult)
  : Result (LossValues * AlphaZeroKerasEvaluator) :=
  observations <- np_vstack (map observation training_examples) ;;
  target_values <-
    np_vstack (map (fun e => [target_value e]) training_examples) ;;
  target_policies <- np_vstack (map target_policy training_examples) ;;
  let '(values, policy_logits) := call (model self) true observations in
  loss_value <- Tf.mean_squared_error values target_values ;;
  loss_policy <-
    Tf.softmax_cross_entropy_with_logits_v2 policy_logits target_policies ;;
  let loss_policy := Tf.reduce_mean loss_policy in
  let loss_l2 :=
    fold_left (fun acc weights =>
                 (acc + l2_regularization self * Tf.l2_loss weights)%R)
              (trainable_variables (model self)) 0%R in
  let loss := Tf.add (Tf.add loss_policy loss_value) loss_l2 in
  Ok ({| total := loss; policy := loss_policy;
         value := loss_value; l2 := loss_l2 |},
      {| model := apply_gradients (model self) observations target_values
                                  target_policies;
         num_actions := num_actions self;
         l2_regularization := l2_regularization self |}).

End KerasEvaluator.

(** The three losses in the words of the specification (section 4.5), on
    the batch of predicted values (one per example, the first entry of its
    row), the batch of policy logits and the targets of the examples. *)
Definition spec_value_loss (values : list (list R)) (targets : list R) : R :=
  (Py.sum (map (fun vt => (hd 0 (fst vt) - snd vt) * (hd 0 (fst vt) - snd vt))
               (combine values targets))
   / INR (List.length targets))%R.

Definition spec_softmax (logits : list R) (x : R) : R :=
  (exp x / Py.sum (map exp logits))%R.

Definition spec_cross_entropy (logits target : list R) : R :=
  (- Py.sum (map (fun lt => snd lt * ln (spec_softmax logits (fst lt)))
                 (combine logits target)))%R.

Definition spec_policy_loss (logits targets : list (list R)) : R :=
  (Py.sum (map (fun lt => spec_cross_entropy (fst lt) (snd lt))
               (combine logits targets))
   / INR (List.length targets))%R.

Definition sum_of_squares (variables : list (list R)) : R :=
  Py.sum (map (fun x => x * x)%R (List.concat variables)).

(** ** The constructor of the Keras evaluator *)

(** A shape as Keras reports it: [None] is an unknown dimension. *)
Definition Shape : Type := list (option Z).

(** The [device] argument and attribute: a Python string, or the device
    context [tf.device(name)] returns. *)
Inductive Device : Type :=
| DeviceString (s : string)
| DeviceContext (name : string).

(** [a, b = seq]: ValueError unless the sequence has exactly two items. *)
Definition unpack2 {A} (l : list A) : Result (A * A) :=
  match l with
  | [a; b] => Ok (a, b)
  | [] => Raise (ValueError "not enough values to unpack (expected 2, got 0)")
  | [_] => Raise (ValueError "not enough values to unpack (expected 2, got 1)")
  | _ => Raise (ValueError "too many values to unpack (expected 2)")
  end.

(** The attributes [AlphaZeroKerasEvaluator.__init__] computes. *)
Record EvaluatorAttributes : Type := {
  attr_input_shape : Shape;
  attr_num_actions : option Z;
  attr_l2_regularization : R;
  attr_device : Device
}.

(** [AlphaZeroKerasEvaluator.__init__], on the input and output shapes of
    the model; [is_gpu_available] is the value of
    [tf.test.is_gpu_available()]. *)
Definition AlphaZeroKerasEvaluator_init (model_input_shape : Shape)
    (model_output_shape : list Shape) (l2_regularization : R)
    (device : Device) (is_gpu_available : bool)
  : Result EvaluatorAttributes :=
  input_shape <- setitem model_input_shape 0 (Some 1%Z) ;;
  heads <- unpack2 model_output_shape ;;
  policy_shape <- unpack2 (snd heads) ;;
  let num_actions := snd policy_shape in
  device <-
    match device with
    | DeviceString s =>
        if String.eqb s "gpu" then
          if negb is_gpu_available
          then Raise (ValueError "GPU support is unavailable.")
          else Ok (DeviceContext "gpu:0")
        else if String.eqb s "cpu" then Ok (DeviceContext "cpu:0")
        else Ok device
    | DeviceContext _ => Ok device
    end ;;
  Ok {| attr_input_shape := input_shape;
        attr_num_actions := num_actions;
        attr_l2_regularization := l2_regularization;
        attr_device := device |}.

(** ** The network builders *)

(** The graph a builder requests from Keras: layers with the arguments the
    source passes (and Keras' defaults for those it leaves out), applied to
    tensors. *)
Module Keras.

Inductive Layer : Type :=
| Conv2D (filters kernel_size strides : Z) (padding kernel_initializer : string)
| BatchNormalization
| Activation (activation : string)
| Flatten
| Dense (units : Z) (activation : option string) (kernel_initializer : string)
        (name : option string).

Inductive Tensor : Type :=
| Input (shape : list Z) (name : string)
| Apply (layer : Layer) (x : Tensor)
| Add (x y : Tensor).

(** [tf.keras.Model(inputs=..., outputs=[...])]. *)
Record Model : Type := {
  inputs : Tensor;
  outputs : list Tensor
}.

(** The number of layers on the longest path from the input. *)
Fixpoint depth (t : Tensor) : nat :=
  match t with
  | Input _ _ => O
  | Apply _ x => S (depth x)
  | Add x y => S (Nat.max (depth x) (depth y))
  end.

(** The layers on the path from the input that follows the first argument
    of every addition (the skip connection), outermost first. *)
Fixpoint trunk_layers (t : Tensor) : list Layer :=
  match t with
  | Input _ _ => []
  | Apply l x => l :: trunk_layers x
  | Add x _ => trunk_layers x
  end.

Definition dim_eqb (a b : option Z) : bool :=
  match a, b with
  | None, None => true
  | Some x, Some y => (x =? y)%Z
  | _, _ => false
  end.

Fixpoint shape_eqb (a b : Shape) : bool :=
  match a, b with
  | [], [] => true
  | x :: a', y :: b' => dim_eqb x y && shape_eqb a' b'
  | _, _ => false
  end.

(** The size of a convolved dimension. *)
Definition conv_dim (padding : string) (kernel_size strides : Z)
    (d : option Z) : option Z :=
  match d with
  | None => None
  | Some n =>
      if String.eqb padding "same" then Some ((n + strides - 1) / strides)%Z
      else Some ((n - kernel_size + strides) / strides)%Z
  end.

Fixpoint product (dims : list (option Z)) : option Z :=
  match dims with
  | [] => Some 1%Z
  | d :: rest =>
      match d, product rest with
      | Some n, Some m => Some (n * m)%Z
      | _, _ => None
      end
  end.

Fixpoint replace_last (s : Shape) (d : option Z) : option Shape :=
  match s with
  | [] => None
  | [_] => Some [d]
  | x :: rest =>
      match replace_last rest d with
      | Some r => Some (x :: r)
      | None => None
      end
  end.

(** The output shape of a layer on an input of shape [s] (channels last);
    [None] where Keras refuses the input. *)
Definition layer_shape (l : Layer) (s : Shape) : option Shape :=
  match l with
  | Conv2D filters kernel_size strides padding _ =>
      match s with
      | [b; h; w; _] =>
          Some [b; conv_dim padding kernel_size strides h;
                conv_dim padding kernel_size strides w; Some filters]
      | _ => None
      end
  | BatchNormalization => Some s
  | Activation _ => Some s
  | Flatten =>
      match s with
      | [] => None
      | b :: rest => Some [b; product rest]
      end
  | Dense units _ _ _ =>
      match s with
      | [] | [_] => None
      | _ => replace_last s (Some units)
      end
  end.

Fixpoint shape_of (t : Tensor) : option Shape :=
  match t with
  | Input shape _ => Some (None :: map Some shape)
  | Apply l x =>
      match shape_of x with
      | Some s => layer_shape l s
      | None => None
      end
  | Add x y =>
      match shape_of x, shape_of y with
      | Some sx, Some sy => if shape_eqb sx sy then Some sx else None
      | _, _ => None
      end
  end.

(** [model.output_shape] of a model with several outputs. *)
Fixpoint shapes_of (ts : list Tensor) : option (list Shape) :=
  match ts with
  | [] => Some []
  | t :: rest =>
      match shape_of t, shapes_of rest with
      | Some s, Some ss => Some (s :: ss)
      | _, _ => None
      end
  end.

End Keras.

Import Keras.

(** [_residual_layer]. *)
Definition _residual_layer (inputs : Tensor) (num_filters kernel_size : Z)
    (activation : string) : Tensor :=
  let x := inputs in
  let x := Apply (Conv2D num_filters kernel_size 1 "same" "he_uniform") x in
  let x := Apply BatchNormalization x in
  let x := Apply (Activation activation) x in
  let x := Apply (Conv2D num_filters kernel_size 1 "same" "he_uniform") x in
  Apply BatchNormalization x.

(** One iteration of the loop of [_residual_tower]; the first [y] is
    rebound before it is used. *)
Definition residual_block (num_filters kernel_size : Z) (activation : string)
    (x : Tensor) : Tensor :=
  let y := _residual_layer x num_filters kernel_size activation in
  let y := _residual_layer x num_filters kernel_size activation in
  let x := Add x y in
  Apply (Activation activation) x.

(** [_residual_tower]. *)
Definition _residual_tower (inputs : Tensor)
    (num_res_blocks num_filters kernel_size : Z) (activation : string)
  : Tensor :=
  Nat.iter (Z.to_nat num_res_blocks)
           (residual_block num_filters kernel_size activation) inputs.

(** [_resnet_body]. *)
Definition _resnet_body (inputs : Tensor)
    (num_residual_blocks num_filters kernel_size : Z) (activation : string)
  : Tensor :=
  let x := inputs in
  let x := Apply (Conv2D num_filters kernel_size 1 "same" "he_uniform") x in
  let x := Apply BatchNormalization x in
  let x := Apply (Activation activation) x in
  _residual_tower x num_residual_blocks num_filters kernel_size activation.

(** [_resnet_value_head]. *)
Definition _resnet_value_head (inputs : Tensor) (hidden_size : Z)
    (activation : string) : Tensor :=
  let x := inputs in
  let x := Apply (Conv2D 1 1 1 "valid" "he_uniform") x in
  let x := Apply BatchNormalization x in
  let x := Apply (Activation activation) x in
  let x := Apply Flatten x in
  let x := Apply (Dense hidden_size (Some activation) "he_uniform" None) x in
  Apply (Dense 1 (Some "tanh"%string) "he_uniform" (Some "value"%string)) x.

(** [_resnet_mlp_policy_head]. *)
Definition _resnet_mlp_policy_head (inputs : Tensor) (num_classes : Z)
    (activation : string) : Tensor :=
  let x := inputs in
  let x := Apply (Conv2D 2 1 1 "valid" "he_uniform") x in
  let x := Apply BatchNormalization x in
  let x := Apply (Activation activation) x in
  let x := Apply Flatten x in
  Apply (Dense num_classes None "he_uniform" (Some "policy"%string)) x.

(** [keras_resnet]: the body gets the caller's activation and the default
    kernel size 3; the heads are called without an activation and use their
    default, relu. *)
Definition keras_resnet (input_shape : list Z)
    (num_actions num_residual_blocks num_filters value_head_hidden_size : Z)
    (activation : string) : Model :=
  let inputs := Input input_shape "input" in
  let body :=
    _resnet_body inputs num_residual_blocks num_filters 3 activation in
  let value_head := _resnet_value_head body value_head_hidden_size "relu" in
  let policy_head := _resnet_mlp_policy_head body num_actions "relu" in
  {| inputs := inputs; outputs := [value_head; policy_head] |}.

(** [keras_mlp]. *)
Definition keras_mlp (input_size num_actions num_layers num_hidden : Z)
    (activation : string) : Model :=
  let inputs := Input [input_size] "input" in
  let x :=
    Nat.iter (Z.to_nat num_layers)
             (Apply (Dense num_hidden (Some activation) "he_uniform" None))
             inputs in
  let policy :=
    Apply (Dense num_actions None "he_uniform" (Some "policy"%string)) x in
  let value :=
    Apply (Dense 1 (Some "tanh"%string) "he_uniform" (Some "value"%string)) x in
  {| inputs := inputs; outputs := [value; policy] |}.

(** ** Concrete inputs *)

Definition solved_child : SearchNode :=
  {| action := 3; explore_count := 7; total_reward := 2; prior := 1;
     outcome := Some [1; -1]%R; player := 1 |}.

Definition fresh_child : SearchNode :=
  {| action := 0; explore_count := 0; total_reward := 5; prior := 1;
     outcome := None; player := 0 |}.

(** The toy game of the specification's scenarios: one ply, two actions; a
    state is the list of actions played.  The world counts the calls of the
    evaluator's [update]; the generators are constant. *)
Module Toy.

Definition State : Type := list Z.
Definition World : Type := nat.

Definition is_terminal (s : State) : bool := (1 <=? List.length s)%nat.
Definition observation_tensor (s : State) : list R := [INR (List.length s)].
Definition history (s : State) : list Z := s.
Definition rewards (s : State) : list R :=
  match s with
  | 0%Z :: _ => [-1; 1]%R
  | _ => [1; -1]%R
  end.
Definition apply_action (s : State) (a : Z) : State := s ++ [a].
Definition np_random_choice (p : list Float) (w : World) : Z * World :=
  (0%Z, w).
Definition random_below (n : nat) (w : World) : nat * World := (O, w).

Definition game_type : GameType :=
  {| chance_mode := DETERMINISTIC; information := PERFECT_INFORMATION;
     dynamics := SEQUENTIAL; utility := ZERO_SUM |}.

(** A game object without attributes of its own, as a [pyspiel.Game] is for
    the names [__init__] formats. *)
Definition game : Game State :=
  {| num_players := 2; get_type := game_type; getattr := fun _ => None;
     num_distinct_actions := 2; new_initial_state := [] |}.

Definition three_player_game : Game State :=
  {| num_players := 3; get_type := game_type; getattr := fun _ => None;
     num_distinct_actions := 2; new_initial_state := [] |}.

Definition simultaneous_game : Game State :=
  {| num_players := 2;
     get_type := {| chance_mode := DETERMINISTIC;
                    information := PERFECT_INFORMATION;
                    dynamics := SIMULTANEOUS; utility := ZERO_SUM |};
     getattr := fun _ => None;
     num_distinct_actions := 2; new_initial_state := [] |}.

Definition root : RootNode :=
  {| children :=
       [ {| action := 0; explore_count := 3; total_reward := 2; prior := 1;
            outcome := None; player := 0 |};
         {| action := 1; explore_count := 1; total_reward := 0; prior := 1;
            outcome := None; player := 0 |} ] |}.

(** A root whose two most visited children are tied, the smaller action-id
    first, with explore counts of the size a long search produces; a sampler
    that draws index 0 and advances the generator. *)
Definition busy_root : RootNode :=
  {| children :=
       [ {| action := 0; explore_count := 2000; total_reward := 0; prior := 1;
            outcome := None; player := 0 |};
         {| action := 1; explore_count := 2000; total_reward := 0; prior := 1;
            outcome := None; player := 0 |};
         {| action := 2; explore_count := 0; total_reward := 0; prior := 1;
            outcome := None; player := 0 |} ] |}.

Definition draw_first (p : list Float) (w : World) : Z * World := (0%Z, S w).

Definition losses : LossValues :=
  {| total := 3; policy := 1; value := 1; l2 := 1 |}.

Definition bot : MCTSBot State World :=
  {| evaluator :=
       {| evaluator_update := fun _ w => Ok (losses, S w) |};
     mcts_search := fun _ w => Ok (root, w) |}.

(** A controller on the toy game that selects greedily from the first move
    (transition threshold 0), with an empty buffer. *)
Definition controller : AlphaZero State World :=
  Build_AlphaZero bot game (ReplayBuffer_new 10) 1 0 2.

(** A controller that samples its first move and selects greedily from the
    second (transition threshold 1). *)
Definition sampling_controller : AlphaZero State World :=
  Build_AlphaZero bot game (ReplayBuffer_new 10) 1 1 2.

(** The same controller after an episode left one transition in its
    buffer. *)
Definition seeded_controller : AlphaZero State World :=
  Build_AlphaZero bot game
    {| capacity := 10;
       items := [ {| observation := [0%R]; target_value := (-1)%R;
                     target_policy := [1%R; 0%R] |} ] |}
    1 0 2.

(** An evaluator for the toy game: a constant model with one weight tensor
    holding the single weight 2, regularisation coefficient 1, and an
    optimizer that leaves the model as it is. *)
Definition legal_actions (s : State) : list Z := [1%Z].
Definition legal_actions_mask (s : State) : list Z := [0%Z; 1%Z].

Definition keras_model : KerasModel :=
  {| call := fun _ x => (map (fun _ => [0%R]) x, map (fun _ => [0%R; 0%R]) x);
     trainable_variables := [[2%R]] |}.

Definition keras_evaluator : AlphaZeroKerasEvaluator :=
  {| model := keras_model; num_actions := 2; l2_regularization := 1 |}.

Definition keep_model (m : KerasModel) (_ _ _ : list (list R)) : KerasModel := m.

Definition batch : list MCTSResult :=
  [ {| observation := [0%R]; target_value := (-1)%R;
       target_policy := [1%R; 0%R] |} ].

(** An evaluator for a game with a single action: a constant model with the
    single weight [w] and regularisation coefficient 1, and a batch of two
    examples whose value targets are 1/512 and 0. *)
Definition single_action_model (w : R) : KerasModel :=
  {| call := fun _ x => (map (fun _ => [0%R]) x, map (fun _ => [0%R]) x);
     trainable_variables := [[w]] |}.

Definition single_action_evaluator (w : R) : AlphaZeroKerasEvaluator :=
  {| model := single_action_model w; num_actions := 1;
     l2_regularization := 1 |}.

Definition two_examples : list MCTSResult :=
  [ {| observation := [0%R]; target_value := (1 / 512)%R;
       target_policy := [1%R] |};
    {| observation := [0%R]; target_value := 0%R;
       target_policy := [1%R] |} ].

(** Two games that fail the chance-mode check with different actual
    values, and a state type whose initial state is already terminal. *)
Definition explicit_stochastic_game : Game State :=
  {| num_players := 2;
     get_type := {| chance_mode := EXPLICIT_STOCHASTIC;
                    information := PERFECT_INFORMATION;
                    dynamics := SEQUENTIAL; utility := ZERO_SUM |};
     getattr := fun _ => None;
     num_distinct_actions := 2; new_initial_state := [] |}.

Definition sampled_stochastic_game : Game State :=
  {| num_players := 2;
     get_type := {| chance_mode := SAMPLED_STOCHASTIC;
                    information := PERFECT_INFORMATION;
                    dynamics := SEQUENTIAL; utility := ZERO_SUM |};
     getattr := fun _ => None;
     num_distinct_actions := 2; new_initial_state := [] |}.

Definition always_terminal (s : State) : bool := true.

End Toy.

(** * Properties *)

(** ** Python primitives *)

Lemma getitem_nonneg {A} (l : list A) (i : Z) (x : A) :
  (0 <= i)%Z -> nth_error l (Z.to_nat i) = Some x -> getitem l i = Ok x.
Proof.
  intros Hi Hn. unfold getitem.
  assert (Hlt : (Z.to_nat i < List.length l)%nat).
  { apply nth_error_Some. rewrite Hn. discriminate. }
  destruct (Z.ltb_spec i 0) as [H|_]; [lia|].
  destruct (Z.ltb_spec i 0) as [H|_]; [lia|].
  destruct (Z.leb_spec (Z.of_nat (List.length l)) i) as [H|_]; [lia|].
  simpl. now rewrite Hn.
Qed.

Lemma getitem_map {A B} (f : A -> B) (l : list A) (i : Z) :
  getitem (map f l) i = (x <- getitem l i ;; Ok (f x)).
Proof.
  unfold getitem. rewrite length_map.
  match goal with |- context [if ?c then Raise IndexError else _] =>
    destruct c end; [reflexivity|].
  rewrite nth_error_map. now destruct (nth_error l _).
Qed.

Lemma truediv_ok (x y : R) : y <> 0%R -> truediv x y = Ok (x / y)%R.
Proof.
  intros Hy. unfold truediv. destruct (Req_dec_T y 0); [contradiction|reflexivity].
Qed.

Lemma math_log_ok (x : R) : (0 < x)%R -> math_log x = Ok (ln x).
Proof.
  intros Hx. unfold math_log. destruct (Rlt_dec 0 x); [reflexivity|contradiction].
Qed.

Lemma math_sqrt_ok (x : R) : (0 <= x)%R -> math_sqrt x = Ok (sqrt x).
Proof.
  intros Hx. unfold math_sqrt. destruct (Rle_dec 0 x); [reflexivity|contradiction].
Qed.

(** ** The PUCT scorer *)

(** C4: when the child's outcome is present the score is exactly
    [child.outcome[child.player]] (Python indexing, so the entry at that
    position when the player id is a valid position), and no other input
    enters it: any other child with the same outcome and player gets the same
    score, whatever its prior, explore count and total reward and whatever
    the parent's explore count, [c_init] and [c_base]. *)
Theorem ucb_score_outcome_present :
  forall (child : SearchNode) (o : list R) (parent_explore_count : Z)
         (c_init c_base : R),
    outcome child = Some o ->
    alpha_zero_ucb_score child parent_explore_count (c_init, c_base)
      = getitem o (player child)
    /\ (forall v, (0 <= player child)%Z ->
          nth_error o (Z.to_nat (player child)) = Some v ->
          alpha_zero_ucb_score child parent_explore_count (c_init, c_base)
            = Ok v)
    /\ (forall a' ec' tr' pr' pec' ci' cb',
          alpha_zero_ucb_score
            {| action := a'; explore_count := ec'; total_reward := tr';
               prior := pr'; outcome := Some o; player := player child |}
            pec' (ci', cb')
          = alpha_zero_ucb_score child parent_explore_count (c_init, c_base)).
Proof.
  intros child o pec ci cb Ho.
  assert (E : alpha_zero_ucb_score child pec (ci, cb) = getitem o (player child)).
  { unfold alpha_zero_ucb_score. now rewrite Ho. }
  split; [exact E|]. split.
  - intros v Hp Hn. rewrite E. now apply getitem_nonneg.
  - intros. rewrite E. reflexivity.
Qed.

Lemma ucb_score_outcome_present_witness :
  outcome solved_child = Some [1; -1]%R
  /\ alpha_zero_ucb_score solved_child 10 (5, 19652)%R = Ok (-1)%R.
Proof.
  split; [reflexivity|].
  apply (ucb_score_outcome_present solved_child 10 5 19652 eq_refl).
Defined.

(** C5: when the child has no outcome (and the formula is defined: the
    counts are non-negative, [c_base] is not zero and the logarithm's
    argument is positive) the score is [prior_term + exploitation_term] with
    [prior_term = (ln((parent_explore_count + c_base + 1) / c_base) + c_init)
    * sqrt(parent_explore_count) / (child.explore_count + 1) * child.prior];
    the exploitation term is 0 when the explore count is 0, whatever the
    total reward, and [total_reward / explore_count] otherwise. *)
Theorem ucb_score_no_outcome :
  forall (child : SearchNode) (parent_explore_count : Z) (c_init c_base : R),
    outcome child = None ->
    (0 <= parent_explore_count)%Z ->
    (0 <= explore_count child)%Z ->
    c_base <> 0%R ->
    (0 < (IZR parent_explore_count + c_base + 1) / c_base)%R ->
    alpha_zero_ucb_score child parent_explore_count (c_init, c_base)
      = Ok (spec_prior_term child parent_explore_count c_init c_base
            + spec_exploitation_term child)%R
    /\ (explore_count child = 0%Z -> spec_exploitation_term child = 0%R)
    /\ (explore_count child <> 0%Z ->
        spec_exploitation_term child
          = (total_reward child / IZR (explore_count child))%R).
Proof.
  intros child pec ci cb Ho Hp He Hcb Hlog.
  assert (Hden : (IZR (explore_count child) + 1 <> 0)%R).
  { apply IZR_le in He. lra. }
  split; [|split].
  - unfold alpha_zero_ucb_score. rewrite Ho.
    rewrite (truediv_ok _ Hcb). cbn [bind].
    rewrite (math_log_ok Hlog). cbn [bind].
    rewrite math_sqrt_ok by (apply IZR_le in Hp; lra). cbn [bind].
    rewrite truediv_ok by (rewrite plus_IZR; exact Hden). cbn [bind].
    unfold and_int, spec_prior_term, spec_exploitation_term.
    destruct (Z.eqb_spec (explore_count child) 0) as [E0|E0].
    + cbn [bind]. f_equal. rewrite plus_IZR, E0.
      first [ solve [field] | solve [field; lra] ].
    + rewrite truediv_ok by (apply not_0_IZR; exact E0). cbn [bind].
      f_equal. rewrite plus_IZR. field. split; [|exact Hden].
      apply not_0_IZR; exact E0.
  - intros E0. unfold spec_exploitation_term. now rewrite E0.
  - intros E0. unfold spec_exploitation_term.
    destruct (Z.eqb_spec (explore_count child) 0); [contradiction|reflexivity].
Qed.

Lemma ucb_score_no_outcome_witness :
  (outcome fresh_child = None
   /\ (0 <= 4)%Z /\ (0 <= explore_count fresh_child)%Z
   /\ 1%R <> 0%R /\ (0 < (IZR 4 + 1 + 1) / 1)%R)
  /\ alpha_zero_ucb_score fresh_child 4 (0, 1)%R
     = Ok (spec_prior_term fresh_child 4 0 1
           + spec_exploitation_term fresh_child)%R.
Proof.
  assert (H1 : 1%R <> 0%R) by lra.
  assert (H2 : (0 < (IZR 4 + 1 + 1) / 1)%R) by lra.
  split.
  - repeat split; [cbv; discriminate | cbv; discriminate | exact H1 | exact H2].
  - apply (@ucb_score_no_outcome fresh_child 4 0%R 1%R eq_refl);
      [cbv; discriminate | cbv; discriminate | exact H1 | exact H2].
Defined.

(** ** Construction of the controller *)

Section Construction.

Variables State World RandomState : Type.

Lemma init_accepts_valid_game (g : Game State) (b : MCTSBot State World)
    (cap ast nspg ntr bs : Z) (rs : option RandomState) :
  meets_preconditions g = true ->
  AlphaZero_init g b cap ast nspg ntr bs rs
  = Ok {| bot := b; game := g; buffer := ReplayBuffer_new cap;
          num_self_play_games := nspg;
          _action_selection_transition := ast; batch_size := bs |}.
Proof.
  unfold meets_preconditions, AlphaZero_init. intros H.
  repeat (apply andb_prop in H; destruct H as [H ?]).
  repeat match goal with E : _ = true |- _ => rewrite E; clear E end.
  reflexivity.
Qed.

(** C1 (as the code has it): for every game object violating one of the
    structural preconditions the construction raises, so no object, partial
    or not, is produced; a player count other than 2 is the first check and
    raises ValueError("Game must be a 2-player game"), a message that names
    the requirement and not the actual count.  This covers a game reporting
    simultaneous dynamics: its construction raises. *)
Theorem init_rejects_invalid_game :
  forall (g : Game State) (b : MCTSBot State World)
         (cap ast nspg ntr bs : Z) (rs : option RandomState),
    meets_preconditions g = false ->
    exists e : Exn,
      AlphaZero_init g b cap ast nspg ntr bs rs = Raise e
      /\ (num_players g <> 2%Z ->
          e = ValueError "Game must be a 2-player game").
Proof.
  intros g b cap ast nspg ntr bs rs H.
  unfold meets_preconditions in H. unfold AlphaZero_init, format_attr.
  destruct (Z.eqb_spec (num_players g) 2) as [E2|E2]; cbn [negb].
  - destruct (ChanceMode_eqb _ _); cbn [negb];
      [|destruct (getattr g "chance_mode"); eexists; split;
        [reflexivity|intros; contradiction| reflexivity | intros; contradiction]].
    destruct (Information_eqb _ _); cbn [negb];
      [|destruct (getattr g "information"); eexists; split;
        [reflexivity|intros; contradiction| reflexivity | intros; contradiction]].
    destruct (Dynamics_eqb _ _); cbn [negb];
      [|destruct (getattr g "dynamics"); eexists; split;
        [reflexivity|intros; contradiction| reflexivity | intros; contradiction]].
    destruct (Utility_eqb _ _); cbn [negb];
      [|destruct (getattr g "utility"); eexists; split;
        [reflexivity|intros; contradiction| reflexivity | intros; contradiction]].
    discriminate H.
  - eexists; split; [reflexivity|reflexivity].
Qed.

(** C10: the random_state argument is neither stored nor consumed: two
    constructions that differ only in random_state give the same result, so
    every method of the two objects behaves alike; and below the transition
    threshold the index is drawn by [np.random.choice] from the world's
    global generator, whose state after the call is the one that draw
    leaves. *)
Theorem random_state_ignored :
  forall (is_terminal : State -> bool) (observation_tensor : State -> list R)
         (history : State -> list Z) (rewards : State -> list R)
         (apply_action : State -> Z -> State)
         (np_random_choice : list Float -> World -> Z * World)
         (random_below : nat -> World -> nat * World)
         (g : Game State) (b : MCTSBot State World)
         (cap ast nspg ntr bs : Z) (rs1 rs2 : option RandomState),
    AlphaZero_init g b cap ast nspg ntr bs rs1
    = AlphaZero_init g b cap ast nspg ntr bs rs2
    /\ (forall self1 self2,
          AlphaZero_init g b cap ast nspg ntr bs rs1 = Ok self1 ->
          AlphaZero_init g b cap ast nspg ntr bs rs2 = Ok self2 ->
          (forall cs hl w,
              AlphaZero__select_action np_random_choice self1 cs hl w
              = AlphaZero__select_action np_random_choice self2 cs hl w)
          /\ (forall fuel w,
                 AlphaZero__self_play_single is_terminal observation_tensor
                   history rewards apply_action np_random_choice fuel self1 w
                 = AlphaZero__self_play_single is_terminal observation_tensor
                     history rewards apply_action np_random_choice fuel self2 w)
          /\ (forall w,
                 AlphaZero_update random_below self1 w
                 = AlphaZero_update random_below self2 w))
    /\ (forall (self : AlphaZero State World) cs hl w probs a w',
          (hl < _action_selection_transition self)%Z ->
          np_softmax (map (fun c => IZR (explore_count c)) cs) = Ok probs ->
          AlphaZero__select_action np_random_choice self cs hl w = Ok (a, w') ->
          w' = snd (np_random_choice probs w)
          /\ getitem (map action cs) (fst (np_random_choice probs w)) = Ok a).
Proof.
  intros. split; [reflexivity|]. split.
  - intros self1 self2 H1 H2.
    assert (E : self1 = self2).
    { unfold AlphaZero_init in H1, H2. rewrite H1 in H2. now inversion H2. }
    subst self2. repeat split.
  - intros self cs hl w probs a w' Hlt Hp Hs.
    unfold AlphaZero__select_action in Hs.
    destruct (Z.ltb_spec hl (_action_selection_transition self)) as [_|Hge];
      [|lia].
    rewrite map_map in Hs. cbn [fst] in Hs. rewrite Hp in Hs. cbn [bind] in Hs.
    destruct (np_random_choice probs w) as [i w1] eqn:Ec. cbn [fst snd].
    rewrite getitem_map in Hs. rewrite getitem_map.
    destruct (getitem cs i) as [c|e]; cbn in Hs |- *; [|discriminate Hs].
    inversion Hs. split; reflexivity.
Qed.

End Construction.

Lemma init_rejects_invalid_game_witness :
  meets_preconditions Toy.simultaneous_game = false
  /\ exists e : Exn,
       AlphaZero_init Toy.simultaneous_game Toy.bot 10 0 1 1 2 (@None unit)
       = Raise e
       /\ (num_players Toy.simultaneous_game <> 2%Z ->
           e = ValueError "Game must be a 2-player game").
Proof.
  split; [reflexivity|].
  apply (@init_rejects_invalid_game Toy.State Toy.World unit
           Toy.simultaneous_game Toy.bot 10 0 1 1 2 None eq_refl).
Defined.

(** C1 as stated fails: a game reporting 3 players is rejected with a message
    that does not carry the actual player count. *)
Lemma init_three_players_omits_count :
  AlphaZero_init Toy.three_player_game Toy.bot 10 0 1 1 2 (@None unit)
  = Raise (ValueError "Game must be a 2-player game")
  /\ contains "3" "Game must be a 2-player game" = false.
Proof. split; reflexivity. Qed.

(** What [__init__] does on a game reporting simultaneous dynamics whose
    object has no attribute [dynamics] of its own: the message is formatted
    from [game.dynamics], not from [game_info.dynamics], and the lookup
    raises before the ValueError is built. *)
Example init_simultaneous_without_attribute :
  AlphaZero_init Toy.simultaneous_game Toy.bot 10 0 1 1 2 (@None unit)
  = Raise (AttributeError "dynamics").
Proof. reflexivity. Qed.

(** ** Sums of vectors *)

Lemma fold_left_Rplus_acc (l : list R) (a : R) :
  fold_left Rplus l a = (a + fold_left Rplus l 0)%R.
Proof.
  revert a. induction l as [|x l IH]; intros a; simpl.
  - lra.
  - rewrite (IH (a + x)%R), (IH (0 + x)%R). lra.
Qed.

Lemma sum_nil : Py.sum [] = 0%R.
Proof. reflexivity. Qed.

Lemma sum_cons (x : R) (l : list R) : Py.sum (x :: l) = (x + Py.sum l)%R.
Proof.
  unfold Py.sum. simpl. rewrite fold_left_Rplus_acc. lra.
Qed.

Lemma sum_app (l1 l2 : list R) : Py.sum (l1 ++ l2) = (Py.sum l1 + Py.sum l2)%R.
Proof.
  induction l1 as [|x l1 IH]; simpl.
  - rewrite sum_nil. lra.
  - rewrite !sum_cons, IH. lra.
Qed.

Lemma sum_map_scale {A} (f : A -> R) (k : R) (l : list A) :
  Py.sum (map (fun x => f x * k)%R l) = (Py.sum (map f l) * k)%R.
Proof.
  induction l as [|x l IH]; simpl.
  - rewrite sum_nil. lra.
  - rewrite !sum_cons, IH. lra.
Qed.

Lemma sum_map_div (l : list R) (s : R) :
  Py.sum (map (fun x => x / s)%R l) = (Py.sum l / s)%R.
Proof.
  unfold Rdiv. rewrite (sum_map_scale (fun x => x) (/ s) l), map_id.
  reflexivity.
Qed.

Lemma sum_map_ext {A} (f g : A -> R) (l : list A) :
  (forall x, In x l -> f x = g x) -> Py.sum (map f l) = Py.sum (map g l).
Proof.
  intros H. f_equal. apply map_ext_in. exact H.
Qed.

Lemma sum_nonneg (l : list R) :
  (forall x, In x l -> 0 <= x)%R -> (0 <= Py.sum l)%R.
Proof.
  induction l as [|x l IH]; intros H.
  - rewrite sum_nil. lra.
  - rewrite sum_cons.
    assert (0 <= x)%R by (apply H; now left).
    assert (0 <= Py.sum l)%R by (apply IH; intros; apply H; now right).
    lra.
Qed.

Lemma sum_pos (l : list R) :
  l <> [] -> (forall x, In x l -> 0 < x)%R -> (0 < Py.sum l)%R.
Proof.
  destruct l as [|x l]; [congruence|]. intros _ H.
  rewrite sum_cons.
  assert (0 < x)%R by (apply H; now left).
  assert (0 <= Py.sum l)%R.
  { apply sum_nonneg. intros y Hy. apply Rlt_le, H. now right. }
  lra.
Qed.

Lemma sum_ge_member {A} (f : A -> R) (l : list A) (x : A) :
  (forall y, In y l -> 0 <= f y)%R -> In x l -> (f x <= Py.sum (map f l))%R.
Proof.
  induction l as [|y l IH]; intros Hnn Hin; [destruct Hin|].
  simpl. rewrite sum_cons.
  assert (H0 : (0 <= f y)%R) by (apply Hnn; now left).
  assert (H1 : (0 <= Py.sum (map f l))%R).
  { apply sum_nonneg. intros z Hz. apply in_map_iff in Hz.
    destruct Hz as (u & <- & Hu). apply Hnn. now right. }
  destruct Hin as [->|Hin]; [lra|].
  assert (f x <= Py.sum (map f l))%R
    by (apply IH; [intros; apply Hnn; now right|exact Hin]).
  lra.
Qed.

Lemma sum_le_length (l : list R) :
  (forall x, In x l -> x <= 1)%R -> (Py.sum l <= INR (List.length l))%R.
Proof.
  induction l as [|x l IH]; intros H.
  - rewrite sum_nil. simpl. lra.
  - rewrite sum_cons. change (List.length (x :: l)) with (S (List.length l)).
    rewrite S_INR.
    assert (x <= 1)%R by (apply H; now left).
    assert (Py.sum l <= INR (List.length l))%R
      by (apply IH; intros; apply H; now right).
    lra.
Qed.

(** ** Item assignment *)

Lemma length_update_nth {A} (l : list A) (k : nat) (x : A) :
  List.length (update_nth l k x) = List.length l.
Proof.
  revert k. induction l as [|h l IH]; intros [|k]; simpl; auto.
Qed.

Lemma nth_error_update_nth_eq {A} (l : list A) (k : nat) (x : A) :
  (k < List.length l)%nat -> nth_error (update_nth l k x) k = Some x.
Proof.
  revert k. induction l as [|h l IH]; intros [|k] H; simpl in *; try lia.
  - reflexivity.
  - apply IH. lia.
Qed.

Lemma nth_error_update_nth_neq {A} (l : list A) (k j : nat) (x : A) :
  j <> k -> nth_error (update_nth l k x) j = nth_error l j.
Proof.
  revert k j. induction l as [|h l IH]; intros [|k] [|j] H; simpl; auto.
  congruence.
Qed.

Lemma sum_update_nth (l : list R) (k : nat) (x : R) :
  (k < List.length l)%nat ->
  Py.sum (update_nth l k x) = (Py.sum l - nth k l 0 + x)%R.
Proof.
  revert k. induction l as [|h l IH]; intros [|k] H; simpl in *; try lia.
  - rewrite !sum_cons. lra.
  - rewrite !sum_cons, IH by lia. lra.
Qed.

Lemma setitem_ok {A} (l : list A) (i : Z) (x : A) :
  (0 <= i < Z.of_nat (List.length l))%Z ->
  setitem l i x = Ok (update_nth l (Z.to_nat i) x).
Proof.
  intros H. unfold setitem.
  destruct (Z.ltb_spec i 0) as [H0|_]; [lia|].
  destruct (Z.ltb_spec i 0) as [H0|_]; [lia|].
  destruct (Z.leb_spec (Z.of_nat (List.length l)) i) as [H0|_]; [lia|].
  reflexivity.
Qed.

Lemma nth_of_nth_error {A} (l : list A) (k : nat) (x d : A) :
  nth_error l k = Some x -> nth k l d = x.
Proof.
  intros H. now apply nth_error_nth.
Qed.

(** ** The target policy of a self-play step *)

Lemma fill_counts_spec (cs : list SearchNode) :
  forall tp0 : list R,
    (forall c, In c cs -> (0 <= action c < Z.of_nat (List.length tp0))%Z) ->
    NoDup (map action cs) ->
    (forall c, In c cs -> nth (Z.to_nat (action c)) tp0 0%R = 0%R) ->
    exists tp,
      fill_counts tp0 cs = Ok tp
      /\ List.length tp = List.length tp0
      /\ (forall c, In c cs ->
            nth_error tp (Z.to_nat (action c)) = Some (IZR (explore_count c)))
      /\ (forall k, (forall c, In c cs -> Z.to_nat (action c) <> k) ->
            nth_error tp k = nth_error tp0 k)
      /\ Py.sum tp
         = (Py.sum tp0 + Py.sum (map (fun c => IZR (explore_count c)) cs))%R.
Proof.
  induction cs as [|c cs IH]; intros tp0 Hrange Hnd Hzero.
  - exists tp0. simpl. rewrite sum_nil. repeat split; auto; try lra.
    intros c [].
  - simpl in Hnd. inversion Hnd as [|? ? Hnotin Hnd']; subst.
    assert (Hc : (0 <= action c < Z.of_nat (List.length tp0))%Z)
      by (apply Hrange; now left).
    assert (Hk : (Z.to_nat (action c) < List.length tp0)%nat) by lia.
    assert (Hne : forall c', In c' cs ->
                             Z.to_nat (action c') <> Z.to_nat (action c)).
    { intros c' Hin E. apply Hnotin.
      assert (action c' = action c).
      { assert (0 <= action c')%Z by (apply Hrange; now right). lia. }
      rewrite <- H. now apply in_map. }
    set (tp1 := update_nth tp0 (Z.to_nat (action c)) (IZR (explore_count c))).
    destruct (IH tp1) as (tp & Hfill & Hlen & Hin & Hout & Hsum).
    + intros c' Hc'. unfold tp1. rewrite length_update_nth.
      apply Hrange. now right.
    + exact Hnd'.
    + intros c' Hc'. unfold tp1.
      erewrite nth_of_nth_error; [reflexivity|].
      rewrite nth_error_update_nth_neq by (now apply Hne).
      rewrite <- (Hzero c') by (now right).
      apply nth_error_nth'.
      assert (0 <= action c' < Z.of_nat (List.length tp0))%Z
        by (apply Hrange; now right). lia.
    + exists tp. simpl. rewrite (setitem_ok _ _ Hc). cbn [bind]. fold tp1.
      split; [exact Hfill|]. split.
      { rewrite Hlen. unfold tp1. apply length_update_nth. }
      split.
      { intros c' [->|Hc'].
        - rewrite Hout.
          + unfold tp1. now apply nth_error_update_nth_eq.
          + intros c'' Hc''. now apply Hne.
        - now apply Hin. }
      split.
      { intros k Hk'. rewrite Hout.
        - unfold tp1. apply nth_error_update_nth_neq.
          intros E. apply (Hk' c); [now left|now symmetry].
        - intros c' Hc'. apply Hk'. now right. }
      rewrite Hsum. unfold tp1. rewrite sum_update_nth by exact Hk.
      rewrite (Hzero c) by (now left). rewrite sum_cons. lra.
Qed.

Lemma sum_repeat_zero (n : nat) : Py.sum (repeat 0%R n) = 0%R.
Proof.
  induction n as [|n IH]; simpl.
  - apply sum_nil.
  - rewrite sum_cons, IH. lra.
Qed.

Lemma nth_repeat_zero (n k : nat) : nth k (repeat 0%R n) 0%R = 0%R.
Proof.
  revert k. induction n as [|n IH]; intros [|k]; simpl; auto.
Qed.

Lemma counts_sum_pos (cs : list SearchNode) :
  (forall c, In c cs -> (0 <= explore_count c)%Z) ->
  (exists c, In c cs /\ (0 < explore_count c)%Z) ->
  (0 < Py.sum (map (fun c => IZR (explore_count c)) cs))%R.
Proof.
  induction cs as [|c cs IH]; intros Hnn (c0 & Hin & Hpos).
  - destruct Hin.
  - simpl. rewrite sum_cons.
    assert (H0 : (0 <= IZR (explore_count c))%R).
    { apply IZR_le. apply Hnn. now left. }
    assert (H1 : (0 <= Py.sum (map (fun c => IZR (explore_count c)) cs))%R).
    { apply sum_nonneg. intros x Hx. apply in_map_iff in Hx.
      destruct Hx as (c' & <- & Hc'). apply IZR_le, Hnn. now right. }
    destruct Hin as [->|Hin].
    + apply IZR_lt in Hpos. lra.
    + assert (0 < Py.sum (map (fun c => IZR (explore_count c)) cs))%R.
      { apply IH; [intros; apply Hnn; now right|]. now exists c0. }
      lra.
Qed.

(** ** Self-play *)

Section SelfPlay.

Variables State World : Type.
Variable is_terminal : State -> bool.
Variable observation_tensor : State -> list R.
Variable history : State -> list Z.
Variable rewards : State -> list R.
Variable apply_action : State -> Z -> State.
Variable np_random_choice : list Float -> World -> Z * World.

Local Abbreviation select_action := (AlphaZero__select_action np_random_choice).
Local Abbreviation loop :=
  (play_loop is_terminal observation_tensor history apply_action
             np_random_choice).
Local Abbreviation self_play_single :=
  (AlphaZero__self_play_single is_terminal observation_tensor history rewards
                               apply_action np_random_choice).

Lemma step_target_policy_spec (g : Game State) (cs : list SearchNode) :
  well_formed_children g cs ->
  (exists c, In c cs /\ (0 < explore_count c)%Z) ->
  exists tp,
    step_target_policy g cs = Ok tp
    /\ List.length tp = Z.to_nat (num_distinct_actions g)
    /\ (forall a, (0 <= a < num_distinct_actions g)%Z ->
          ~ In a (map action cs) ->
          nth_error tp (Z.to_nat a) = Some 0%R)
    /\ (forall c, In c cs ->
          nth_error tp (Z.to_nat (action c))
          = Some (IZR (explore_count c)
                  / Py.sum (map (fun c' => IZR (explore_count c')) cs))%R)
    /\ Py.sum tp = 1%R.
Proof.
  intros (Hrange & Hnd & Hnn) Hpos.
  set (n := num_distinct_actions g) in *.
  assert (Hn : (0 <= n)%Z).
  { destruct Hpos as (c & Hc & _). specialize (Hrange c Hc). lia. }
  assert (Hs := counts_sum_pos cs Hnn Hpos).
  destruct (fill_counts_spec cs (repeat 0%R (Z.to_nat n)))
    as (raw & Hfill & Hlen & Hin & Hout & Hsum).
  { intros c Hc. rewrite repeat_length. specialize (Hrange c Hc). lia. }
  { exact Hnd. }
  { intros c Hc. apply nth_repeat_zero. }
  rewrite sum_repeat_zero, Rplus_0_l in Hsum.
  rewrite repeat_length in Hlen.
  exists (map (fun x => (x / Py.sum raw)%R) raw).
  unfold step_target_policy, np_zeros. fold n.
  destruct (Z.ltb_spec n 0) as [H|_]; [lia|]. cbn [bind].
  rewrite Hfill. cbn [bind].
  split; [reflexivity|]. split; [now rewrite length_map|]. split.
  { intros a Ha Hnotin. rewrite nth_error_map, Hout.
    - assert (E : nth_error (repeat 0%R (Z.to_nat n)) (Z.to_nat a) = Some 0%R).
      { rewrite <- (nth_repeat_zero (Z.to_nat n) (Z.to_nat a)) at 2.
        apply nth_error_nth'. rewrite repeat_length. lia. }
      rewrite E. cbn [option_map]. f_equal. rewrite Hsum. field. lra.
    - intros c Hc E. apply Hnotin.
      assert (action c = a).
      { specialize (Hrange c Hc). lia. }
      subst a. now apply in_map. }
  split.
  { intros c Hc. rewrite nth_error_map, (Hin c Hc). cbn [option_map].
    now rewrite Hsum. }
  rewrite sum_map_div. field. lra.
Qed.

(** C7: at a self-play step whose search root has well-formed children, one
    of them with a positive explore count, the vector recorded as the step's
    target policy (the one appended to [policy_target] by that iteration of
    the loop) ranges over the full action space, is 0 at every action-id
    that is not a child's, is the child's share of the explore counts at
    every child's action-id, and sums to 1. *)
Theorem target_policy_distribution :
  forall (self : AlphaZero State World) (state : State)
         (root : RootNode) (w w1 : World),
    is_terminal state = false ->
    mcts_search (bot self) state w = Ok (root, w1) ->
    well_formed_children (game self) (children root) ->
    (exists c, In c (children root) /\ (0 < explore_count c)%Z) ->
    exists tp : list R,
      step_target_policy (game self) (children root) = Ok tp
      /\ (forall fuel observations policy_target,
            loop (S fuel) self state observations policy_target w
            = match select_action self (children root)
                      (Z.of_nat (List.length (history state))) w1 with
              | Raise e => Some (Raise e)
              | Ok (a, w2) =>
                  loop fuel self (apply_action state a)
                       (observations ++ [observation_tensor state])
                       (policy_target ++ [tp]) w2
              end)
      /\ List.length tp = Z.to_nat (num_distinct_actions (game self))
      /\ (forall a, (0 <= a < num_distinct_actions (game self))%Z ->
            ~ In a (map action (children root)) ->
            nth_error tp (Z.to_nat a) = Some 0%R)
      /\ (forall c, In c (children root) ->
            nth_error tp (Z.to_nat (action c))
            = Some (IZR (explore_count c)
                    / Py.sum (map (fun c' => IZR (explore_count c'))
                                  (children root)))%R)
      /\ Py.sum tp = 1%R.
Proof.
  intros self state root w w1 Hterm Hsearch Hwf Hpos.
  destruct (step_target_policy_spec Hwf Hpos)
    as (tp & Htp & Hlen & Hzero & Hshare & Hsum).
  exists tp. split; [exact Htp|]. split; [|now repeat split].
  intros fuel observations policy_target.
  cbn [play_loop]. rewrite Hterm, Hsearch, Htp. reflexivity.
Qed.

Lemma play_loop_result (fuel : nat) :
  forall (self : AlphaZero State World) (state : State)
         (observations policy_target : list (list R)) (w : World)
         sT obs pols w',
    loop fuel self state observations policy_target w
    = Some (Ok (sT, obs, pols, w')) ->
    List.length observations = List.length policy_target ->
    is_terminal sT = true /\ List.length obs = List.length pols.
Proof.
  induction fuel as [|fuel IH]; intros self state observations policy_target w
    sT obs pols w' H Hlen; cbn [play_loop] in H; [discriminate H|].
  destruct (is_terminal state) eqn:Ht.
  - inversion H; subst. split; [exact Ht|exact Hlen].
  - destruct (mcts_search (bot self) state w) as [[root w1]|e];
      [|discriminate H].
    destruct (step_target_policy (game self) (children root)) as [tp|e];
      [|discriminate H].
    destruct (select_action self (children root) _ w1) as [[a w2]|e];
      [|discriminate H].
    apply IH in H; [exact H|].
    rewrite !length_app. simpl. lia.
Qed.

Lemma emit_spec (steps : list (list R * list R)) (terminal_rewards : list R) :
  forall (i : nat) (b b' : ReplayBuffer),
    emit i steps terminal_rewards b = Ok b' ->
    exists ts : list MCTSResult,
      List.length ts = List.length steps
      /\ b' = fold_left ReplayBuffer_add ts b
      /\ forall j t, nth_error ts j = Some t ->
           nth_error steps j = Some (observation t, target_policy t)
           /\ getitem terminal_rewards (Z.of_nat (i + j) mod 2)
              = Ok (target_value t).
Proof.
  induction steps as [|[obs pol] steps IH]; intros i b b' H; simpl in H.
  - inversion H; subst. exists [].
    split; [reflexivity|]. split; [reflexivity|].
    intros [|j] t Hj; discriminate Hj.
  - destruct (getitem terminal_rewards (Z.of_nat i mod 2)) as [v|e] eqn:Ev;
      cbn [bind] in H; [|discriminate H].
    apply IH in H. destruct H as (ts & Hlen & Hb & Hts).
    exists ({| observation := obs; target_value := v; target_policy := pol |}
            :: ts).
    split; [simpl; now rewrite Hlen|]. split; [exact Hb|].
    intros [|j] t Hj; simpl in Hj.
    + inversion Hj; subst. simpl. rewrite Nat.add_0_r. now split.
    + destruct (Hts j t Hj) as [H1 H2]. split; [exact H1|].
      replace (i + S j)%nat with (S i + j)%nat by lia. exact H2.
Qed.

(** C2: in every completed self-play episode one Transition is emitted per
    recorded step, in play order, and the Transition of step [i] carries that
    step's observation and target policy and the target value
    [terminal_rewards[i mod 2]], where the rewards are those of the terminal
    state the episode ended in; the player who moved at step [i] does not
    enter. *)
Theorem self_play_target_values :
  forall (fuel : nat) (self self' : AlphaZero State World) (w w' : World),
    self_play_single fuel self w = Some (Ok (self', w')) ->
    exists (sT : State) (obs pols : list (list R)) (ts : list MCTSResult),
      loop fuel self (new_initial_state (game self)) [] [] w
      = Some (Ok (sT, obs, pols, w'))
      /\ is_terminal sT = true
      /\ List.length obs = List.length pols
      /\ List.length ts = List.length obs
      /\ buffer self' = fold_left ReplayBuffer_add ts (buffer self)
      /\ forall i t, nth_error ts i = Some t ->
           nth_error obs i = Some (observation t)
           /\ nth_error pols i = Some (target_policy t)
           /\ getitem (rewards sT) (Z.of_nat i mod 2) = Ok (target_value t)
           /\ nth_error (rewards sT) (i mod 2) = Some (target_value t).
Proof.
  intros fuel self self' w w' H.
  unfold AlphaZero__self_play_single in H.
  destruct (loop fuel self (new_initial_state (game self)) [] [] w)
    as [[[[[sT obs] pols] w1]|e]|] eqn:El; try discriminate H.
  destruct (emit 0 (combine obs pols) (rewards sT) (buffer self))
    as [b|e] eqn:Ee; [|discriminate H].
  inversion H; subst self' w'. clear H.
  destruct (play_loop_result _ _ _ _ _ _ El eq_refl) as [Hterm Hlen].
  destruct (emit_spec _ _ _ _ Ee) as (ts & Hts & Hb & Hi).
  exists sT, obs, pols, ts.
  split; [reflexivity|]. split; [exact Hterm|]. split; [exact Hlen|].
  split; [rewrite Hts, length_combine; lia|]. split; [exact Hb|].
  intros i t Hn. destruct (Hi i t Hn) as [Hc Hg]. simpl in Hg.
  assert (Hsplit : nth_error obs i = Some (observation t)
                   /\ nth_error pols i = Some (target_policy t)).
  { clear - Hc. revert pols i Hc.
    induction obs as [|o obs IH]; intros [|p pols] [|i] Hc; simpl in *;
      try discriminate Hc.
    - inversion Hc. now split.
    - now apply IH. }
  destruct Hsplit as [Ho Hp]. repeat split; auto.
  unfold getitem in Hg.
  assert (Hm : (0 <= Z.of_nat i mod 2 < 2)%Z) by (apply Z.mod_pos_bound; lia).
  destruct (Z.ltb_spec (Z.of_nat i mod 2) 0) as [H0|_]; [lia|].
  destruct ((Z.of_nat i mod 2 <? 0)%Z
            || (Z.of_nat (List.length (rewards sT)) <=? Z.of_nat i mod 2)%Z);
    [discriminate Hg|].
  replace (Z.to_nat (Z.of_nat i mod 2)) with (i mod 2)%nat in Hg.
  - destruct (nth_error (rewards sT) (i mod 2)); [now inversion Hg|discriminate Hg].
  - change 2%Z with (Z.of_nat 2). rewrite <- Nat2Z.inj_mod. now rewrite Nat2Z.id.
Qed.

(** *** Action selection *)

Lemma fold_left_Rmax_spec (t : list R) :
  forall h : R,
    In (fold_left Rmax t h) (h :: t)
    /\ forall x, In x (h :: t) -> (x <= fold_left Rmax t h)%R.
Proof.
  induction t as [|y t IH]; intros h; simpl.
  - split; [now left|]. intros x [->|[]]. lra.
  - destruct (IH (Rmax h y)) as [Hin Hle]. split.
    + destruct Hin as [E|Hin]; [|now right; right].
      rewrite <- E. apply Rmax_case; [now left|right; now left].
    + intros x [->|[->|Hx]].
      * eapply Rle_trans; [apply Rmax_l|]. apply Hle. now left.
      * eapply Rle_trans; [apply Rmax_r|]. apply Hle. now left.
      * apply Hle. now right.
Qed.

Lemma exp_sum_pos (l : list R) : l <> [] -> (0 < Py.sum (map exp l))%R.
Proof.
  intros Hl. apply sum_pos.
  - destruct l; [congruence|discriminate].
  - intros x Hx. apply in_map_iff in Hx. destruct Hx as (y & <- & _).
    apply exp_pos.
Qed.

Lemma softmax_shift (l : list R) (m x : R) :
  l <> [] ->
  (exp (x - m) / Py.sum (map (fun y => exp (y - m)) l))%R
  = (exp x / Py.sum (map exp l))%R.
Proof.
  intros Hl.
  assert (Hs := exp_sum_pos Hl). assert (Hm := exp_pos (- m)).
  rewrite (sum_map_ext (fun y => exp (y - m)) (fun y => exp y * exp (- m))%R)
    by (intros y _; unfold Rminus; apply exp_plus).
  rewrite (sum_map_scale exp (exp (- m)) l).
  unfold Rminus. rewrite exp_plus. field. split; lra.
Qed.

Lemma pow2_ge_1 (n : nat) : (1 <= 2 ^ n)%R.
Proof. apply pow_R1_Rle. lra. Qed.

Lemma float_overflow_gt_1 : (1 < float_overflow)%R.
Proof.
  unfold float_overflow.
  assert (H53 := pow2_ge_1 53). assert (H := pow2_ge_1 1022).
  assert (Hi : (0 < / 2 ^ 53 <= 1)%R).
  { split; [apply Rinv_0_lt_compat; lra|].
    rewrite <- Rinv_1. apply Rinv_le_contravar; lra. }
  change (2 ^ 1023)%R with (2 * 2 ^ 1022)%R.
  set (a := (2 ^ 1022)%R) in *. set (b := (/ 2 ^ 53)%R) in *.
  clearbody a b. nra.
Qed.

Lemma float_underflow_bounds : (0 < float_underflow < 1)%R.
Proof.
  unfold float_underflow. assert (H := pow2_ge_1 1074).
  change (2 ^ 1075)%R with (2 * 2 ^ 1074)%R.
  set (a := (2 ^ 1074)%R) in *. clearbody a.
  split; [apply Rinv_0_lt_compat; lra|].
  rewrite <- Rinv_1. apply Rinv_lt_contravar; lra.
Qed.

Lemma exp_le (x y : R) : (x <= y)%R -> (exp x <= exp y)%R.
Proof.
  intros [H| ->]; [apply Rlt_le, exp_increasing, H|lra].
Qed.

Lemma np_exp_nonpos (x : R) : (x <= 0)%R -> np_exp x = Fin (exp_or_zero x).
Proof.
  intros Hx. unfold np_exp, exp_or_zero.
  assert (H1 := exp_le Hx). rewrite exp_0 in H1.
  assert (H2 := float_overflow_gt_1).
  destruct (Rle_dec float_overflow (exp x)) as [H|_]; [lra|].
  now destruct (Rle_dec (exp x) float_underflow).
Qed.

Lemma exp_or_zero_0 : exp_or_zero 0 = 1%R.
Proof.
  unfold exp_or_zero. rewrite exp_0.
  destruct (Rle_dec 1 float_underflow) as [H|_]; [|reflexivity].
  destruct float_underflow_bounds. lra.
Qed.

Lemma exp_or_zero_bounds (x : R) :
  (x <= 0)%R -> (0 <= exp_or_zero x <= 1)%R.
Proof.
  intros Hx. unfold exp_or_zero.
  assert (H1 := exp_le Hx). rewrite exp_0 in H1. assert (H0 := exp_pos x).
  destruct (Rle_dec (exp x) float_underflow); lra.
Qed.

Lemma exp_or_zero_le (x y : R) :
  (x <= y)%R -> (exp_or_zero x <= exp_or_zero y)%R.
Proof.
  intros Hxy. unfold exp_or_zero. assert (H := exp_le Hxy).
  assert (H0 := exp_pos y).
  destruct (Rle_dec (exp x) float_underflow),
    (Rle_dec (exp y) float_underflow); lra.
Qed.

Lemma exp_or_zero_exact (x : R) :
  (float_underflow < exp x)%R -> exp_or_zero x = exp x.
Proof.
  intros H. unfold exp_or_zero.
  destruct (Rle_dec (exp x) float_underflow); [lra|reflexivity].
Qed.

Lemma exp_INR (n : nat) : exp (INR n) = (exp 1 ^ n)%R.
Proof.
  induction n as [|n IH].
  - simpl. apply exp_0.
  - rewrite S_INR, exp_plus, IH. simpl. ring.
Qed.

Lemma exp_600_small : (exp 600 < 2 ^ 1075)%R.
Proof.
  replace 600%R with (INR 600) by (rewrite INR_IZR_INZ; reflexivity).
  rewrite exp_INR.
  apply Rle_lt_trans with (3 ^ 600)%R.
  { apply pow_incr. split; [apply Rlt_le, exp_pos|apply exp_le_3]. }
  apply Rle_lt_trans with (2 ^ 960)%R; [|apply Rlt_pow; [lra|lia]].
  change (2 ^ 960)%R with (2 ^ (8 * 120))%R.
  change (3 ^ 600)%R with (3 ^ (5 * 120))%R.
  rewrite !pow_mult. apply pow_incr. simpl. lra.
Qed.

Lemma exp_above_underflow (x : R) :
  (- (600) <= x)%R -> (float_underflow < exp x)%R.
Proof.
  intros Hx. apply Rlt_le_trans with (exp (Ropp 600)); [|now apply exp_le].
  rewrite exp_Ropp. unfold float_underflow.
  apply Rinv_0_lt_contravar; [apply exp_pos|apply exp_600_small].
Qed.

Lemma fold_float_add_fin (es : list R) :
  forall a : R,
    fold_left float_add (map Fin es) (Fin a) = Fin (fold_left Rplus es a).
Proof.
  induction es as [|e es IH]; intros a; [reflexivity|]. simpl. apply IH.
Qed.

Lemma np_sum_fin (es : list R) : np_sum (map Fin es) = Fin (Py.sum es).
Proof. apply fold_float_add_fin. Qed.

Lemma float_div_fin (e s : R) :
  s <> 0%R -> float_div (Fin e) (Fin s) = Fin (e / s).
Proof.
  intros Hs. unfold float_div. now destruct (Req_dec_T s 0).
Qed.

Lemma np_softmax_spec (logits : list R) :
  logits <> [] ->
  exists m : R,
    In m logits
    /\ (forall x, In x logits -> (x <= m)%R)
    /\ map (fun x => np_exp (x - m)) logits
       = map (fun x => Fin (exp_or_zero (x - m))) logits
    /\ (1 <= Py.sum (map (fun y => exp_or_zero (y - m)) logits)
        <= INR (List.length logits))%R
    /\ np_softmax logits
       = Ok (map (fun x =>
                    Fin (exp_or_zero (x - m)
                         / Py.sum (map (fun y => exp_or_zero (y - m)) logits)))
                 logits).
Proof.
  intros Hl. destruct logits as [|h t]; [congruence|].
  destruct (fold_left_Rmax_spec t h) as [Hin Hle].
  set (m := fold_left Rmax t h) in *.
  assert (He : map (fun x => np_exp (x - m)) (h :: t)
               = map (fun x => Fin (exp_or_zero (x - m))) (h :: t)).
  { apply map_ext_in. intros x Hx. apply np_exp_nonpos.
    specialize (Hle x Hx). lra. }
  assert (Hs : (1 <= Py.sum (map (fun y => exp_or_zero (y - m)) (h :: t))
                <= INR (List.length (h :: t)))%R).
  { split.
    - replace 1%R with (exp_or_zero (m - m))
        by (rewrite Rminus_diag; apply exp_or_zero_0).
      apply (sum_ge_member (fun x => exp_or_zero (x - m))); [|exact Hin].
      intros y Hy. apply exp_or_zero_bounds. specialize (Hle y Hy). lra.
    - rewrite <- (length_map (fun x => exp_or_zero (x - m)) (h :: t)).
      apply sum_le_length. intros e Hi. apply in_map_iff in Hi.
      destruct Hi as (x & <- & Hx). apply exp_or_zero_bounds.
      specialize (Hle x Hx). lra. }
  exists m. split; [exact Hin|]. split; [exact Hle|].
  split; [exact He|]. split; [exact Hs|].
  unfold np_softmax. cbn [np_amax bind]. fold m. rewrite He.
  rewrite <- (map_map (fun x => exp_or_zero (x - m)) Fin), np_sum_fin.
  rewrite !map_map. f_equal. apply map_ext. intros x.
  apply float_div_fin. lra.
Qed.

Lemma np_softmax_is_distribution (logits : list R) (m : R) :
  (forall x, In x logits -> (x <= m)%R) ->
  (1 <= Py.sum (map (fun y => exp_or_zero (y - m)) logits))%R ->
  Py.sum (map (fun x => exp_or_zero (x - m)
                        / Py.sum (map (fun y => exp_or_zero (y - m)) logits))%R
              logits) = 1%R
  /\ forall p,
       In p (map (fun x => exp_or_zero (x - m)
                           / Py.sum (map (fun y => exp_or_zero (y - m)) logits))%R
                 logits) ->
       (0 <= p <= 1)%R.
Proof.
  intros Hle Hs. split.
  - rewrite <- (map_map (fun x => exp_or_zero (x - m))
                        (fun e => e / Py.sum (map (fun y => exp_or_zero (y - m))
                                                  logits))%R).
    rewrite sum_map_div. field. lra.
  - intros p Hp. apply in_map_iff in Hp. destruct Hp as (x & <- & Hx).
    assert (Hb : (0 <= exp_or_zero (x - m) <= 1)%R).
    { apply exp_or_zero_bounds. specialize (Hle x Hx). lra. }
    set (s := Py.sum (map (fun y => exp_or_zero (y - m)) logits)) in *.
    assert (Hi : (0 < / s <= 1)%R).
    { split; [apply Rinv_0_lt_compat; lra|].
      rewrite <- Rinv_1. apply Rinv_le_contravar; lra. }
    unfold Rdiv. clearbody s. nra.
Qed.

Lemma softmax_without_underflow (logits : list R) (m : R) :
  logits <> [] ->
  (forall x, In x logits -> (float_underflow < exp (x - m))%R) ->
  map (fun x => exp_or_zero (x - m)
                / Py.sum (map (fun y => exp_or_zero (y - m)) logits))%R logits
  = map (fun x => exp x / Py.sum (map exp logits))%R logits.
Proof.
  intros Hl Hu.
  rewrite (sum_map_ext (fun y => exp_or_zero (y - m))
                       (fun y => exp (y - m))).
  - apply map_ext_in. intros x Hx.
    rewrite (exp_or_zero_exact _ (Hu x Hx)). now apply softmax_shift.
  - intros y Hy. apply exp_or_zero_exact, Hu, Hy.
Qed.

Lemma tuple_ltb_false (a b : Z * Z) : tuple_ltb a b = false <-> tuple_le b a.
Proof.
  unfold tuple_ltb, tuple_le.
  destruct (Z.ltb_spec (fst a) (fst b)), (Z.eqb_spec (fst a) (fst b)),
    (Z.ltb_spec (snd a) (snd b)); simpl; split; intros; try discriminate;
    try reflexivity; lia.
Qed.

Lemma max_fold_spec (t : list (Z * Z)) :
  forall h : Z * Z,
    In (fold_left (fun m x => if tuple_ltb m x then x else m) t h) (h :: t)
    /\ forall x, In x (h :: t) ->
         tuple_le x (fold_left (fun m x => if tuple_ltb m x then x else m) t h).
Proof.
  induction t as [|y t IH]; intros h; cbn [fold_left].
  - split; [now left|]. intros x [->|[]]. unfold tuple_le. lia.
  - destruct (IH (if tuple_ltb h y then y else h)) as [Hin Hle]. split.
    + destruct Hin as [E|Hin]; [|now right; right].
      rewrite <- E. destruct (tuple_ltb h y); [right; now left|now left].
    + assert (Hs : tuple_le h (if tuple_ltb h y then y else h)
                   /\ tuple_le y (if tuple_ltb h y then y else h)).
      { destruct (tuple_ltb h y) eqn:E.
        - unfold tuple_ltb in E. unfold tuple_le.
          destruct (Z.ltb_spec (fst h) (fst y)), (Z.eqb_spec (fst h) (fst y)),
            (Z.ltb_spec (snd h) (snd y)); simpl in E; try discriminate E;
            split; lia.
        - apply tuple_ltb_false in E. split; [unfold tuple_le; lia|exact E]. }
      destruct Hs as [Hh Hy].
      assert (Hm := Hle _ (or_introl eq_refl)).
      intros x [->|[->|Hx]].
      * unfold tuple_le in *. lia.
      * unfold tuple_le in *. lia.
      * apply Hle. now right.
Qed.

(** C6: for a non-empty list of children.  Below the transition threshold
    the index of the played child is drawn by [np.random.choice] with the
    probabilities [np_softmax] computes from the raw explore counts.  The
    greatest count is subtracted before exponentiating, so no exponential
    overflows: whatever the counts, every probability is a finite number
    between 0 and 1 (0 where the exponential underflows), the probabilities
    sum to 1, and where no count lies more than 600 below the greatest they
    are the softmax of the counts.  At or above the threshold nothing is drawn: the played action is
    that of a child whose pair (explore_count, action) is the greatest, so
    among the children with the greatest explore count the one with the
    largest action-id. *)
Theorem select_action_spec :
  forall (self : AlphaZero State World) (cs : list SearchNode)
         (game_history_len : Z) (w : World),
    cs <> [] ->
    ((game_history_len < _action_selection_transition self)%Z ->
     exists (m : R) (probs : list R),
       (exists c, In c cs /\ m = IZR (explore_count c))
       /\ (forall c, In c cs -> (IZR (explore_count c) <= m)%R)
       /\ np_softmax (map (fun c => IZR (explore_count c)) cs)
          = Ok (map Fin probs)
       /\ probs
          = map (fun c =>
                   exp_or_zero (IZR (explore_count c) - m)
                   / Py.sum (map (fun c' =>
                                    exp_or_zero (IZR (explore_count c') - m))
                                 cs))%R
                cs
       /\ ((forall c, In c cs -> (m - IZR (explore_count c) <= 600)%R) ->
           probs
           = map (fun c =>
                    exp (IZR (explore_count c))
                    / Py.sum (map (fun c' => exp (IZR (explore_count c'))) cs))%R
                 cs)
       /\ Py.sum probs = 1%R
       /\ (forall p, In p probs -> (0 <= p <= 1)%R)
       /\ select_action self cs game_history_len w
          = (a <- getitem (map action cs)
                    (fst (np_random_choice (map Fin probs) w)) ;;
             Ok (a, snd (np_random_choice (map Fin probs) w))))
    /\ ((_action_selection_transition self <= game_history_len)%Z ->
        exists c,
          In c cs
          /\ select_action self cs game_history_len w = Ok (action c, w)
          /\ forall c', In c' cs ->
               (explore_count c' < explore_count c)%Z
               \/ (explore_count c' = explore_count c
                   /\ (action c' <= action c)%Z)).
Proof.
  intros self cs hl w Hcs. split.
  - intros Hlt.
    set (counts := map (fun c => IZR (explore_count c)) cs).
    assert (Hne : counts <> []).
    { unfold counts. destruct cs; [congruence|discriminate]. }
    destruct (np_softmax_spec Hne) as (m & Hin & Hle & _ & Hs & E).
    destruct (@np_softmax_is_distribution counts m Hle (proj1 Hs))
      as [Hsum Hrange].
    exists m,
      (map (fun x => exp_or_zero (x - m)
                     / Py.sum (map (fun y => exp_or_zero (y - m)) counts))%R
           counts).
    split.
    { unfold counts in Hin. apply in_map_iff in Hin.
      destruct Hin as (c & <- & Hc). now exists c. }
    split.
    { intros c Hc. apply Hle. unfold counts. apply in_map_iff.
      exists c. now split. }
    split.
    { rewrite E, map_map. reflexivity. }
    split.
    { unfold counts. rewrite !map_map. reflexivity. }
    split.
    { intros Hu. rewrite (@softmax_without_underflow counts m Hne).
      - unfold counts. rewrite !map_map. reflexivity.
      - intros x Hx. unfold counts in Hx. apply in_map_iff in Hx.
        destruct Hx as (c & <- & Hc). apply exp_above_underflow.
        specialize (Hu c Hc). lra. }
    split; [exact Hsum|]. split; [exact Hrange|].
    unfold AlphaZero__select_action.
    destruct (Z.ltb_spec hl (_action_selection_transition self)) as [_|Hge];
      [|lia].
    rewrite map_map. cbn [fst]. fold counts. rewrite E. cbn [bind].
    rewrite map_map.
    destruct (np_random_choice _ w) as [i w1]. cbn [fst snd].
    rewrite !getitem_map. now destruct (getitem cs i).
  - intros Hge. unfold AlphaZero__select_action.
    destruct (Z.ltb_spec hl (_action_selection_transition self)) as [Hlt|_];
      [lia|].
    destruct cs as [|c0 cs]; [congruence|]. cbn [map max_pairs bind].
    destruct (max_fold_spec
                (map (fun child => (explore_count child, action child)) cs)
                (explore_count c0, action c0)) as [Hin Hmax].
    change ((explore_count c0, action c0)
            :: map (fun child => (explore_count child, action child)) cs)
      with (map (fun child => (explore_count child, action child)) (c0 :: cs))
      in Hin, Hmax.
    apply in_map_iff in Hin. destruct Hin as (c & Ec & Hc).
    exists c. split; [exact Hc|]. rewrite <- Ec. cbn [snd].
    split; [reflexivity|].
    intros c' Hc'.
    assert (H := Hmax (explore_count c', action c')
                      (in_map (fun child => (explore_count child, action child))
                              _ _ Hc')).
    rewrite <- Ec in H. unfold tuple_le in H. simpl in H. exact H.
Qed.

End SelfPlay.

Lemma toy_children_well_formed :
  well_formed_children Toy.game (children Toy.root).
Proof.
  unfold well_formed_children. simpl. split; [|split].
  - intros c [<-|[<-|[]]]; simpl; lia.
  - repeat constructor; simpl; intuition discriminate.
  - intros c [<-|[<-|[]]]; simpl; lia.
Qed.

Lemma toy_children_visited :
  exists c, In c (children Toy.root) /\ (0 < explore_count c)%Z.
Proof.
  eexists. split; [left; reflexivity|]. simpl. lia.
Qed.

Lemma target_policy_distribution_witness :
  (Toy.is_terminal [] = false
   /\ mcts_search (bot Toy.controller) [] 0%nat = Ok (Toy.root, 0%nat)
   /\ well_formed_children (game Toy.controller) (children Toy.root))
  /\ exists tp : list R,
       step_target_policy (game Toy.controller) (children Toy.root) = Ok tp
       /\ List.length tp = 2%nat
       /\ Py.sum tp = 1%R.
Proof.
  split; [split; [reflexivity|split; [reflexivity|]];
          exact toy_children_well_formed|].
  destruct (@target_policy_distribution Toy.State Toy.World Toy.is_terminal
              Toy.observation_tensor Toy.history Toy.apply_action
              Toy.np_random_choice Toy.controller [] Toy.root 0%nat 0%nat
              eq_refl eq_refl toy_children_well_formed toy_children_visited)
    as (tp & Htp & _ & Hlen & _ & _ & Hsum).
  exists tp. split; [exact Htp|]. split; [exact Hlen|exact Hsum].
Defined.

Lemma self_play_target_values_witness :
  exists (self' : AlphaZero Toy.State Toy.World) (w' : Toy.World),
    AlphaZero__self_play_single Toy.is_terminal Toy.observation_tensor
      Toy.history Toy.rewards Toy.apply_action Toy.np_random_choice
      3 Toy.controller 0%nat = Some (Ok (self', w'))
    /\ exists (sT : Toy.State) (ts : list MCTSResult),
         Toy.is_terminal sT = true
         /\ buffer self' = fold_left ReplayBuffer_add ts
                                     (buffer Toy.controller)
         /\ forall i t, nth_error ts i = Some t ->
              nth_error (Toy.rewards sT) (i mod 2) = Some (target_value t).
Proof.
  eexists. eexists. split; [reflexivity|].
  destruct (@self_play_target_values Toy.State Toy.World Toy.is_terminal
              Toy.observation_tensor Toy.history Toy.rewards Toy.apply_action
              Toy.np_random_choice 3 Toy.controller _ 0%nat _ eq_refl)
    as (sT & obs & pols & ts & _ & Hterm & _ & _ & Hb & Hts).
  exists sT, ts. split; [exact Hterm|]. split; [exact Hb|].
  intros i t Hn. apply (Hts i t Hn).
Defined.

Lemma select_action_spec_witness :
  children Toy.busy_root <> []
  /\ (exists probs : list R,
         np_softmax (map (fun c => IZR (explore_count c))
                         (children Toy.busy_root)) = Ok (map Fin probs)
         /\ Py.sum probs = 1%R
         /\ (forall p, In p probs -> (0 <= p <= 1)%R)
         /\ AlphaZero__select_action Toy.draw_first Toy.sampling_controller
              (children Toy.busy_root) 0 0%nat = Ok (0%Z, 1%nat))
  /\ AlphaZero__select_action Toy.draw_first Toy.sampling_controller
       (children Toy.busy_root) 1 0%nat = Ok (1%Z, 0%nat).
Proof.
  assert (Hne : children Toy.busy_root <> []) by discriminate.
  split; [exact Hne|]. split.
  - destruct (proj1 (@select_action_spec Toy.State Toy.World Toy.draw_first
                       Toy.sampling_controller (children Toy.busy_root)
                       0%Z 0%nat Hne) eq_refl)
      as (m & probs & _ & _ & E & _ & _ & Hsum & Hrange & Hsel).
    exists probs. split; [exact E|]. split; [exact Hsum|].
    split; [exact Hrange|]. rewrite Hsel. reflexivity.
  - destruct (proj2 (@select_action_spec Toy.State Toy.World Toy.draw_first
                       Toy.sampling_controller (children Toy.busy_root)
                       1%Z 0%nat Hne)) as (c & Hc & Hsel & Hmax).
    { simpl. lia. }
    rewrite Hsel.
    assert (H1 := Hmax _ (or_intror (or_introl eq_refl))).
    destruct Hc as [<-|[<-|[<-|[]]]]; simpl in H1; solve [reflexivity|lia].
Defined.

(** ** Training rounds *)

Section Training.

Variables State World RandomState : Type.
Variable is_terminal : State -> bool.
Variable observation_tensor : State -> list R.
Variable history : State -> list Z.
Variable rewards : State -> list R.
Variable apply_action : State -> Z -> State.
Variable np_random_choice : list Float -> World -> Z * World.
Variable random_below : nat -> World -> nat * World.

Local Abbreviation self_play :=
  (AlphaZero_self_play is_terminal observation_tensor history rewards
                       apply_action np_random_choice).

Lemma draw_spec (its : list MCTSResult) (d : MCTSResult) (n : nat) :
  its <> [] ->
  forall w : World,
    List.length (fst (draw random_below its d n w)) = n
    /\ forall t, In t (fst (draw random_below its d n w)) -> In t its.
Proof.
  intros Hne. induction n as [|n IH]; intros w; simpl.
  - split; [reflexivity|]. intros t [].
  - destruct (random_below (List.length its) w) as [i w1].
    specialize (IH w1).
    destruct (draw random_below its d n w1) as [rest w2]. simpl in *.
    destruct IH as [Hlen Hin]. split; [now rewrite Hlen|].
    intros t [<-|Ht]; [|now apply Hin].
    apply nth_In. apply Nat.mod_upper_bound.
    destruct its; [congruence|discriminate].
Qed.

Lemma self_play_games_frame (fuel n : nat) :
  forall (self self1 : AlphaZero State World) (w w1 : World),
    self_play_games is_terminal observation_tensor history rewards
      apply_action np_random_choice fuel n self w = Some (Ok (self1, w1)) ->
    self1 = set_buffer self (buffer self1).
Proof.
  induction n as [|n IH]; intros self self1 w w1 H; simpl in H.
  - inversion H; subst. now destruct self1.
  - destruct (AlphaZero__self_play_single is_terminal observation_tensor
                history rewards apply_action np_random_choice fuel self w)
      as [[[self2 w2]|e]|] eqn:E; try discriminate H.
    apply IH in H. rewrite H.
    unfold AlphaZero__self_play_single in E.
    destruct (play_loop _ _ _ _ _ _ _ _ _ _ _) as [[[[[sT obs] pols] w3]|e]|];
      try discriminate E.
    destruct (emit _ _ _ _) as [b|e]; [|discriminate E].
    inversion E; subst. reflexivity.
Qed.

(** The two phases of a round, as the controller's methods have them: a
    self-play phase, which changes nothing of the controller but its replay
    buffer, and an update step, which samples a batch of size batch_size
    with replacement from the replay buffer, calls the evaluator's update
    once with that batch and returns its LossReport.  The constructor
    gives the same object for every num_training_rounds. *)
Theorem update_samples_and_trains :
  forall (self : AlphaZero State World) (w : World),
    items (buffer self) <> [] ->
    (exists (data : list MCTSResult) (w1 : World),
        ReplayBuffer_sample random_below (buffer self) (batch_size self) w
        = Ok (data, w1)
        /\ List.length data = Z.to_nat (batch_size self)
        /\ (forall t, In t data -> In t (items (buffer self)))
        /\ AlphaZero_update random_below self w
           = evaluator_update (evaluator (bot self)) data w1)
    /\ (forall fuel self1 w1,
           self_play fuel self w = Some (Ok (self1, w1)) ->
           self1 = set_buffer self (buffer self1))
    /\ (forall (g : Game State) (b : MCTSBot State World)
               (cap ast nspg bs ntr1 ntr2 : Z) (rs : option RandomState),
           AlphaZero_init g b cap ast nspg ntr1 bs rs
           = AlphaZero_init g b cap ast nspg ntr2 bs rs).
Proof.
  intros self w Hne. split; [|split].
  - unfold AlphaZero_update, ReplayBuffer_sample.
    destruct (items (buffer self)) as [|d its] eqn:Ei; [congruence|].
    rewrite <- Ei in *.
    destruct (draw_spec d (Z.to_nat (batch_size self)) Hne w) as [Hlen Hin].
    destruct (draw random_below (items (buffer self)) d
                   (Z.to_nat (batch_size self)) w) as [data w1] eqn:Ed.
    simpl in Hlen, Hin. exists data, w1.
    split; [reflexivity|]. split; [exact Hlen|]. split; [exact Hin|].
    cbn [bind].
    destruct (evaluator_update (evaluator (bot self)) data w1) as [[lv w2]|e];
      cbn [bind]; [|reflexivity].
    now destruct lv.
  - intros fuel self1 w1 H. unfold AlphaZero_self_play in H.
    now apply self_play_games_frame in H.
  - reflexivity.
Qed.

End Training.

Lemma update_samples_and_trains_witness :
  items (buffer Toy.seeded_controller) <> []
  /\ exists (data : list MCTSResult) (w1 : Toy.World),
       ReplayBuffer_sample Toy.random_below (buffer Toy.seeded_controller)
         (batch_size Toy.seeded_controller) 0%nat = Ok (data, w1)
       /\ List.length data = 2%nat
       /\ AlphaZero_update Toy.random_below Toy.seeded_controller 0%nat
          = Ok (Toy.losses, 1%nat).
Proof.
  assert (Hne : items (buffer Toy.seeded_controller) <> []) by discriminate.
  split; [exact Hne|].
  destruct (@update_samples_and_trains Toy.State Toy.World unit
              Toy.is_terminal Toy.observation_tensor Toy.history Toy.rewards
              Toy.apply_action Toy.np_random_choice Toy.random_below
              Toy.seeded_controller 0%nat Hne)
    as [(data & w1 & Hs & Hlen & _ & Hu) _].
  exists data, w1. split; [exact Hs|]. split; [exact Hlen|].
  rewrite Hu. inversion Hs. reflexivity.
Defined.

(** C3: the rounds are not run.  The constructor documents
    num_training_rounds as the number of rounds of alternating training and
    self-play, but drops the argument: the controller constructed with
    num_training_rounds = 3 is the controller constructed with
    num_training_rounds = 0, and no method iterates.  One self-play phase
    (one game, leaving one transition in the buffer) followed by one update
    calls the evaluator's update once (the world counts the calls), where
    three rounds would call it three times. *)
Lemma num_training_rounds_not_iterated :
  AlphaZero_init Toy.game Toy.bot 10 0 1 3 2 (@None unit)
  = AlphaZero_init Toy.game Toy.bot 10 0 1 0 2 (@None unit)
  /\ exists (self0 self1 : AlphaZero Toy.State Toy.World) (lv : LossValues),
       AlphaZero_init Toy.game Toy.bot 10 0 1 3 2 (@None unit) = Ok self0
       /\ AlphaZero_self_play Toy.is_terminal Toy.observation_tensor
            Toy.history Toy.rewards Toy.apply_action Toy.np_random_choice
            3 self0 0%nat = Some (Ok (self1, 0%nat))
       /\ List.length (items (buffer self0)) = 0%nat
       /\ List.length (items (buffer self1)) = 1%nat
       /\ AlphaZero_update Toy.random_below self1 0%nat = Ok (lv, 1%nat).
Proof.
  split; [reflexivity|].
  eexists. eexists. eexists.
  split; [reflexivity|]. split; [reflexivity|].
  split; [reflexivity|]. split; reflexivity.
Qed.

(** ** The losses of the evaluator's update *)

Lemma np_vstack_ok (rows r : list (list R)) :
  np_vstack rows = Ok r -> r = rows /\ rows <> [].
Proof.
  unfold np_vstack. destruct rows as [|h t]; [discriminate|].
  destruct (forallb _ t); [|discriminate].
  intros H. inversion H. split; [reflexivity|discriminate].
Qed.

Lemma same_shape_length (a b : list (list R)) :
  same_shape a b = true -> List.length a = List.length b.
Proof.
  revert b. induction a as [|x a IH]; intros [|y b] H; simpl in H;
    try discriminate H; [reflexivity|].
  apply andb_prop in H. destruct H as [_ H]. simpl. f_equal. now apply IH.
Qed.

Lemma same_shape_column (values : list (list R)) (targets : list R) :
  same_shape values (map (fun t => [t]) targets) = true ->
  combine (List.concat values) (List.concat (map (fun t => [t]) targets))
  = map (fun vt => (hd 0%R (fst vt), snd vt)) (combine values targets).
Proof.
  revert targets. induction values as [|row values IH]; intros [|t targets] H;
    simpl in H; try discriminate H; [reflexivity|].
  apply andb_prop in H. destruct H as [Hrow H].
  destruct row as [|v [|v' row]]; simpl in Hrow; try discriminate Hrow.
  simpl. f_equal. now apply IH.
Qed.

Lemma l2_fold (k : R) (variables : list (list R)) :
  forall a : R,
    fold_left (fun acc weights => (acc + k * Tf.l2_loss weights)%R) variables a
    = (a + k * (sum_of_squares variables / 2))%R.
Proof.
  unfold sum_of_squares, Tf.l2_loss.
  induction variables as [|w variables IH]; intros a; simpl.
  - rewrite sum_nil. lra.
  - rewrite IH, map_app, sum_app. lra.
Qed.

Lemma cross_entropy_row_spec (logits target : list R) :
  Tf.cross_entropy_row logits target = spec_cross_entropy logits target.
Proof.
  unfold Tf.cross_entropy_row, spec_cross_entropy, spec_softmax.
  f_equal. apply sum_map_ext. intros [x y] Hin. cbn [fst snd].
  assert (Hl : logits <> []).
  { apply in_combine_l in Hin. intros ->. destruct Hin. }
  assert (Hs := exp_sum_pos Hl).
  unfold Rdiv. rewrite ln_mult, ln_Rinv, ln_exp; try exact Hs.
  - reflexivity.
  - apply exp_pos.
  - now apply Rinv_0_lt_compat.
Qed.

(** *** Rounding to float32 *)

Lemma Rabs_le_bounds (a b : R) : (Rabs a <= b)%R -> (- b <= a <= b)%R.
Proof. unfold Rabs. destruct (Rcase_abs a); lra. Qed.

Lemma round_half_even_error (y : R) :
  (Rabs (IZR (round_half_even y) - y) <= 1 / 2)%R.
Proof.
  unfold round_half_even.
  destruct (base_Int_part y) as [H1 H2].
  destruct (Rlt_dec (y - IZR (Int_part y)) (1 / 2)) as [Ha|Ha].
  - apply Rabs_le. lra.
  - destruct (Rlt_dec (1 / 2) (y - IZR (Int_part y))) as [Hb|Hb].
    + rewrite plus_IZR. apply Rabs_le. lra.
    + destruct (Z.even (Int_part y)); [|rewrite plus_IZR]; apply Rabs_le; lra.
Qed.

Lemma round_half_even_nonneg (y : R) :
  (0 <= y)%R -> (0 <= round_half_even y)%Z.
Proof.
  intros Hy. destruct (base_Int_part y) as [H1 H2].
  assert (Hf : (-1 < Int_part y)%Z) by (apply lt_IZR; lra).
  unfold round_half_even.
  destruct (Rlt_dec _ _); [lia|]. destruct (Rlt_dec _ _); [lia|].
  destruct (Z.even _); lia.
Qed.

Lemma round_half_even_IZR (n : Z) : round_half_even (IZR n) = n.
Proof.
  unfold round_half_even.
  assert (E : Int_part (IZR n) = n) by (symmetry; apply Int_part_spec; lra).
  rewrite E. destruct (Rlt_dec (IZR n - IZR n) (1 / 2)); [reflexivity|lra].
Qed.

Lemma round_half_even_tie (n : Z) (y : R) :
  y = (IZR n + 1 / 2)%R -> Z.even n = true -> round_half_even y = n.
Proof.
  intros -> Hn. unfold round_half_even.
  assert (E : Int_part (IZR n + 1 / 2) = n)
    by (symmetry; apply Int_part_spec; lra).
  rewrite E, Hn.
  destruct (Rlt_dec (IZR n + 1 / 2 - IZR n) (1 / 2)); [lra|].
  destruct (Rlt_dec (1 / 2) (IZR n + 1 / 2 - IZR n)); [lra|reflexivity].
Qed.

Lemma ln_2_pos : (0 < ln 2)%R.
Proof. rewrite <- ln_1. apply ln_increasing; lra. Qed.

Lemma powerRZ_2_exp (z : Z) : powerRZ 2 z = exp (IZR z * ln 2).
Proof. rewrite powerRZ_Rpower by lra. reflexivity. Qed.

Lemma powerRZ_2_le (a b : Z) : (a <= b)%Z -> (powerRZ 2 a <= powerRZ 2 b)%R.
Proof.
  intros H. rewrite !powerRZ_2_exp. apply exp_le.
  apply Rmult_le_compat_r; [apply Rlt_le, ln_2_pos|now apply IZR_le].
Qed.

Lemma powerRZ_2_pos (z : Z) : (0 < powerRZ 2 z)%R.
Proof. apply powerRZ_lt. lra. Qed.

Lemma powerRZ_2_succ (z : Z) : powerRZ 2 (z + 1) = (2 * powerRZ 2 z)%R.
Proof. rewrite powerRZ_add by lra. simpl. lra. Qed.

Lemma binade_spec (x : R) :
  x <> 0%R -> (powerRZ 2 (binade x) <= Rabs x < powerRZ 2 (binade x + 1))%R.
Proof.
  intros Hx. assert (Ha : (0 < Rabs x)%R) by now apply Rabs_pos_lt.
  unfold binade. remember (ln (Rabs x) / ln 2)%R as t eqn:Et.
  destruct (base_Int_part t) as [H1 H2]. assert (L := ln_2_pos).
  assert (E : Rabs x = exp (t * ln 2)).
  { rewrite Et. replace (ln (Rabs x) / ln 2 * ln 2)%R with (ln (Rabs x))
      by (field; lra).
    symmetry. now apply exp_ln. }
  rewrite E, !powerRZ_2_exp, plus_IZR. split.
  - apply exp_le. apply Rmult_le_compat_r; lra.
  - apply exp_increasing. apply Rmult_lt_compat_r; lra.
Qed.

Lemma binade_unique (x : R) (e : Z) :
  (powerRZ 2 e <= Rabs x < powerRZ 2 (e + 1))%R -> binade x = e.
Proof.
  intros [H1 H2]. assert (P := powerRZ_2_pos e). assert (L := ln_2_pos).
  assert (Ha : (0 < Rabs x)%R) by lra.
  unfold binade. symmetry. apply Int_part_spec.
  assert (E1 : (IZR e * ln 2 <= ln (Rabs x))%R).
  { rewrite <- (ln_exp (IZR e * ln 2)), <- powerRZ_2_exp.
    destruct H1 as [H1|H1]; [apply Rlt_le, ln_increasing; lra|rewrite H1; lra]. }
  assert (E2 : (ln (Rabs x) < (IZR e + 1) * ln 2)%R).
  { rewrite <- (ln_exp ((IZR e + 1) * ln 2)), <- plus_IZR, <- powerRZ_2_exp.
    apply ln_increasing; lra. }
  set (t := (ln (Rabs x) / ln 2)%R).
  assert (Et : (t * ln 2 = ln (Rabs x))%R) by (unfold t; field; lra).
  rewrite <- Et in E1, E2. clearbody t. split; nra.
Qed.

Lemma binade_lt (x : R) (k : Z) :
  x <> 0%R -> (Rabs x < powerRZ 2 k)%R -> (binade x < k)%Z.
Proof.
  intros Hx Hk. destruct (Z_lt_le_dec (binade x) k) as [H|H]; [exact H|].
  apply powerRZ_2_le in H. destruct (binade_spec Hx). lra.
Qed.

Lemma round32_error (x : R) (k : Z) :
  (-125 <= k)%Z -> (Rabs x < powerRZ 2 k)%R ->
  (Rabs (round32 x - x) <= powerRZ 2 (k - 25))%R.
Proof.
  intros Hk Hx. assert (P := powerRZ_2_pos (k - 25)).
  unfold round32.
  set (q := powerRZ 2 (Z.max (binade x) (-126) - 23)).
  assert (Hq : (0 < q)%R) by apply powerRZ_2_pos.
  destruct (Req_dec_T x 0) as [->|Hx0].
  - unfold Rdiv. rewrite Rmult_0_l, (round_half_even_IZR 0).
    rewrite Rmult_0_l, Rminus_diag, Rabs_R0. lra.
  - assert (Hb := @binade_lt x k Hx0 Hx).
    assert (Hle : (q <= powerRZ 2 (k - 24))%R) by (apply powerRZ_2_le; lia).
    replace (k - 24)%Z with (k - 25 + 1)%Z in Hle by lia.
    rewrite powerRZ_2_succ in Hle.
    assert (Herr := round_half_even_error (x / q)).
    replace (IZR (round_half_even (x / q)) * q - x)%R
      with ((IZR (round_half_even (x / q)) - x / q) * q)%R by (field; lra).
    rewrite Rabs_mult, (Rabs_pos_eq q) by lra.
    assert (H0 := Rabs_pos (IZR (round_half_even (x / q)) - x / q)).
    nra.
Qed.

Lemma round32_nonneg (x : R) : (0 <= x)%R -> (0 <= round32 x)%R.
Proof.
  intros Hx. unfold round32.
  set (q := powerRZ 2 (Z.max (binade x) (-126) - 23)).
  assert (Hq : (0 < q)%R) by apply powerRZ_2_pos.
  apply Rmult_le_pos; [|lra]. apply IZR_le, round_half_even_nonneg.
  unfold Rdiv. apply Rmult_le_pos; [exact Hx|].
  apply Rlt_le, Rinv_0_lt_compat, Hq.
Qed.

Lemma round32_eval (x : R) (e n : Z) :
  (-126 <= e)%Z ->
  (powerRZ 2 e <= Rabs x < powerRZ 2 (e + 1))%R ->
  round_half_even (x / powerRZ 2 (e - 23)) = n ->
  round32 x = (IZR n * powerRZ 2 (e - 23))%R.
Proof.
  intros He Hx Hn. unfold round32.
  rewrite (@binade_unique x e Hx), Z.max_l by lia. now rewrite Hn.
Qed.

Lemma add32_sum_error (p v l : R) :
  (0 <= p)%R -> (0 <= v)%R -> (0 <= l)%R -> (p + v + l <= 15)%R ->
  (Rabs (Tf.add (Tf.add p v) l - (p + v + l)) <= 1 / 1000000)%R.
Proof.
  intros Hp Hv Hl Hs. unfold Tf.add.
  assert (P4 : powerRZ 2 4 = 16%R) by (simpl; lra).
  assert (P21 : powerRZ 2 (4 - 25) = (/ 2097152)%R) by (simpl; lra).
  assert (E1 : (Rabs (round32 (p + v) - (p + v)) <= / 2097152)%R).
  { rewrite <- P21. apply round32_error; [lia|].
    rewrite P4, Rabs_pos_eq; lra. }
  assert (N1 := round32_nonneg (Rplus_le_le_0_compat _ _ Hp Hv)).
  apply Rabs_le_bounds in E1.
  assert (E2 : (Rabs (round32 (round32 (p + v) + l) - (round32 (p + v) + l))
                <= / 2097152)%R).
  { rewrite <- P21. apply round32_error; [lia|].
    rewrite P4, Rabs_pos_eq; lra. }
  apply Rabs_le_bounds in E2. apply Rabs_le. lra.
Qed.

Lemma round32_small : round32 (0 + / 524288) = (/ 524288)%R.
Proof.
  rewrite (@round32_eval (0 + / 524288) (-19) 8388608).
  - simpl. lra.
  - lia.
  - rewrite Rabs_pos_eq by lra. simpl. lra.
  - match goal with |- round_half_even ?y = _ =>
      replace y with (IZR 8388608) by (simpl; lra) end.
    apply round_half_even_IZR.
Qed.

Lemma round32_absorbs : round32 (/ 524288 + 32) = 32%R.
Proof.
  rewrite (@round32_eval (/ 524288 + 32) 5 8388608).
  - simpl. lra.
  - lia.
  - rewrite Rabs_pos_eq by lra. simpl. lra.
  - apply round_half_even_tie; [simpl; lra|reflexivity].
Qed.

(** The update on the single-action evaluator and the batch of two
    examples: the policy loss is 0, the value loss 2^-19 and the l2 loss
    half the square of the weight. *)
Lemma single_action_update (w : R) :
  AlphaZeroKerasEvaluator_update Toy.keep_model (Toy.single_action_evaluator w)
    Toy.two_examples
  = Ok ({| total := Tf.add (Tf.add 0 (/ 524288)) (w * w / 2);
           policy := 0; value := (/ 524288)%R; l2 := (w * w / 2)%R |},
        Toy.single_action_evaluator w).
Proof.
  unfold AlphaZeroKerasEvaluator_update.
  cbn [Toy.two_examples map observation target_value target_policy np_vstack
       forallb List.length Nat.eqb andb bind Toy.single_action_evaluator
       Toy.single_action_model model call trainable_variables
       l2_regularization num_actions Toy.keep_model].
  unfold Tf.mean_squared_error, Tf.softmax_cross_entropy_with_logits_v2.
  cbn [same_shape List.length Nat.eqb andb negb bind List.concat app combine
       map fst snd fold_left].
  assert (Ep : Tf.reduce_mean
                 [Tf.cross_entropy_row [0%R] [1%R];
                  Tf.cross_entropy_row [0%R] [1%R]] = 0%R).
  { unfold Tf.reduce_mean, Tf.cross_entropy_row.
    cbn [map combine fst snd List.length].
    rewrite !sum_cons, !sum_nil, exp_0.
    replace (1 + 0)%R with 1%R by lra. rewrite ln_1. simpl. lra. }
  assert (Ev : (Py.sum [(1 / 512 - 0) * (1 / 512 - 0); (0 - 0) * (0 - 0)]
                / INR 2 = / 524288)%R).
  { rewrite !sum_cons, sum_nil. simpl. lra. }
  assert (El : (0 + 1 * Tf.l2_loss [w] = w * w / 2)%R).
  { unfold Tf.l2_loss. cbn [map]. rewrite sum_cons, sum_nil. lra. }
  rewrite Ep, Ev, El. reflexivity.
Qed.

(** C9 (as the code has it): every LossReport the evaluator's update returns
    has as total the float32 sum of its policy, value and l2 losses, formed
    by two rounded additions; the total is within 1e-6 of
    [policy + value + l2] when the three losses are non-negative and sum to
    at most 15.  The value loss is the mean squared error against the target
    values, the policy loss is the mean cross-entropy against the target
    policies, and the l2 loss is the regularization coefficient times half
    the sum of the squares of all trainable parameters. *)
Theorem update_loss_report :
  forall (apply_gradients :
            KerasModel -> list (list R) -> list (list R) -> list (list R)
            -> KerasModel)
         (self self' : AlphaZeroKerasEvaluator)
         (training_examples : list MCTSResult) (lv : LossValues),
    AlphaZeroKerasEvaluator_update apply_gradients self training_examples
    = Ok (lv, self') ->
    total lv = Tf.add (Tf.add (policy lv) (value lv)) (l2 lv)
    /\ ((0 <= policy lv)%R -> (0 <= value lv)%R -> (0 <= l2 lv)%R ->
        (policy lv + value lv + l2 lv <= 15)%R ->
        (Rabs (total lv - (policy lv + value lv + l2 lv)) <= 1 / 1000000)%R)
    /\ value lv
       = spec_value_loss
           (fst (call (model self) true (map observation training_examples)))
           (map target_value training_examples)
    /\ policy lv
       = spec_policy_loss
           (snd (call (model self) true (map observation training_examples)))
           (map target_policy training_examples)
    /\ l2 lv
       = (l2_regularization self
          * (sum_of_squares (trainable_variables (model self)) / 2))%R.
Proof.
  intros ag self self' batch lv H.
  unfold AlphaZeroKerasEvaluator_update in H.
  destruct (np_vstack (map observation batch)) as [obs|e] eqn:Eo;
    cbn [bind] in H; [|discriminate H].
  destruct (np_vstack (map (fun e => [target_value e]) batch)) as [tv|e] eqn:Ev;
    cbn [bind] in H; [|discriminate H].
  destruct (np_vstack (map target_policy batch)) as [tp|e] eqn:Ep;
    cbn [bind] in H; [|discriminate H].
  apply np_vstack_ok in Eo, Ev, Ep.
  destruct Eo as [-> _], Ev as [-> _], Ep as [-> _].
  destruct (call (model self) true (map observation batch))
    as [values logits] eqn:Ec.
  unfold Tf.mean_squared_error, Tf.softmax_cross_entropy_with_logits_v2 in H.
  destruct (same_shape values (map (fun e => [target_value e]) batch)) eqn:Sv;
    cbn [negb bind] in H; [|discriminate H].
  destruct (same_shape logits (map target_policy batch)) eqn:Sp;
    cbn [negb bind] in H; [|discriminate H].
  inversion H; subst lv self'; clear H. cbn [total policy value l2 fst snd].
  split; [reflexivity|]. split; [apply add32_sum_error|].
  split; [|split].
  - unfold spec_value_loss.
    rewrite <- (map_map target_value (fun t => [t])) in Sv |- *.
    rewrite (same_shape_column _ _ Sv).
    apply same_shape_length in Sv. rewrite length_map in Sv.
    rewrite !length_map, length_combine, Sv, Nat.min_id.
    rewrite map_map. cbn [fst snd].
    f_equal; try solve [now rewrite ?length_map].
    apply sum_map_ext. intros [row t] _. cbn [fst snd]. ring.
  - unfold spec_policy_loss, Tf.reduce_mean.
    apply same_shape_length in Sp.
    rewrite length_map, length_combine, Sp, Nat.min_id.
    f_equal; try solve [now rewrite ?length_map].
    apply sum_map_ext. intros [l t] _. apply cross_entropy_row_spec.
  - rewrite l2_fold. lra.
Qed.

Lemma update_loss_report_witness :
  exists (lv : LossValues) (self' : AlphaZeroKerasEvaluator),
    AlphaZeroKerasEvaluator_update Toy.keep_model
      (Toy.single_action_evaluator 2) Toy.two_examples = Ok (lv, self')
    /\ total lv = Tf.add (Tf.add (policy lv) (value lv)) (l2 lv)
    /\ (Rabs (total lv - (policy lv + value lv + l2 lv)) <= 1 / 1000000)%R
    /\ l2 lv
       = (l2_regularization (Toy.single_action_evaluator 2)
          * (sum_of_squares
               (trainable_variables (model (Toy.single_action_evaluator 2)))
             / 2))%R.
Proof.
  eexists. eexists. split; [apply single_action_update|].
  destruct (@update_loss_report Toy.keep_model (Toy.single_action_evaluator 2)
              _ Toy.two_examples _ (single_action_update 2))
    as (Ht & Htol & _ & _ & Hl).
  split; [exact Ht|]. split; [|exact Hl].
  apply Htol; cbn [policy value l2]; lra.
Defined.

(** C9 as stated fails twice.  On the tolerance: with the single weight 8
    the losses are 0, 2^-19 and 32, and the reported total is 32, the
    float32 nearest to their sum, which is 2^-19 > 1e-6 away from it.  On
    the l2 loss: with the single weight 2 and coefficient 1 the reported l2
    loss is 2, half of the coefficient times the sum of the squared
    parameters. *)
Lemma loss_report_fails_as_stated :
  (exists (lv : LossValues) (self' : AlphaZeroKerasEvaluator),
      AlphaZeroKerasEvaluator_update Toy.keep_model
        (Toy.single_action_evaluator 8) Toy.two_examples = Ok (lv, self')
      /\ total lv = 32%R
      /\ (policy lv + value lv + l2 lv = 32 + / 524288)%R
      /\ (1 / 1000000
          < Rabs (total lv - (policy lv + value lv + l2 lv)))%R)
  /\ (exists (lv : LossValues) (self' : AlphaZeroKerasEvaluator),
         AlphaZeroKerasEvaluator_update Toy.keep_model Toy.keras_evaluator
           Toy.batch = Ok (lv, self')
         /\ l2 lv = 2%R
         /\ (l2_regularization Toy.keras_evaluator
             * sum_of_squares
                 (trainable_variables (model Toy.keras_evaluator)))%R
            = 4%R
         /\ l2 lv
            <> (l2_regularization Toy.keras_evaluator
                * sum_of_squares
                    (trainable_variables (model Toy.keras_evaluator)))%R).
Proof.
  split.
  - eexists. eexists. split; [apply single_action_update|].
    cbn [total policy value l2]. unfold Tf.add.
    replace (8 * 8 / 2)%R with 32%R by lra.
    rewrite round32_small, round32_absorbs.
    split; [reflexivity|]. split; [lra|].
    replace (32 - (0 + / 524288 + 32))%R with (- / 524288)%R by lra.
    rewrite Rabs_Ropp, Rabs_pos_eq; lra.
  - eexists. eexists. split; [reflexivity|].
    cbn [l2 Toy.keras_evaluator Toy.keras_model l2_regularization model
         trainable_variables fold_left].
    unfold Tf.l2_loss, sum_of_squares. cbn [List.concat app map].
    rewrite !sum_cons, sum_nil.
    split; [lra|]. split; [lra|lra].
Qed.

(** ** The evaluator's value and prior *)

Lemma sum_perm (l l' : list R) : Permutation l l' -> Py.sum l = Py.sum l'.
Proof.
  induction 1 as [|x l l' _ IH|x y l|l l' l'' _ IH1 _ IH2].
  - reflexivity.
  - now rewrite !sum_cons, IH.
  - rewrite !sum_cons. lra.
  - now rewrite IH1.
Qed.

Lemma combine_as_seq {A B C} (h : A * B -> C) (da : A) (db : B) :
  forall (la : list A) (lb : list B),
    List.length la = List.length lb ->
    map h (combine la lb)
    = map (fun k => h (nth k la da, nth k lb db)) (seq 0 (List.length la)).
Proof.
  induction la as [|a la IH]; intros [|b lb] H; simpl in H; try discriminate H.
  - reflexivity.
  - simpl. f_equal. rewrite <- seq_shift, map_map. apply IH. lia.
Qed.

Lemma sum_filter {A} (p : A -> bool) (g : A -> R) (l : list A) :
  Py.sum (map (fun k => if p k then g k else 0%R) l)
  = Py.sum (map g (filter p l)).
Proof.
  induction l as [|k l IH]; simpl; [reflexivity|].
  rewrite sum_cons, IH. destruct (p k); simpl.
  - now rewrite sum_cons.
  - lra.
Qed.

Lemma NoDup_map_to_nat (l : list Z) :
  (forall a, In a l -> (0 <= a)%Z) -> NoDup l -> NoDup (map Z.to_nat l).
Proof.
  induction l as [|a l IH]; intros Hnn Hnd; simpl; [constructor|].
  inversion Hnd as [|? ? Hnotin Hnd']; subst. constructor.
  - intros Hin. apply in_map_iff in Hin. destruct Hin as (b & Eb & Hb).
    assert (b = a).
    { assert (0 <= b)%Z by (apply Hnn; now right).
      assert (0 <= a)%Z by (apply Hnn; now left). lia. }
    subst b. contradiction.
  - apply IH; [|exact Hnd']. intros b Hb. apply Hnn. now right.
Qed.

Lemma masked_sum (logits : list R) (mask legal : list Z) :
  List.length logits = List.length mask ->
  (forall a, In a legal -> (0 <= a < Z.of_nat (List.length mask))%Z) ->
  NoDup legal ->
  mask_matches mask legal ->
  Py.sum (map (fun lm => if (snd lm =? 0)%Z then 0%R else exp (fst lm))
              (combine logits mask))
  = Py.sum (map (fun a => exp (nth (Z.to_nat a) logits 0%R)) legal).
Proof.
  intros Hlen Hrange Hnd Hm.
  rewrite (combine_as_seq _ 0%R 0%Z _ _ Hlen). cbn [fst snd].
  rewrite (sum_map_ext _
             (fun k => if negb (nth k mask 0 =? 0)%Z
                       then exp (nth k logits 0%R) else 0%R))
    by (intros k _; now destruct (nth k mask 0 =? 0)%Z).
  rewrite (sum_filter (fun k => negb (nth k mask 0 =? 0)%Z)
                      (fun k => exp (nth k logits 0%R))).
  rewrite <- (map_map Z.to_nat (fun k => exp (nth k logits 0%R)) legal).
  apply sum_perm, Permutation_map, NoDup_Permutation.
  - apply NoDup_filter, seq_NoDup.
  - apply NoDup_map_to_nat; [|exact Hnd].
    intros a Ha. apply Hrange in Ha. lia.
  - intros k. rewrite filter_In, in_seq, in_map_iff, negb_true_iff, Z.eqb_neq.
    split.
    + intros [Hk Hmask]. exists (Z.of_nat k). split; [apply Nat2Z.id|].
      apply Hm; [lia|]. now rewrite Nat2Z.id.
    + intros (a & <- & Ha). specialize (Hrange a Ha). split; [lia|].
      now apply Hm.
Qed.

Lemma gather_ok (policy : list R) (legal : list Z) :
  (forall a, In a legal -> (0 <= a < Z.of_nat (List.length policy))%Z) ->
  gather policy legal
  = Ok (map (fun a => (a, nth (Z.to_nat a) policy 0%R)) legal).
Proof.
  induction legal as [|a legal IH]; intros Hrange; simpl; [reflexivity|].
  assert (Ha : (0 <= a < Z.of_nat (List.length policy))%Z)
    by (apply Hrange; now left).
  rewrite (@getitem_nonneg _ policy a (nth (Z.to_nat a) policy 0%R)).
  - cbn [bind]. rewrite IH; [reflexivity|]. intros b Hb. apply Hrange.
    now right.
  - lia.
  - apply nth_error_nth'. lia.
Qed.

Lemma nth_error_map_combine {A B C} (h : A * B -> C) (da : A) (db : B) :
  forall (la : list A) (lb : list B) (k : nat),
    List.length la = List.length lb ->
    (k < List.length la)%nat ->
    nth_error (map h (combine la lb)) k = Some (h (nth k la da, nth k lb db)).
Proof.
  induction la as [|a la IH]; intros [|b lb] [|k] Hlen Hk; simpl in *;
    try discriminate Hlen; try lia.
  - reflexivity.
  - apply IH; lia.
Qed.

(** C8: on a state whose mask and list of legal actions describe the same
    set of action-ids of the policy head, [value_and_prior] returns the value
    vector [[v, -v]] for the model's scalar value [v], and a list of (action,
    probability) pairs that ranges over exactly the legal actions, in their
    order; each probability is the entry of the masked softmax of the model's
    raw policy, [exp(logit[a])] over the sum of [exp(logit[b])] for the legal
    [b] only; the masked softmax is 0 at every illegal action; the returned
    probabilities sum to 1. *)
Theorem value_and_prior_masked_softmax :
  forall (State : Type) (observation_tensor : State -> list R)
         (legal_actions legal_actions_mask : State -> list Z)
         (self : AlphaZeroKerasEvaluator) (state : State)
         (v : R) (vrow : list R) (vrows : list (list R))
         (logits : list R) (lrows : list (list R)),
    call (model self) false [observation_tensor state]
    = ((v :: vrow) :: vrows, logits :: lrows) ->
    List.length logits = List.length (legal_actions_mask state) ->
    (forall a, In a (legal_actions state) ->
               (0 <= a < Z.of_nat (List.length (legal_actions_mask state)))%Z) ->
    NoDup (legal_actions state) ->
    mask_matches (legal_actions_mask state) (legal_actions state) ->
    exists (sm : list R) (pol : list (Z * R)),
      np_masked_softmax logits (legal_actions_mask state) = Ok sm
      /\ AlphaZeroKerasEvaluator_value_and_prior observation_tensor
           legal_actions legal_actions_mask self state
         = Ok ([v; (- v)%R], pol)
      /\ map fst pol = legal_actions state
      /\ (forall a p, In (a, p) pol ->
            nth_error sm (Z.to_nat a) = Some p
            /\ p = (exp (nth (Z.to_nat a) logits 0)
                    / Py.sum (map (fun b => exp (nth (Z.to_nat b) logits 0))
                                  (legal_actions state)))%R)
      /\ (forall a,
            (0 <= a < Z.of_nat (List.length (legal_actions_mask state)))%Z ->
            ~ In a (legal_actions state) ->
            nth_error sm (Z.to_nat a) = Some 0%R)
      /\ (legal_actions state <> [] -> Py.sum (map snd pol) = 1%R).
Proof.
  intros State observation_tensor legal_actions legal_actions_mask self state
    v vrow vrows logits lrows Hcall Hlen Hrange Hnd Hm.
  set (mask := legal_actions_mask state) in *.
  set (legal := legal_actions state) in *.
  set (h := fun lm : R * Z => if (snd lm =? 0)%Z then 0%R else exp (fst lm)).
  set (e := map h (combine logits mask)).
  set (sm := map (fun x => (x / Py.sum e)%R) e).
  assert (Hsum : Py.sum e
                 = Py.sum (map (fun b => exp (nth (Z.to_nat b) logits 0%R))
                               legal)).
  { unfold e, h. now apply masked_sum. }
  assert (Hsm : np_masked_softmax logits mask = Ok sm).
  { unfold np_masked_softmax. rewrite Hlen, Nat.eqb_refl. reflexivity. }
  assert (Hlsm : List.length sm = List.length mask).
  { unfold sm, e. rewrite !length_map, length_combine, Hlen. apply Nat.min_id. }
  assert (Hentry : forall k, (k < List.length mask)%nat ->
            nth_error sm k
            = Some (h (nth k logits 0%R, nth k mask 0%Z) / Py.sum e)%R).
  { intros k Hk. unfold sm. rewrite nth_error_map. unfold e.
    rewrite (nth_error_map_combine h 0%R 0%Z) by lia. reflexivity. }
  exists sm, (map (fun a => (a, nth (Z.to_nat a) sm 0%R)) legal).
  split; [exact Hsm|].
  assert (Hp : forall a, In a legal ->
             nth_error sm (Z.to_nat a)
             = Some (exp (nth (Z.to_nat a) logits 0)
                     / Py.sum (map (fun b => exp (nth (Z.to_nat b) logits 0))
                                   legal))%R).
  { intros a Ha. specialize (Hrange a Ha). rewrite Hentry by lia.
    unfold h. cbn [fst snd].
    assert (Hnz : nth (Z.to_nat a) mask 0%Z <> 0%Z) by (now apply Hm).
    apply Z.eqb_neq in Hnz. now rewrite Hnz, Hsum. }
  split.
  { unfold AlphaZeroKerasEvaluator_value_and_prior. rewrite Hcall.
    fold mask. fold legal.
    change (getitem (logits :: lrows) 0) with (Ok logits). cbn [bind].
    rewrite Hsm. cbn [bind].
    rewrite gather_ok by (intros a Ha; rewrite Hlsm; now apply Hrange).
    reflexivity. }
  split; [rewrite map_map; apply map_id|].
  split.
  { intros a p Hin. apply in_map_iff in Hin.
    destruct Hin as (b & Eb & Hb). inversion Eb; subst a p.
    rewrite (nth_of_nth_error _ _ 0%R (Hp b Hb)). split; [|reflexivity].
    now apply Hp. }
  split.
  { intros a Ha Hnotin. rewrite Hentry by lia. unfold h. cbn [fst snd].
    assert (Hz : nth (Z.to_nat a) mask 0%Z = 0%Z).
    { destruct (Z.eq_dec (nth (Z.to_nat a) mask 0%Z) 0) as [E|E]; [exact E|].
      exfalso. apply Hnotin. now apply Hm. }
    rewrite Hz. cbn. f_equal. unfold Rdiv. apply Rmult_0_l. }
  intros Hne. rewrite map_map. cbn [snd].
  rewrite (sum_map_ext _
             (fun a => exp (nth (Z.to_nat a) logits 0)
                       / Py.sum (map (fun b => exp (nth (Z.to_nat b) logits 0))
                                     legal))%R)
    by (intros a Ha; apply (nth_of_nth_error _ _ 0%R (Hp a Ha))).
  rewrite <- (map_map (fun b => exp (nth (Z.to_nat b) logits 0%R))
                      (fun x => x / _)%R).
  rewrite sum_map_div.
  assert (0 < Py.sum (map (fun b => exp (nth (Z.to_nat b) logits 0%R)) legal))%R.
  { apply sum_pos.
    - destruct legal; [congruence|discriminate].
    - intros x Hx. apply in_map_iff in Hx. destruct Hx as (b & <- & _).
      apply exp_pos. }
  field. lra.
Qed.

Lemma toy_mask_matches :
  mask_matches (Toy.legal_actions_mask []) (Toy.legal_actions []).
Proof.
  intros a Ha. simpl in Ha. unfold Toy.legal_actions, Toy.legal_actions_mask.
  assert (E : a = 0%Z \/ a = 1%Z) by lia.
  destruct E as [-> | ->]; simpl; split; intros H; try lia;
    try (now left); try (destruct H as [H|[]]; discriminate H);
    try (exfalso; now apply H).
Qed.

Lemma value_and_prior_masked_softmax_witness :
  (call (model Toy.keras_evaluator) false [Toy.observation_tensor []]
   = ([[0%R]], [[0%R; 0%R]])
   /\ NoDup (Toy.legal_actions [])
   /\ mask_matches (Toy.legal_actions_mask []) (Toy.legal_actions []))
  /\ exists pol : list (Z * R),
       AlphaZeroKerasEvaluator_value_and_prior Toy.observation_tensor
         Toy.legal_actions Toy.legal_actions_mask Toy.keras_evaluator []
       = Ok ([0%R; (- 0)%R], pol)
       /\ map fst pol = [1%Z]
       /\ Py.sum (map snd pol) = 1%R.
Proof.
  assert (Hnd : NoDup (Toy.legal_actions [])).
  { repeat constructor. intros []. }
  assert (Hrange : forall a, In a (Toy.legal_actions []) ->
            (0 <= a < Z.of_nat (List.length (Toy.legal_actions_mask [])))%Z).
  { intros a [<-|[]]. simpl. lia. }
  split; [split; [reflexivity|split; [exact Hnd|exact toy_mask_matches]]|].
  destruct (@value_and_prior_masked_softmax Toy.State Toy.observation_tensor
              Toy.legal_actions Toy.legal_actions_mask Toy.keras_evaluator []
              0%R [] [] [0%R; 0%R] [] eq_refl eq_refl Hrange Hnd
              toy_mask_matches)
    as (sm & pol & _ & Hv & Hfst & _ & _ & Hsum).
  exists pol. split; [exact Hv|]. split; [exact Hfst|].
  apply Hsum. discriminate.
Defined.

(** * Further properties of the code *)

(** ** [np_softmax] *)

Lemma pow2_le_exp (n : nat) : (2 ^ n <= exp (INR n))%R.
Proof.
  rewrite exp_INR. apply pow_incr. split; [lra|].
  generalize (exp_ineq1_le 1). lra.
Qed.

Lemma exp_2000_large : (2 ^ 2000 <= exp 2000)%R.
Proof.
  replace 2000%R with (INR 2000) by (rewrite INR_IZR_INZ; reflexivity).
  apply pow2_le_exp.
Qed.

(** Alone, the exponential of an explore count of 2000 overflows, and that
    of its negation underflows. *)
Lemma np_exp_overflows : np_exp 2000 = PosInf.
Proof.
  unfold np_exp.
  destruct (Rle_dec float_overflow (exp 2000)) as [_|H]; [reflexivity|].
  exfalso. apply H. eapply Rle_trans; [|apply exp_2000_large].
  unfold float_overflow.
  assert (H1 : (2 ^ 1024 <= 2 ^ 2000)%R) by (apply Rle_pow; [lra|lia]).
  change (2 ^ 1024)%R with (2 * 2 ^ 1023)%R in H1.
  assert (H2 := pow2_ge_1 1023).
  assert (H3 : (0 < / 2 ^ 53)%R).
  { apply Rinv_0_lt_compat. generalize (pow2_ge_1 53). lra. }
  set (a := (2 ^ 1023)%R) in *. set (b := (/ 2 ^ 53)%R) in *.
  set (c := (2 ^ 2000)%R) in *. clearbody a b c. nra.
Qed.

Lemma exp_or_zero_underflows : exp_or_zero (0 - 2000) = 0%R.
Proof.
  unfold exp_or_zero.
  destruct (Rle_dec (exp (0 - 2000)) float_underflow) as [_|H];
    [reflexivity|].
  exfalso. apply H. unfold float_underflow.
  replace (0 - 2000)%R with (Ropp 2000) by lra. rewrite exp_Ropp.
  assert (H1 := exp_2000_large).
  assert (H2 : (2 ^ 1075 <= 2 ^ 2000)%R) by (apply Rle_pow; [lra|lia]).
  assert (H3 := pow2_ge_1 1075).
  apply Rinv_le_contravar; lra.
Qed.

Lemma np_softmax_underflow_example :
  np_softmax [2000; 0]%R = Ok [Fin 1; Fin 0].
Proof.
  unfold np_softmax. cbn [np_amax bind fold_left].
  rewrite Rmax_left by lra. cbn [map].
  rewrite !np_exp_nonpos by lra.
  replace (2000 - 2000)%R with 0%R by lra.
  rewrite exp_or_zero_0, exp_or_zero_underflows.
  change [Fin 1; Fin 0] with (map Fin [1; 0]%R) at 1 2.
  rewrite np_sum_fin, !sum_cons, sum_nil.
  rewrite !float_div_fin by lra. repeat f_equal; lra.
Qed.

Lemma fold_left_Rmax_shift (c : R) (t : list R) :
  forall h : R,
    fold_left Rmax (map (fun x => (x + c)%R) t) (h + c)%R
    = (fold_left Rmax t h + c)%R.
Proof.
  induction t as [|y t IH]; intros h; [reflexivity|].
  cbn [map fold_left]. rewrite <- IH. f_equal.
  unfold Rmax. destruct (Rle_dec (h + c) (y + c)), (Rle_dec h y);
    try reflexivity; lra.
Qed.

(** X1: on a non-empty vector [np_softmax] returns a vector of the same
    length that holds no inf and no nan, whatever the size of the logits:
    every entry is a finite number between 0 and 1 (0 where the exponential
    underflows), and the entries sum to 1. *)
Theorem np_softmax_distribution :
  forall logits : list R,
    logits <> [] ->
    exists probs : list R,
      np_softmax logits = Ok (map Fin probs)
      /\ List.length probs = List.length logits
      /\ (forall p, In p probs -> 0 <= p <= 1)%R
      /\ Py.sum probs = 1%R.
Proof.
  intros logits Hl.
  destruct (np_softmax_spec Hl) as (m & _ & Hle & _ & Hs & E).
  destruct (@np_softmax_is_distribution logits m Hle (proj1 Hs))
    as [Hsum Hrange].
  eexists. split; [rewrite E, map_map; reflexivity|].
  split; [now rewrite length_map|]. split; [exact Hrange|exact Hsum].
Qed.

Lemma np_softmax_distribution_witness :
  [2000; 0]%R <> []
  /\ np_softmax [2000; 0]%R = Ok [Fin 1; Fin 0]
  /\ exists probs : list R,
       np_softmax [2000; 0]%R = Ok (map Fin probs)
       /\ List.length probs = 2%nat
       /\ (forall p, In p probs -> 0 <= p <= 1)%R
       /\ Py.sum probs = 1%R.
Proof.
  assert (Hne : [2000; 0]%R <> []) by discriminate.
  split; [exact Hne|]. split; [exact np_softmax_underflow_example|].
  destruct (np_softmax_distribution Hne) as (probs & E & Hlen & Hr & Hsum).
  exists probs. split; [exact E|]. split; [exact Hlen|].
  split; [exact Hr|exact Hsum].
Defined.

(** X2: [np_softmax] is invariant under adding one constant to every logit;
    on the empty vector both calls raise the same error. *)
Theorem np_softmax_shift_invariant :
  forall (logits : list R) (c : R),
    np_softmax (map (fun x => (x + c)%R) logits) = np_softmax logits.
Proof.
  intros logits c. destruct logits as [|h t]; [reflexivity|].
  unfold np_softmax. cbn [map np_amax bind].
  rewrite fold_left_Rmax_shift.
  set (m := fold_left Rmax t h).
  assert (E : forall x, (x + c - (m + c))%R = (x - m)%R) by (intros; lra).
  rewrite E, !map_map.
  rewrite (map_ext (fun x => np_exp (x + c - (m + c)))
                   (fun x => np_exp (x - m)))
    by (intros x; now rewrite E).
  f_equal. f_equal. apply map_ext. intros x. now rewrite E.
Qed.

(** X3: [np_softmax] preserves the order of the logits: an entry with a
    logit no larger gets a probability no larger (both finite). *)
Theorem np_softmax_monotone :
  forall (logits : list R) (probs : list Float) (i j : nat) (x y : R),
    np_softmax logits = Ok probs ->
    nth_error logits i = Some x ->
    nth_error logits j = Some y ->
    (x <= y)%R ->
    exists p q : R,
      nth_error probs i = Some (Fin p)
      /\ nth_error probs j = Some (Fin q)
      /\ (p <= q)%R.
Proof.
  intros logits probs i j x y E Hi Hj Hxy.
  assert (Hl : logits <> []).
  { intros ->. destruct i; discriminate Hi. }
  destruct (np_softmax_spec Hl) as (m & _ & _ & _ & Hs & E').
  rewrite E in E'. inversion E' as [Ep]. clear E E'.
  set (s := Py.sum (map (fun y => exp_or_zero (y - m)) logits)) in *.
  exists (exp_or_zero (x - m) / s)%R, (exp_or_zero (y - m) / s)%R.
  split; [now rewrite nth_error_map, Hi|].
  split; [now rewrite nth_error_map, Hj|].
  unfold Rdiv. apply Rmult_le_compat_r.
  - apply Rlt_le, Rinv_0_lt_compat. lra.
  - apply exp_or_zero_le. lra.
Qed.

Lemma np_softmax_monotone_witness :
  exists p q : R,
    nth_error [Fin 1; Fin 0] 1 = Some (Fin p)
    /\ nth_error [Fin 1; Fin 0] 0 = Some (Fin q)
    /\ (p <= q)%R.
Proof.
  apply (@np_softmax_monotone [2000; 0]%R [Fin 1; Fin 0] 1 0 0%R 2000%R
           np_softmax_underflow_example eq_refl eq_refl).
  lra.
Defined.

(** X4: the stabilisation of [np_softmax].  The greatest logit is subtracted
    before exponentiating, so no exponent is positive: every exponential is
    finite and at most 1 (none overflows), that of the greatest logit is 1,
    the divisor is finite and lies between 1 and the number of logits, and
    the result holds the finite quotients; the entry of a greatest logit is
    the inverse of the divisor. *)
Theorem np_softmax_exponents_bounded :
  forall logits : list R,
    logits <> [] ->
    exists max_logit s : R,
      np_amax logits = Ok max_logit
      /\ (forall x, In x logits ->
            (x - max_logit <= 0)%R
            /\ np_exp (x - max_logit) = Fin (exp_or_zero (x - max_logit))
            /\ (0 <= exp_or_zero (x - max_logit) <= 1)%R)
      /\ np_exp (max_logit - max_logit) = Fin 1
      /\ np_sum (map (fun x => np_exp (x - max_logit)) logits) = Fin s
      /\ (1 <= s <= INR (List.length logits))%R
      /\ np_softmax logits
         = Ok (map (fun x => Fin (exp_or_zero (x - max_logit) / s)) logits)
      /\ (forall (i : nat) (probs : list Float),
            np_softmax logits = Ok probs ->
            nth_error logits i = Some max_logit ->
            nth_error probs i = Some (Fin (1 / s))).
Proof.
  intros logits Hl.
  destruct (np_softmax_spec Hl) as (m & Hin & Hle & He & Hs & E).
  assert (Ha : np_amax logits = Ok m /\ m = m).
  { destruct logits as [|h t]; [congruence|]. cbn [np_amax].
    unfold np_softmax in E. cbn [np_amax bind] in E.
    split; [|reflexivity]. f_equal.
    destruct (fold_left_Rmax_spec t h) as [Hin' Hle'].
    apply Rle_antisym; [apply Hle, Hin'|apply Hle', Hin]. }
  destruct Ha as [Ha _].
  exists m, (Py.sum (map (fun y => exp_or_zero (y - m)) logits)).
  split; [exact Ha|]. split.
  { intros x Hx. specialize (Hle x Hx).
    split; [lra|]. split; [apply np_exp_nonpos; lra|].
    apply exp_or_zero_bounds. lra. }
  split.
  { rewrite Rminus_diag, np_exp_nonpos by lra. now rewrite exp_or_zero_0. }
  split.
  { rewrite He, <- (map_map (fun x => exp_or_zero (x - m)) Fin).
    apply np_sum_fin. }
  split; [exact Hs|]. split; [exact E|].
  intros i probs Hp Hi. rewrite E in Hp. inversion Hp.
  rewrite nth_error_map, Hi. cbn [option_map].
  now rewrite Rminus_diag, exp_or_zero_0.
Qed.

Lemma np_softmax_exponents_bounded_witness :
  [2000; 0]%R <> []
  /\ np_exp 2000 = PosInf
  /\ exists max_logit s : R,
       np_amax [2000; 0]%R = Ok max_logit
       /\ np_sum (map (fun x => np_exp (x - max_logit)) [2000; 0]%R) = Fin s
       /\ (1 <= s <= 2)%R
       /\ np_softmax [2000; 0]%R
          = Ok (map (fun x => Fin (exp_or_zero (x - max_logit) / s))
                    [2000; 0]%R).
Proof.
  assert (Hne : [2000; 0]%R <> []) by discriminate.
  split; [exact Hne|]. split; [exact np_exp_overflows|].
  destruct (np_softmax_exponents_bounded Hne)
    as (m & s & Ea & _ & _ & Es & Hs & E & _).
  exists m, s. split; [exact Ea|]. split; [exact Es|].
  split; [|exact E].
  replace (INR (List.length [2000; 0]%R)) with 2%R in Hs by (simpl; lra).
  exact Hs.
Defined.

(** ** [alpha_zero_ucb_score] *)

Lemma getitem_negative {A} (l : list A) (i : Z) (x : A) :
  (- Z.of_nat (List.length l) <= i < 0)%Z ->
  nth_error l (Z.to_nat (Z.of_nat (List.length l) + i)) = Some x ->
  getitem l i = Ok x.
Proof.
  intros Hi Hn. unfold getitem.
  destruct (Z.ltb_spec i 0) as [_|H]; [|lia].
  destruct (Z.ltb_spec (i + Z.of_nat (List.length l)) 0) as [H|_]; [lia|].
  destruct (Z.leb_spec (Z.of_nat (List.length l))
                       (i + Z.of_nat (List.length l))) as [H|_]; [lia|].
  simpl. rewrite Z.add_comm, Hn. reflexivity.
Qed.

Lemma getitem_out_of_range {A} (l : list A) (i : Z) :
  (i < - Z.of_nat (List.length l) \/ Z.of_nat (List.length l) <= i)%Z ->
  getitem l i = Raise IndexError.
Proof.
  intros Hi. unfold getitem.
  destruct (Z.ltb_spec i 0) as [H0|H0].
  - destruct (Z.ltb_spec (i + Z.of_nat (List.length l)) 0) as [H|H];
      [reflexivity|lia].
  - destruct (Z.ltb_spec i 0) as [H|_]; [lia|].
    destruct (Z.leb_spec (Z.of_nat (List.length l)) i) as [_|H];
      [reflexivity|lia].
Qed.

Lemma math_log_raises (x : R) :
  (x <= 0)%R -> math_log x = Raise (ValueError "math domain error").
Proof.
  intros Hx. unfold math_log. destruct (Rlt_dec 0 x); [lra|reflexivity].
Qed.

Lemma math_sqrt_raises (x : R) :
  (x < 0)%R -> math_sqrt x = Raise (ValueError "math domain error").
Proof.
  intros Hx. unfold math_sqrt. destruct (Rle_dec 0 x); [lra|reflexivity].
Qed.

Lemma truediv_raises (x : R) : truediv x 0 = Raise ZeroDivisionError.
Proof.
  unfold truediv. destruct (Req_dec_T 0 0); [reflexivity|congruence].
Qed.

(** X5: when the child has no outcome, the scorer raises in exactly four
    situations, tested in this order: [c_base] is zero (ZeroDivisionError);
    the argument of the logarithm is not positive (ValueError); the parent's
    explore count is negative (ValueError); the child's explore count is -1
    (ZeroDivisionError).  In every other case it returns a score. *)
Theorem ucb_score_raises :
  forall (child : SearchNode) (parent_explore_count : Z) (c_init c_base : R),
    outcome child = None ->
    (c_base = 0%R ->
     alpha_zero_ucb_score child parent_explore_count (c_init, c_base)
     = Raise ZeroDivisionError)
    /\ (c_base <> 0%R ->
        ((IZR parent_explore_count + c_base + 1) / c_base <= 0)%R ->
        alpha_zero_ucb_score child parent_explore_count (c_init, c_base)
        = Raise (ValueError "math domain error"))
    /\ (c_base <> 0%R ->
        (0 < (IZR parent_explore_count + c_base + 1) / c_base)%R ->
        (parent_explore_count < 0)%Z ->
        alpha_zero_ucb_score child parent_explore_count (c_init, c_base)
        = Raise (ValueError "math domain error"))
    /\ (c_base <> 0%R ->
        (0 < (IZR parent_explore_count + c_base + 1) / c_base)%R ->
        (0 <= parent_explore_count)%Z ->
        explore_count child = (-1)%Z ->
        alpha_zero_ucb_score child parent_explore_count (c_init, c_base)
        = Raise ZeroDivisionError)
    /\ (c_base <> 0%R ->
        (0 < (IZR parent_explore_count + c_base + 1) / c_base)%R ->
        (0 <= parent_explore_count)%Z ->
        explore_count child <> (-1)%Z ->
        exists score : R,
          alpha_zero_ucb_score child parent_explore_count (c_init, c_base)
          = Ok score).
Proof.
  intros child pec ci cb Ho. unfold alpha_zero_ucb_score. rewrite Ho.
  split; [|split; [|split; [|split]]].
  - intros ->. now rewrite truediv_raises.
  - intros Hcb Harg. rewrite (truediv_ok _ Hcb). cbn [bind].
    now rewrite (math_log_raises Harg).
  - intros Hcb Harg Hp. rewrite (truediv_ok _ Hcb). cbn [bind].
    rewrite (math_log_ok Harg). cbn [bind].
    rewrite math_sqrt_raises by (apply IZR_lt in Hp; lra). reflexivity.
  - intros Hcb Harg Hp He. rewrite (truediv_ok _ Hcb). cbn [bind].
    rewrite (math_log_ok Harg). cbn [bind].
    rewrite math_sqrt_ok by (apply IZR_le in Hp; lra). cbn [bind].
    rewrite He. change (-1 + 1)%Z with 0%Z. now rewrite truediv_raises.
  - intros Hcb Harg Hp He. rewrite (truediv_ok _ Hcb). cbn [bind].
    rewrite (math_log_ok Harg). cbn [bind].
    rewrite math_sqrt_ok by (apply IZR_le in Hp; lra). cbn [bind].
    rewrite truediv_ok by (apply not_0_IZR; lia). cbn [bind].
    unfold and_int. destruct (Z.eqb_spec (explore_count child) 0) as [E|E].
    + cbn [bind]. eexists. reflexivity.
    + rewrite truediv_ok by (now apply not_0_IZR). cbn [bind].
      eexists. reflexivity.
Qed.

Lemma ucb_score_raises_witness :
  outcome fresh_child = None
  /\ alpha_zero_ucb_score fresh_child 4 (1, 0)%R = Raise ZeroDivisionError.
Proof.
  split; [reflexivity|].
  apply (proj1 (@ucb_score_raises fresh_child 4 1%R 0%R eq_refl)).
  reflexivity.
Defined.

(** X6: under a parent that has not been explored (explore count 0) the
    prior plays no part: the score of a child without outcome is its
    exploitation term alone, 0 for an unexplored child and the mean reward
    otherwise. *)
Theorem ucb_score_unexplored_parent :
  forall (child : SearchNode) (c_init c_base : R),
    outcome child = None ->
    (0 <= explore_count child)%Z ->
    c_base <> 0%R ->
    (0 < (IZR 0 + c_base + 1) / c_base)%R ->
    alpha_zero_ucb_score child 0 (c_init, c_base)
    = Ok (if (explore_count child =? 0)%Z then 0%R
          else (total_reward child / IZR (explore_count child))%R).
Proof.
  intros child ci cb Ho He Hcb Harg. unfold alpha_zero_ucb_score. rewrite Ho.
  rewrite (truediv_ok _ Hcb). cbn [bind].
  rewrite (math_log_ok Harg). cbn [bind].
  rewrite math_sqrt_ok by lra. cbn [bind].
  rewrite truediv_ok
    by (rewrite plus_IZR; apply IZR_le in He; lra). cbn [bind].
  rewrite sqrt_0. unfold and_int.
  destruct (Z.eqb_spec (explore_count child) 0) as [E|E].
  - cbn [bind]. f_equal. rewrite E. unfold Rdiv. ring.
  - rewrite truediv_ok by (now apply not_0_IZR). cbn [bind].
    f_equal. unfold Rdiv. ring.
Qed.

Lemma ucb_score_unexplored_parent_witness :
  (outcome fresh_child = None /\ (1 : R) <> 0%R)
  /\ alpha_zero_ucb_score fresh_child 0 (3, 1)%R = Ok 0%R.
Proof.
  assert (H1 : (1 : R) <> 0%R) by lra.
  assert (H2 : (0 < (IZR 0 + 1 + 1) / 1)%R) by lra.
  split; [split; [reflexivity|exact H1]|].
  apply (@ucb_score_unexplored_parent fresh_child 3%R 1%R eq_refl);
    [cbv; discriminate | exact H1 | exact H2].
Defined.




(** X8: when the outcome is present the player id is used as a Python index
    into it: an id in [-len, 0) reads from the end (so -1 reads the last
    entry), and an id outside [-len, len) raises IndexError. *)
Theorem ucb_score_player_index :
  forall (child : SearchNode) (o : list R) (parent_explore_count : Z)
         (c_init c_base : R),
    outcome child = Some o ->
    (forall v,
        (- Z.of_nat (List.length o) <= player child < 0)%Z ->
        nth_error o (Z.to_nat (Z.of_nat (List.length o) + player child))
        = Some v ->
        alpha_zero_ucb_score child parent_explore_count (c_init, c_base)
        = Ok v)
    /\ ((player child < - Z.of_nat (List.length o)
         \/ Z.of_nat (List.length o) <= player child)%Z ->
        alpha_zero_ucb_score child parent_explore_count (c_init, c_base)
        = Raise IndexError).
Proof.
  intros child o pec ci cb Ho. unfold alpha_zero_ucb_score. rewrite Ho.
  split.
  - intros v Hp Hn. now apply getitem_negative.
  - intros Hp. now apply getitem_out_of_range.
Qed.

Lemma ucb_score_player_index_witness :
  outcome solved_child = Some [1; -1]%R
  /\ alpha_zero_ucb_score
       {| action := 3; explore_count := 7; total_reward := 2; prior := 1;
          outcome := Some [1; -1]%R; player := 2 |} 10 (5, 19652)%R
     = Raise IndexError.
Proof.
  split; [reflexivity|].
  apply (proj2 (@ucb_score_player_index
                  {| action := 3; explore_count := 7; total_reward := 2;
                     prior := 1; outcome := Some [1; -1]%R; player := 2 |}
                  [1; -1]%R 10 5%R 19652%R eq_refl)).
  right. simpl. lia.
Defined.

(** ** Action selection and the episode loop *)

Lemma max_pairs_spec (l : list (Z * Z)) :
  l <> [] ->
  exists m, max_pairs l = Ok m /\ In m l /\ forall x, In x l -> tuple_le x m.
Proof.
  destruct l as [|h t]; [congruence|]. intros _.
  destruct (max_fold_spec t h) as [Hin Hmax].
  eexists. split; [reflexivity|]. split; [exact Hin|exact Hmax].
Qed.

Lemma tuple_le_antisym (a b : Z * Z) : tuple_le a b -> tuple_le b a -> a = b.
Proof.
  destruct a as [a1 a2], b as [b1 b2]. unfold tuple_le. simpl.
  intros H1 H2. f_equal; lia.
Qed.

Section Selection.

Variables State World : Type.
Variable is_terminal : State -> bool.
Variable observation_tensor : State -> list R.
Variable history : State -> list Z.
Variable apply_action : State -> Z -> State.
Variable np_random_choice : list Float -> World -> Z * World.

Local Abbreviation select_action' := (AlphaZero__select_action np_random_choice).
Local Abbreviation loop' :=
  (play_loop is_terminal observation_tensor history apply_action
             np_random_choice).

Lemma select_action_member (self : AlphaZero State World)
    (cs : list SearchNode) (hl : Z) (w w' : World) (a : Z) :
  select_action' self cs hl w = Ok (a, w') ->
  In a (map action cs)
  /\ ((_action_selection_transition self <= hl)%Z -> w' = w).
Proof.
  unfold AlphaZero__select_action. intros H.
  destruct (Z.ltb_spec hl (_action_selection_transition self)) as [Hlt|Hge].
  - destruct (np_softmax _) as [probs|e]; cbn [bind] in H; [|discriminate H].
    destruct (np_random_choice probs w) as [i w1].
    rewrite getitem_map in H.
    destruct (getitem cs i) as [c|e] eqn:Ec; cbn [bind snd] in H;
      [|discriminate H].
    inversion H; subst. split; [|lia].
    unfold getitem in Ec.
    destruct (_ || _); [discriminate Ec|].
    destruct (nth_error cs _) as [c'|] eqn:En; [|discriminate Ec].
    inversion Ec; subst. apply in_map. eapply nth_error_In. exact En.
  - destruct cs as [|c0 cs]; [discriminate H|].
    destruct (@max_pairs_spec
                (map (fun child => (explore_count child, action child))
                     (c0 :: cs))) as (m & Em & Hin & _); [discriminate|].
    rewrite Em in H. cbn [bind] in H. inversion H; subst.
    split; [|reflexivity].
    apply in_map_iff in Hin. destruct Hin as (c & <- & Hc).
    cbn [snd]. now apply in_map.
Qed.

(** X9: [_select_action] never returns an action that is not the action of
    one of the children, and at or above the transition threshold it leaves
    the random generator untouched; on an empty list of children it raises
    ValueError in both branches. *)
Theorem select_action_returns_child_action :
  forall (self : AlphaZero State World) (cs : list SearchNode)
         (game_history_len : Z) (w : World),
    (cs = [] ->
     exists msg, select_action' self cs game_history_len w
                 = Raise (ValueError msg))
    /\ (forall a w',
           select_action' self cs game_history_len w = Ok (a, w') ->
           In a (map action cs)
           /\ ((_action_selection_transition self <= game_history_len)%Z ->
               w' = w)).
Proof.
  intros self cs hl w. split.
  - intros ->. unfold AlphaZero__select_action.
    destruct (hl <? _action_selection_transition self)%Z; cbn;
      eexists; reflexivity.
  - intros a w' H. now apply select_action_member in H.
Qed.

(** X10: at or above the transition threshold the selected action does not
    depend on the order in which the children are listed. *)
Theorem select_action_greedy_order_independent :
  forall (self : AlphaZero State World) (cs cs' : list SearchNode)
         (game_history_len : Z) (w : World),
    Permutation cs cs' ->
    (_action_selection_transition self <= game_history_len)%Z ->
    select_action' self cs game_history_len w
    = select_action' self cs' game_history_len w.
Proof.
  intros self cs cs' hl w Hperm Hge. unfold AlphaZero__select_action.
  destruct (Z.ltb_spec hl (_action_selection_transition self)) as [Hlt|_];
    [lia|].
  set (f := fun child : SearchNode => (explore_count child, action child)).
  assert (Hp : Permutation (map f cs) (map f cs')) by (now apply Permutation_map).
  destruct cs as [|c0 cs].
  - apply Permutation_nil in Hperm. now subst cs'.
  - assert (Hne' : map f cs' <> []).
    { intros E. rewrite E in Hp. apply Permutation_sym, Permutation_nil in Hp.
      discriminate Hp. }
    destruct (@max_pairs_spec (map f (c0 :: cs))) as (m & Em & Hin & Hmax);
      [discriminate|].
    destruct (max_pairs_spec Hne') as (m' & Em' & Hin' & Hmax').
    rewrite Em, Em'. cbn [bind].
    assert (m = m').
    { apply tuple_le_antisym.
      - apply Hmax'. eapply Permutation_in; [exact Hp|exact Hin].
      - apply Hmax. eapply Permutation_in;
          [apply Permutation_sym; exact Hp|exact Hin']. }
    now subst m'.
Qed.

(** X11: an episode applies only actions of children of the root searched at
    the current state: any property of states that holds of the state the
    loop starts from and is preserved by applying, at a non-terminal state, the
    action of a child of a root the search returned for it, holds of the
    terminal state the loop ends in. *)
Theorem play_loop_applies_child_actions :
  forall (Inv : State -> Prop) (fuel : nat) (self : AlphaZero State World)
         (state : State) (observations policy_target : list (list R))
         (w : World) sT obs pols w',
    (forall s w0 root w1 c,
        Inv s -> is_terminal s = false ->
        mcts_search (bot self) s w0 = Ok (root, w1) ->
        In c (children root) ->
        Inv (apply_action s (action c))) ->
    Inv state ->
    loop' fuel self state observations policy_target w
    = Some (Ok (sT, obs, pols, w')) ->
    Inv sT /\ is_terminal sT = true.
Proof.
  intros Inv fuel self. induction fuel as [|fuel IH];
    intros state observations policy_target w sT obs pols w' Hstep Hinv H;
    cbn [play_loop] in H; [discriminate H|].
  destruct (is_terminal state) eqn:Ht.
  - inversion H; subst. now split.
  - destruct (mcts_search (bot self) state w) as [[root w1]|e] eqn:Es;
      [|discriminate H].
    destruct (step_target_policy (game self) (children root)) as [tp|e];
      [|discriminate H].
    destruct (select_action' self (children root) _ w1) as [[a w2]|e] eqn:Ea;
      [|discriminate H].
    apply select_action_member in Ea. destruct Ea as [Hin _].
    apply in_map_iff in Hin. destruct Hin as (c & <- & Hc).
    eapply IH; [exact Hstep| |exact H].
    eapply Hstep; eauto.
Qed.

End Selection.

Lemma select_action_greedy_order_independent_witness :
  (Permutation (children Toy.root) (rev (children Toy.root))
   /\ (_action_selection_transition Toy.controller <= 0)%Z)
  /\ AlphaZero__select_action Toy.np_random_choice Toy.controller
       (children Toy.root) 0 0%nat
     = AlphaZero__select_action Toy.np_random_choice Toy.controller
         (rev (children Toy.root)) 0 0%nat.
Proof.
  assert (Hp : Permutation (children Toy.root) (rev (children Toy.root)))
    by apply Permutation_rev.
  assert (Hge : (_action_selection_transition Toy.controller <= 0)%Z)
    by (simpl; lia).
  split; [split; [exact Hp|exact Hge]|].
  apply (@select_action_greedy_order_independent Toy.State Toy.World
           Toy.np_random_choice Toy.controller _ _ 0%Z 0%nat Hp Hge).
Defined.

Lemma play_loop_applies_child_actions_witness :
  exists sT obs pols w',
    play_loop Toy.is_terminal Toy.observation_tensor Toy.history
      Toy.apply_action Toy.np_random_choice 3 Toy.controller [] [] [] 0%nat
    = Some (Ok (sT, obs, pols, w'))
    /\ (forall a, In a sT -> a = 0%Z \/ a = 1%Z)
    /\ Toy.is_terminal sT = true.
Proof.
  eexists. eexists. eexists. eexists. split; [reflexivity|].
  eapply (@play_loop_applies_child_actions Toy.State Toy.World Toy.is_terminal
            Toy.observation_tensor Toy.history Toy.apply_action
            Toy.np_random_choice
            (fun s => forall a, In a s -> a = 0%Z \/ a = 1%Z)
            3 Toy.controller [] [] [] 0%nat).
  - intros s w0 root w1 c Hs _ Hsearch Hc a Ha.
    inversion Hsearch; subst root.
    unfold Toy.apply_action in Ha. apply in_app_or in Ha.
    destruct Ha as [Ha|[<-|[]]]; [now apply Hs|].
    destruct Hc as [<-|[<-|[]]]; simpl; [now left|now right].
  - intros a [].
  - reflexivity.
Defined.

(** ** The target policy: bounds and overwriting *)

Lemma setitem_out_of_range {A} (l : list A) (i : Z) (x : A) :
  (i < - Z.of_nat (List.length l) \/ Z.of_nat (List.length l) <= i)%Z ->
  setitem l i x = Raise IndexError.
Proof.
  intros Hi. unfold setitem.
  destruct (Z.ltb_spec i 0) as [H0|H0].
  - destruct (Z.ltb_spec (i + Z.of_nat (List.length l)) 0) as [H|H];
      [reflexivity|lia].
  - destruct (Z.ltb_spec i 0) as [H|_]; [lia|].
    destruct (Z.leb_spec (Z.of_nat (List.length l)) i) as [_|H];
      [reflexivity|lia].
Qed.

Lemma setitem_cases {A} (l : list A) (i : Z) (x : A) :
  setitem l i x = Raise IndexError
  \/ exists l', setitem l i x = Ok l' /\ List.length l' = List.length l.
Proof.
  unfold setitem. destruct (_ || _); [now left|right].
  eexists. split; [reflexivity|apply length_update_nth].
Qed.

Lemma setitem_ok_inv {A} (l l' : list A) (i : Z) (x : A) :
  setitem l i x = Ok l' -> (0 <= i)%Z ->
  (Z.to_nat i < List.length l)%nat /\ l' = update_nth l (Z.to_nat i) x.
Proof.
  unfold setitem. intros H Hi.
  destruct (Z.ltb_spec i 0) as [H0|_]; [lia|].
  destruct (Z.ltb_spec i 0) as [H0|_]; [lia|].
  destruct (Z.leb_spec (Z.of_nat (List.length l)) i) as [H0|H0];
    [discriminate H|].
  simpl in H. inversion H. split; [lia|reflexivity].
Qed.

Lemma fill_counts_out_of_range (cs : list SearchNode) :
  forall tp : list R,
    (exists c, In c cs
               /\ (action c < - Z.of_nat (List.length tp)
                   \/ Z.of_nat (List.length tp) <= action c)%Z) ->
    fill_counts tp cs = Raise IndexError.
Proof.
  induction cs as [|c cs IH]; intros tp (c0 & Hin & Hout); [destruct Hin|].
  simpl.
  destruct (setitem_cases tp (action c) (IZR (explore_count c)))
    as [E|(tp1 & E & Hlen)]; rewrite E; cbn [bind]; [reflexivity|].
  destruct Hin as [->|Hin].
  - rewrite (setitem_out_of_range _ _ Hout) in E. discriminate E.
  - apply IH. exists c0. split; [exact Hin|]. now rewrite Hlen.
Qed.

Lemma fill_counts_app (l1 l2 : list SearchNode) :
  forall tp : list R,
    fill_counts tp (l1 ++ l2)
    = (tp1 <- fill_counts tp l1 ;; fill_counts tp1 l2).
Proof.
  induction l1 as [|c l1 IH]; intros tp; simpl; [reflexivity|].
  destruct (setitem tp (action c) (IZR (explore_count c))); cbn [bind];
    [apply IH|reflexivity].
Qed.

Lemma fill_counts_frame (cs : list SearchNode) :
  forall (tp1 tp : list R) (k : nat),
    fill_counts tp1 cs = Ok tp ->
    (forall c, In c cs -> (0 <= action c)%Z /\ Z.to_nat (action c) <> k) ->
    nth_error tp k = nth_error tp1 k.
Proof.
  induction cs as [|c cs IH]; intros tp1 tp k H Hk; simpl in H.
  - now inversion H.
  - destruct (setitem tp1 (action c) (IZR (explore_count c))) as [tp2|e] eqn:E;
      cbn [bind] in H; [|discriminate H].
    destruct (Hk c (or_introl eq_refl)) as [H0 Hne].
    destruct (setitem_ok_inv _ _ E H0) as [_ ->].
    rewrite (IH _ _ k H) by (intros; apply Hk; now right).
    now apply nth_error_update_nth_neq.
Qed.

(** X12: the counts are assigned, not accumulated: when several children
    carry the same action-id, the entry of the (not yet normalised) target
    policy at that id is the explore count of the last of them; what earlier
    children wrote there is overwritten. *)
Theorem fill_counts_last_write_wins :
  forall (l1 l2 : list SearchNode) (c : SearchNode) (tp0 tp : list R),
    fill_counts tp0 (l1 ++ c :: l2) = Ok tp ->
    (0 <= action c)%Z ->
    (forall c', In c' l2 -> (0 <= action c')%Z /\ action c' <> action c) ->
    nth_error tp (Z.to_nat (action c)) = Some (IZR (explore_count c)).
Proof.
  intros l1 l2 c tp0 tp H Hc Hl2.
  rewrite fill_counts_app in H.
  destruct (fill_counts tp0 l1) as [tp1|e]; cbn [bind] in H; [|discriminate H].
  simpl in H.
  destruct (setitem tp1 (action c) (IZR (explore_count c))) as [tp2|e] eqn:E;
    cbn [bind] in H; [|discriminate H].
  destruct (setitem_ok_inv _ _ E Hc) as [Hlt ->].
  rewrite (fill_counts_frame _ _ H).
  - now apply nth_error_update_nth_eq.
  - intros c' Hc'. destruct (Hl2 c' Hc') as [H0 Hne]. split; [exact H0|lia].
Qed.

Lemma fill_counts_last_write_wins_witness :
  exists tp : list R,
    fill_counts [0; 0]%R
      ([ {| action := 0; explore_count := 5; total_reward := 0; prior := 1;
            outcome := None; player := 0 |} ]
       ++ {| action := 0; explore_count := 2; total_reward := 0; prior := 1;
             outcome := None; player := 0 |} :: []) = Ok tp
    /\ nth_error tp 0 = Some 2%R.
Proof.
  eexists. split; [reflexivity|].
  apply (@fill_counts_last_write_wins
           [ {| action := 0; explore_count := 5; total_reward := 0; prior := 1;
                outcome := None; player := 0 |} ] []
           {| action := 0; explore_count := 2; total_reward := 0; prior := 1;
              outcome := None; player := 0 |} [0; 0]%R _ eq_refl).
  - simpl. lia.
  - intros c' [].
Defined.

Section TargetPolicy.

Variable State : Type.

(** X13: a child whose action-id lies outside the action space (at or above
    num_distinct_actions, or below its negative) makes the construction of
    the step's target policy, and with it the episode, raise IndexError. *)
Theorem target_policy_action_out_of_range :
  forall (g : Game State) (cs : list SearchNode),
    (0 <= num_distinct_actions g)%Z ->
    (exists c, In c cs
               /\ (action c < - num_distinct_actions g
                   \/ num_distinct_actions g <= action c)%Z) ->
    step_target_policy g cs = Raise IndexError.
Proof.
  intros g cs Hn (c & Hc & Hout). unfold step_target_policy, np_zeros.
  destruct (Z.ltb_spec (num_distinct_actions g) 0) as [H|_]; [lia|].
  cbn [bind]. rewrite fill_counts_out_of_range; [reflexivity|].
  exists c. split; [exact Hc|]. rewrite repeat_length. lia.
Qed.

(** X14: for well-formed children, one of them explored, every entry of the
    step's target policy is a probability: it lies between 0 and 1. *)
Theorem target_policy_entries_are_probabilities :
  forall (g : Game State) (cs : list SearchNode),
    well_formed_children g cs ->
    (exists c, In c cs /\ (0 < explore_count c)%Z) ->
    exists tp : list R,
      step_target_policy g cs = Ok tp
      /\ forall p, In p tp -> (0 <= p <= 1)%R.
Proof.
  intros g cs Hwf Hpos.
  destruct (step_target_policy_spec Hwf Hpos)
    as (tp & Htp & Hlen & Hzero & Hshare & _).
  exists tp. split; [exact Htp|].
  intros p Hp. apply In_nth_error in Hp. destruct Hp as [k Hk].
  assert (Hklt : (k < List.length tp)%nat)
    by (apply nth_error_Some; rewrite Hk; discriminate).
  destruct Hwf as (Hrange & _ & Hnn).
  assert (Hs := counts_sum_pos cs Hnn Hpos).
  destruct (in_dec Z.eq_dec (Z.of_nat k) (map action cs)) as [Hin|Hnotin].
  - apply in_map_iff in Hin. destruct Hin as (c & Ec & Hc).
    specialize (Hshare c Hc). rewrite Ec, Nat2Z.id, Hk in Hshare.
    inversion Hshare as [Ep]. clear Hshare.
    assert (H0 : (0 <= IZR (explore_count c))%R) by (apply IZR_le, Hnn, Hc).
    assert (H1 : (IZR (explore_count c)
                  <= Py.sum (map (fun c' => IZR (explore_count c')) cs))%R).
    { apply (sum_ge_member (fun c' => IZR (explore_count c'))); [|exact Hc].
      intros c' Hc'. apply IZR_le, Hnn, Hc'. }
    split.
    + apply Rmult_le_pos; [exact H0|]. apply Rlt_le. now apply Rinv_0_lt_compat.
    + apply (Rmult_le_reg_r
               (Py.sum (map (fun c' => IZR (explore_count c')) cs)));
        [exact Hs|].
      unfold Rdiv. rewrite Rmult_assoc, Rinv_l, Rmult_1_r, Rmult_1_l by lra.
      exact H1.
  - assert (Hz : nth_error tp (Z.to_nat (Z.of_nat k)) = Some 0%R)
      by (apply Hzero; [lia|exact Hnotin]).
    rewrite Nat2Z.id, Hk in Hz. inversion Hz. lra.
Qed.

End TargetPolicy.

Lemma target_policy_action_out_of_range_witness :
  (0 <= num_distinct_actions Toy.game)%Z
  /\ step_target_policy Toy.game
       [ {| action := 2; explore_count := 1; total_reward := 0; prior := 1;
            outcome := None; player := 0 |} ]
     = Raise IndexError.
Proof.
  assert (Hn : (0 <= num_distinct_actions Toy.game)%Z) by (simpl; lia).
  split; [exact Hn|].
  apply (@target_policy_action_out_of_range Toy.State Toy.game _ Hn).
  eexists. split; [left; reflexivity|]. right. simpl. lia.
Defined.

Lemma target_policy_entries_are_probabilities_witness :
  well_formed_children Toy.game (children Toy.root)
  /\ exists tp : list R,
       step_target_policy Toy.game (children Toy.root) = Ok tp
       /\ forall p, In p tp -> (0 <= p <= 1)%R.
Proof.
  split; [exact toy_children_well_formed|].
  apply (@target_policy_entries_are_probabilities Toy.State Toy.game
           (children Toy.root) toy_children_well_formed toy_children_visited).
Defined.

(** ** Episodes *)

Lemma emit_total (steps : list (list R * list R)) (terminal_rewards : list R) :
  (2 <= List.length terminal_rewards)%nat ->
  forall (i : nat) (b : ReplayBuffer),
    exists b', emit i steps terminal_rewards b = Ok b'.
Proof.
  intros Hlen. induction steps as [|[obs pol] steps IH]; intros i b; simpl.
  - now exists b.
  - assert (Hm : (0 <= Z.of_nat i mod 2 < 2)%Z)
      by (apply Z.mod_pos_bound; lia).
    destruct (nth_error terminal_rewards (Z.to_nat (Z.of_nat i mod 2)))
      as [v|] eqn:En.
    + rewrite (@getitem_nonneg _ terminal_rewards _ v) by (lia || exact En).
      cbn [bind]. apply IH.
    + apply nth_error_None in En. lia.
Qed.

Lemma emit_no_rewards (steps : list (list R * list R)) (i : nat)
    (b : ReplayBuffer) :
  steps <> [] -> emit i steps [] b = Raise IndexError.
Proof.
  destruct steps as [|[obs pol] steps]; [congruence|]. intros _. simpl.
  rewrite getitem_out_of_range; [reflexivity|].
  assert (Hm : (0 <= Z.of_nat i mod 2 < 2)%Z) by (apply Z.mod_pos_bound; lia).
  right. simpl. lia.
Qed.

Section Episode.

Variables State World : Type.
Variable is_terminal : State -> bool.
Variable observation_tensor : State -> list R.
Variable history : State -> list Z.
Variable rewards : State -> list R.
Variable apply_action : State -> Z -> State.
Variable np_random_choice : list Float -> World -> Z * World.

Local Abbreviation episode :=
  (AlphaZero__self_play_single is_terminal observation_tensor history rewards
                               apply_action np_random_choice).
Local Abbreviation episode_loop :=
  (play_loop is_terminal observation_tensor history apply_action
             np_random_choice).

(** X15: when the game's initial state is already terminal, an episode
    searches nothing, draws nothing and adds nothing: the controller and the
    world are returned as they were. *)
Theorem self_play_single_terminal_start :
  forall (fuel : nat) (self : AlphaZero State World) (w : World),
    is_terminal (new_initial_state (game self)) = true ->
    episode (S fuel) self w = Some (Ok (self, w)).
Proof.
  intros fuel self w Ht. unfold AlphaZero__self_play_single.
  cbn [play_loop]. rewrite Ht. cbn [combine emit].
  now destruct self.
Qed.

(** X16: once the loop of an episode has ended, emitting the transitions
    succeeds whenever the terminal reward vector has at least two entries,
    and raises IndexError when it is empty and at least one step was
    recorded. *)
Theorem self_play_single_emission :
  forall (fuel : nat) (self : AlphaZero State World) (w w' : World)
         (sT : State) (obs pols : list (list R)),
    episode_loop fuel self (new_initial_state (game self)) [] [] w
    = Some (Ok (sT, obs, pols, w')) ->
    ((2 <= List.length (rewards sT))%nat ->
     exists self', episode fuel self w = Some (Ok (self', w')))
    /\ (rewards sT = [] -> obs <> [] ->
        episode fuel self w = Some (Raise IndexError)).
Proof.
  intros fuel self w w' sT obs pols Hl.
  unfold AlphaZero__self_play_single. rewrite Hl. split.
  - intros Hlen.
    destruct (@emit_total (combine obs pols) (rewards sT) Hlen 0 (buffer self))
      as [b Hb].
    rewrite Hb. eexists. reflexivity.
  - intros Hr Hobs. rewrite Hr, emit_no_rewards; [reflexivity|].
    assert (Hlen := Hl). apply play_loop_result in Hlen; [|reflexivity].
    destruct Hlen as [_ Hlen].
    destruct obs as [|o obs]; [congruence|].
    destruct pols as [|p pols]; [discriminate Hlen|discriminate].
Qed.

End Episode.

Lemma self_play_single_terminal_start_witness :
  Toy.always_terminal (new_initial_state (game Toy.controller)) = true
  /\ AlphaZero__self_play_single Toy.always_terminal Toy.observation_tensor
       Toy.history Toy.rewards Toy.apply_action Toy.np_random_choice
       1 Toy.controller 0%nat = Some (Ok (Toy.controller, 0%nat)).
Proof.
  split; [reflexivity|].
  apply (@self_play_single_terminal_start Toy.State Toy.World
           Toy.always_terminal Toy.observation_tensor Toy.history Toy.rewards
           Toy.apply_action Toy.np_random_choice 0 Toy.controller 0%nat
           eq_refl).
Defined.

Lemma self_play_single_emission_witness :
  exists sT obs pols w',
    play_loop Toy.is_terminal Toy.observation_tensor Toy.history
      Toy.apply_action Toy.np_random_choice 3 Toy.controller
      (new_initial_state (game Toy.controller)) [] [] 0%nat
    = Some (Ok (sT, obs, pols, w'))
    /\ exists self',
         AlphaZero__self_play_single Toy.is_terminal Toy.observation_tensor
           Toy.history Toy.rewards Toy.apply_action Toy.np_random_choice
           3 Toy.controller 0%nat = Some (Ok (self', w')).
Proof.
  eexists. eexists. eexists. eexists. split; [reflexivity|].
  eapply (proj1 (@self_play_single_emission Toy.State Toy.World
                   Toy.is_terminal Toy.observation_tensor Toy.history
                   Toy.rewards Toy.apply_action Toy.np_random_choice
                   3 Toy.controller 0%nat _ _ _ _ eq_refl)).
  simpl. lia.
Defined.

(** ** Outcomes of the construction *)

Section ConstructionOutcomes.

Variables State World RandomState : Type.

Lemma init_raises_when_invalid (g : Game State) (b : MCTSBot State World)
    (cap ast nspg ntr bs : Z) (rs : option RandomState) :
  meets_preconditions g = false ->
  exists e, AlphaZero_init g b cap ast nspg ntr bs rs = Raise e.
Proof.
  unfold meets_preconditions, AlphaZero_init, format_attr. intros H.
  destruct (num_players g =? 2)%Z; cbn [negb]; [|eexists; reflexivity].
  destruct (ChanceMode_eqb _ _); cbn [negb];
    [|destruct (getattr g "chance_mode"); eexists; reflexivity].
  destruct (Information_eqb _ _); cbn [negb];
    [|destruct (getattr g "information"); eexists; reflexivity].
  destruct (Dynamics_eqb _ _); cbn [negb];
    [|destruct (getattr g "dynamics"); eexists; reflexivity].
  destruct (Utility_eqb _ _); cbn [negb];
    [|destruct (getattr g "utility"); eexists; reflexivity].
  discriminate H.
Qed.

(** X17: the construction returns an object exactly for the games that meet
    the five preconditions; the object then holds an empty replay buffer of
    the requested capacity and the given game, bot and settings; and the
    second player-count check of the constructor is dead: its message "Game
    must have exactly 2 players." is never raised. *)
Theorem init_outcomes :
  forall (g : Game State) (b : MCTSBot State World)
         (cap ast nspg ntr bs : Z) (rs : option RandomState),
    (meets_preconditions g = true
     <-> exists self, AlphaZero_init g b cap ast nspg ntr bs rs = Ok self)
    /\ (forall self,
           AlphaZero_init g b cap ast nspg ntr bs rs = Ok self ->
           items (buffer self) = [] /\ capacity (buffer self) = cap
           /\ game self = g /\ bot self = b
           /\ num_self_play_games self = nspg
           /\ _action_selection_transition self = ast
           /\ batch_size self = bs)
    /\ AlphaZero_init g b cap ast nspg ntr bs rs
       <> Raise (ValueError "Game must have exactly 2 players.").
Proof.
  intros g b cap ast nspg ntr bs rs.
  destruct (meets_preconditions g) eqn:Em.
  - rewrite (@init_accepts_valid_game _ _ _ g b cap ast nspg ntr bs rs Em).
    split; [split; [eexists; reflexivity|reflexivity]|].
    split; [|discriminate].
    intros self H. inversion H. now repeat split.
  - split; [|split].
    + split; [discriminate|].
      intros [self H].
      destruct (@init_raises_when_invalid g b cap ast nspg ntr bs rs Em) as [e He].
      rewrite He in H. discriminate H.
    + intros self H.
      destruct (@init_raises_when_invalid g b cap ast nspg ntr bs rs Em) as [e He].
      rewrite He in H. discriminate H.
    + unfold meets_preconditions in Em. unfold AlphaZero_init, format_attr.
      destruct (num_players g =? 2)%Z; cbn [negb]; [|discriminate].
      destruct (ChanceMode_eqb _ _); cbn [negb];
        [|destruct (getattr g "chance_mode"); discriminate].
      destruct (Information_eqb _ _); cbn [negb];
        [|destruct (getattr g "information"); discriminate].
      destruct (Dynamics_eqb _ _); cbn [negb];
        [|destruct (getattr g "dynamics"); discriminate].
      destruct (Utility_eqb _ _); cbn [negb];
        [|destruct (getattr g "utility"); discriminate].
      discriminate Em.
Qed.

(** X18: the error of a rejected game does not depend on the actual values
    reported by [get_type()]: two game objects with the same player count and
    the same attributes of their own that pass and fail the same checks are
    rejected with the same exception. *)
Theorem init_error_ignores_actual_value :
  forall (g g' : Game State) (b b' : MCTSBot State World)
         (cap ast nspg ntr bs cap' ast' nspg' ntr' bs' : Z)
         (rs rs' : option RandomState) (e : Exn),
    num_players g = num_players g' ->
    (forall name, getattr g name = getattr g' name) ->
    ChanceMode_eqb (chance_mode (get_type g)) DETERMINISTIC
    = ChanceMode_eqb (chance_mode (get_type g')) DETERMINISTIC ->
    Information_eqb (information (get_type g)) PERFECT_INFORMATION
    = Information_eqb (information (get_type g')) PERFECT_INFORMATION ->
    Dynamics_eqb (dynamics (get_type g)) SEQUENTIAL
    = Dynamics_eqb (dynamics (get_type g')) SEQUENTIAL ->
    Utility_eqb (utility (get_type g)) ZERO_SUM
    = Utility_eqb (utility (get_type g')) ZERO_SUM ->
    AlphaZero_init g b cap ast nspg ntr bs rs = Raise e ->
    AlphaZero_init g' b' cap' ast' nspg' ntr' bs' rs' = Raise e.
Proof.
  intros g g' b b' cap ast nspg ntr bs cap' ast' nspg' ntr' bs' rs rs' e
    Hn Ha Hc Hi Hd Hu H.
  unfold AlphaZero_init, format_attr in *.
  rewrite <- Hn, <- Hc, <- Hi, <- Hd, <- Hu, <- !Ha.
  destruct (num_players g =? 2)%Z; cbn [negb] in *; [|exact H].
  destruct (ChanceMode_eqb _ _); cbn [negb] in *;
    [|destruct (getattr g "chance_mode"); exact H].
  destruct (Information_eqb _ _); cbn [negb] in *;
    [|destruct (getattr g "information"); exact H].
  destruct (Dynamics_eqb _ _); cbn [negb] in *;
    [|destruct (getattr g "dynamics"); exact H].
  destruct (Utility_eqb _ _); cbn [negb] in *;
    [|destruct (getattr g "utility"); exact H].
  discriminate H.
Qed.

End ConstructionOutcomes.

Lemma init_error_ignores_actual_value_witness :
  exists e : Exn,
    AlphaZero_init Toy.explicit_stochastic_game Toy.bot 10 0 1 1 2 (@None unit)
    = Raise e
    /\ AlphaZero_init Toy.sampled_stochastic_game Toy.bot 5 3 2 7 4
         (@None unit) = Raise e.
Proof.
  eexists. split; [reflexivity|].
  apply (@init_error_ignores_actual_value Toy.State Toy.World unit
           Toy.explicit_stochastic_game Toy.sampled_stochastic_game
           Toy.bot Toy.bot 10 0 1 1 2 5 3 2 7 4 None None _
           eq_refl (fun _ => eq_refl) eq_refl eq_refl eq_refl eq_refl eq_refl).
Defined.

(** ** The evaluator: shapes and signs *)

Lemma gather_actions (policy : list R) (legal : list Z) :
  forall pol, gather policy legal = Ok pol -> map fst pol = legal.
Proof.
  induction legal as [|a legal IH]; intros pol H; simpl in H.
  - now inversion H.
  - destruct (getitem policy a) as [p|e]; cbn [bind] in H; [|discriminate H].
    destruct (gather policy legal) as [ps|e]; cbn [bind] in H;
      [|discriminate H].
    inversion H. simpl. f_equal. now apply IH.
Qed.

(** X19: whenever [value_and_prior] returns, whatever the model produced,
    the policy lists the state's legal actions, each once per occurrence and
    in the order [legal_actions()] gives them, and the value vector has two
    entries that are opposite, so it sums to 0. *)
Theorem value_and_prior_shape :
  forall (State : Type) (observation_tensor : State -> list R)
         (legal_actions legal_actions_mask : State -> list Z)
         (self : AlphaZeroKerasEvaluator) (state : State)
         (value : list R) (pol : list (Z * R)),
    AlphaZeroKerasEvaluator_value_and_prior observation_tensor legal_actions
      legal_actions_mask self state = Ok (value, pol) ->
    map fst pol = legal_actions state
    /\ (exists v : R, value = [v; (- v)%R])
    /\ Py.sum value = 0%R.
Proof.
  intros State observation_tensor legal_actions legal_actions_mask self state
    value pol H.
  unfold AlphaZeroKerasEvaluator_value_and_prior in H.
  destruct (call (model self) false [observation_tensor state])
    as [vals logits].
  destruct (getitem logits 0) as [l0|e]; cbn [bind] in H; [|discriminate H].
  destruct (np_masked_softmax l0 (legal_actions_mask state)) as [sm|e];
    cbn [bind] in H; [|discriminate H].
  destruct (gather sm (legal_actions state)) as [ps|e] eqn:Eg;
    cbn [bind] in H; [|discriminate H].
  destruct (getitem vals 0) as [row|e]; cbn [bind] in H; [|discriminate H].
  destruct (getitem row 0) as [v|e]; cbn [bind] in H; [|discriminate H].
  inversion H; subst. split; [now apply gather_actions in Eg|].
  split; [now exists v|].
  rewrite !sum_cons, sum_nil. lra.
Qed.

Lemma value_and_prior_shape_witness :
  exists (value : list R) (pol : list (Z * R)),
    AlphaZeroKerasEvaluator_value_and_prior Toy.observation_tensor
      Toy.legal_actions Toy.legal_actions_mask Toy.keras_evaluator []
    = Ok (value, pol)
    /\ map fst pol = [1%Z]
    /\ Py.sum value = 0%R.
Proof.
  eexists. eexists. split; [reflexivity|].
  destruct (@value_and_prior_shape Toy.State Toy.observation_tensor
              Toy.legal_actions Toy.legal_actions_mask Toy.keras_evaluator []
              _ _ eq_refl) as (Hf & _ & Hs).
  split; [exact Hf|exact Hs].
Defined.

Lemma np_vstack_uniform (rows r : list (list R)) :
  np_vstack rows = Ok r ->
  forall r1 r2, In r1 rows -> In r2 rows -> List.length r1 = List.length r2.
Proof.
  unfold np_vstack. destruct rows as [|h t]; [discriminate|].
  destruct (forallb _ t) eqn:Ef; [|discriminate]. intros _.
  assert (Hall : forall x, In x (h :: t) -> List.length x = List.length h).
  { intros x [<-|Hx]; [reflexivity|].
    rewrite forallb_forall in Ef. apply Nat.eqb_eq. now apply Ef. }
  intros r1 r2 H1 H2. now rewrite (Hall r1 H1), (Hall r2 H2).
Qed.

Lemma update_inv
    (apply_gradients :
       KerasModel -> list (list R) -> list (list R) -> list (list R)
       -> KerasModel)
    (self self' : AlphaZeroKerasEvaluator) (batch : list MCTSResult)
    (lv : LossValues) :
  AlphaZeroKerasEvaluator_update apply_gradients self batch = Ok (lv, self') ->
  exists values logits loss_value rows,
    call (model self) true (map observation batch) = (values, logits)
    /\ np_vstack (map observation batch) = Ok (map observation batch)
    /\ np_vstack (map target_policy batch) = Ok (map target_policy batch)
    /\ Tf.mean_squared_error values (map (fun e => [target_value e]) batch)
       = Ok loss_value
    /\ Tf.softmax_cross_entropy_with_logits_v2 logits
         (map target_policy batch) = Ok rows
    /\ value lv = loss_value
    /\ policy lv = Tf.reduce_mean rows
    /\ l2 lv
       = fold_left (fun acc weights =>
                      (acc + l2_regularization self * Tf.l2_loss weights)%R)
                   (trainable_variables (model self)) 0%R
    /\ total lv = Tf.add (Tf.add (policy lv) (value lv)) (l2 lv).
Proof.
  intros H. unfold AlphaZeroKerasEvaluator_update in H.
  destruct (np_vstack (map observation batch)) as [obs|e] eqn:Eo;
    cbn [bind] in H; [|discriminate H].
  destruct (np_vstack (map (fun e => [target_value e]) batch)) as [tv|e] eqn:Ev;
    cbn [bind] in H; [|discriminate H].
  destruct (np_vstack (map target_policy batch)) as [tp|e] eqn:Ep;
    cbn [bind] in H; [|discriminate H].
  destruct (np_vstack_ok _ Eo) as [-> _].
  destruct (np_vstack_ok _ Ev) as [-> _].
  destruct (np_vstack_ok _ Ep) as [-> _].
  destruct (call (model self) true (map observation batch))
    as [values logits].
  destruct (Tf.mean_squared_error values _) as [loss_value|e] eqn:Em;
    cbn [bind] in H; [|discriminate H].
  destruct (Tf.softmax_cross_entropy_with_logits_v2 logits _) as [rows|e] eqn:Es;
    cbn [bind] in H; [|discriminate H].
  inversion H; subst lv self'. cbn [total policy value l2].
  exists values, logits, loss_value, rows. now repeat split.
Qed.

(** X20: the evaluator's update raises ValueError on an empty batch, and it
    returns only for batches whose observations all have one length and whose
    target policies all have one length. *)
Theorem update_requires_uniform_batch :
  forall (apply_gradients :
            KerasModel -> list (list R) -> list (list R) -> list (list R)
            -> KerasModel)
         (self : AlphaZeroKerasEvaluator) (batch : list MCTSResult),
    AlphaZeroKerasEvaluator_update apply_gradients self []
    = Raise (ValueError "need at least one array to concatenate")
    /\ (forall lv self',
           AlphaZeroKerasEvaluator_update apply_gradients self batch
           = Ok (lv, self') ->
           batch <> []
           /\ forall e1 e2, In e1 batch -> In e2 batch ->
                List.length (observation e1) = List.length (observation e2)
                /\ List.length (target_policy e1)
                   = List.length (target_policy e2)).
Proof.
  intros ag self batch. split; [reflexivity|].
  intros lv self' H.
  destruct (update_inv _ _ _ H)
    as (values & logits & lvv & rows & _ & Eo & Ep & _).
  split.
  - apply np_vstack_ok in Eo. destruct Eo as [_ Hne].
    intros ->. now apply Hne.
  - intros e1 e2 H1 H2. split.
    + apply (np_vstack_uniform _ Eo); now apply in_map.
    + apply (np_vstack_uniform _ Ep); now apply in_map.
Qed.

Lemma div_INR_nonneg (x : R) (n : nat) : (0 <= x)%R -> (0 <= x / INR n)%R.
Proof.
  intros Hx. unfold Rdiv. apply Rmult_le_pos; [exact Hx|].
  destruct n as [|n].
  - simpl. rewrite Rinv_0. lra.
  - apply Rlt_le, Rinv_0_lt_compat, lt_0_INR. lia.
Qed.

Lemma logit_le_logsumexp (logits : list R) (x : R) :
  In x logits -> (x <= ln (Py.sum (map exp logits)))%R.
Proof.
  intros Hx.
  assert (Hle : (exp x <= Py.sum (map exp logits))%R).
  { apply (sum_ge_member exp); [|exact Hx]. intros y _. apply Rlt_le, exp_pos. }
  rewrite <- (ln_exp x) at 1.
  destruct Hle as [Hlt|Heq]; [|rewrite Heq; lra].
  apply Rlt_le, ln_increasing; [apply exp_pos|exact Hlt].
Qed.

Lemma cross_entropy_row_nonneg (logits labels : list R) :
  (forall t, In t labels -> 0 <= t)%R ->
  (0 <= Tf.cross_entropy_row logits labels)%R.
Proof.
  intros Hl. unfold Tf.cross_entropy_row.
  assert (H : (0 <= Py.sum (map (fun ll : R * R =>
                     - (snd ll * (fst ll - ln (Py.sum (map exp logits)))))
                   (combine logits labels)))%R).
  { apply sum_nonneg. intros z Hz. apply in_map_iff in Hz.
    destruct Hz as ([x y] & <- & Hin). cbn [fst snd].
    assert (0 <= y)%R by (apply Hl; eapply in_combine_r; exact Hin).
    assert (x <= ln (Py.sum (map exp logits)))%R
      by (apply logit_le_logsumexp; eapply in_combine_l; exact Hin).
    nra. }
  assert (E : forall l : list (R * R),
             Py.sum (map (fun ll => - (snd ll * (fst ll - ln (Py.sum (map exp logits)))))%R l)
             = (- Py.sum (map (fun ll => snd ll * (fst ll - ln (Py.sum (map exp logits))))%R l))%R).
  { induction l as [|a l IHl]; simpl.
    - rewrite !sum_nil. lra.
    - rewrite !sum_cons, IHl. lra. }
  rewrite E in H. exact H.
Qed.

(** X21: with a non-negative regularization coefficient and target policies
    without negative entries, none of the losses the update reports is
    negative. *)
Theorem update_losses_nonnegative :
  forall (apply_gradients :
            KerasModel -> list (list R) -> list (list R) -> list (list R)
            -> KerasModel)
         (self self' : AlphaZeroKerasEvaluator)
         (batch : list MCTSResult) (lv : LossValues),
    AlphaZeroKerasEvaluator_update apply_gradients self batch = Ok (lv, self') ->
    (0 <= l2_regularization self)%R ->
    (forall e t, In e batch -> In t (target_policy e) -> 0 <= t)%R ->
    (0 <= value lv)%R /\ (0 <= policy lv)%R /\ (0 <= l2 lv)%R
    /\ (0 <= total lv)%R.
Proof.
  intros ag self self' batch lv H Hreg Htp.
  destruct (update_inv _ _ _ H)
    as (values & logits & lvv & rows & _ & _ & _ & Em & Es & Ev & Epol & El & Et).
  assert (Hv : (0 <= value lv)%R).
  { rewrite Ev. unfold Tf.mean_squared_error in Em.
    destruct (same_shape values _); cbn [negb] in Em; [|discriminate Em].
    inversion Em. apply div_INR_nonneg, sum_nonneg.
    intros z Hz. apply in_map_iff in Hz. destruct Hz as (lp & <- & _).
    apply Rle_0_sqr. }
  assert (Hp : (0 <= policy lv)%R).
  { rewrite Epol. unfold Tf.softmax_cross_entropy_with_logits_v2 in Es.
    destruct (same_shape logits _); cbn [negb] in Es; [|discriminate Es].
    inversion Es. unfold Tf.reduce_mean. apply div_INR_nonneg, sum_nonneg.
    intros z Hz. apply in_map_iff in Hz. destruct Hz as ([l t] & <- & Hin).
    cbn [fst snd]. apply cross_entropy_row_nonneg.
    intros x Hx. apply in_combine_r in Hin. apply in_map_iff in Hin.
    destruct Hin as (e & <- & He). now apply (Htp e). }
  assert (Hl : (0 <= l2 lv)%R).
  { rewrite El, l2_fold.
    assert (0 <= sum_of_squares (trainable_variables (model self)))%R.
    { unfold sum_of_squares. apply sum_nonneg. intros z Hz.
      apply in_map_iff in Hz. destruct Hz as (x & <- & _). apply Rle_0_sqr. }
    nra. }
  repeat split; try assumption. rewrite Et. unfold Tf.add.
  apply round32_nonneg.
  assert (0 <= round32 (policy lv + value lv))%R
    by (apply round32_nonneg; lra).
  lra.
Qed.

Lemma update_losses_nonnegative_witness :
  exists (lv : LossValues) (self' : AlphaZeroKerasEvaluator),
    AlphaZeroKerasEvaluator_update Toy.keep_model Toy.keras_evaluator Toy.batch
    = Ok (lv, self')
    /\ (0 <= l2_regularization Toy.keras_evaluator)%R
    /\ (0 <= total lv)%R.
Proof.
  assert (Hreg : (0 <= l2_regularization Toy.keras_evaluator)%R)
    by (simpl; lra).
  eexists. eexists. split; [reflexivity|]. split; [exact Hreg|].
  eapply (@update_losses_nonnegative Toy.keep_model Toy.keras_evaluator _
            Toy.batch _ eq_refl Hreg).
  intros e t [<-|[]] [<-|[<-|[]]]; lra.
Defined.

(** ** The constructor of the Keras evaluator *)

(** X22: the evaluator's constructor stores the model's input shape with its
    first (batch) dimension replaced by 1 and the other dimensions kept, and
    the second dimension of the second (policy) output shape as the number of
    actions; it raises IndexError on an empty input shape and ValueError when
    the device is the string 'gpu' and no GPU is available; the strings
    'cpu' and 'gpu' become the device contexts cpu:0 and gpu:0, and any other
    device is stored as given. *)
Theorem evaluator_init_attributes :
  forall (batch : option Z) (dims : Shape) (value_shape : Shape)
         (policy_batch num_actions : option Z) (l2_regularization : R)
         (device : Device) (is_gpu_available : bool),
    AlphaZeroKerasEvaluator_init [] [value_shape; [policy_batch; num_actions]]
      l2_regularization device is_gpu_available = Raise IndexError
    /\ AlphaZeroKerasEvaluator_init (batch :: dims)
         [value_shape; [policy_batch; num_actions]] l2_regularization
         (DeviceString "gpu") false
       = Raise (ValueError "GPU support is unavailable.")
    /\ (device <> DeviceString "gpu" \/ is_gpu_available = true ->
        AlphaZeroKerasEvaluator_init (batch :: dims)
          [value_shape; [policy_batch; num_actions]] l2_regularization
          device is_gpu_available
        = Ok {| attr_input_shape := Some 1%Z :: dims;
                attr_num_actions := num_actions;
                attr_l2_regularization := l2_regularization;
                attr_device :=
                  match device with
                  | DeviceString s =>
                      if String.eqb s "gpu" then DeviceContext "gpu:0"
                      else if String.eqb s "cpu" then DeviceContext "cpu:0"
                      else device
                  | DeviceContext _ => device
                  end |}).
Proof.
  intros batch dims value_shape policy_batch num_actions l2 device gpu.
  split; [reflexivity|]. split; [reflexivity|].
  intros H. unfold AlphaZeroKerasEvaluator_init.
  change (setitem (batch :: dims) 0 (Some 1%Z)) with (Ok (Some 1%Z :: dims)).
  cbn [bind unpack2 snd].
  destruct device as [s|name]; [|reflexivity].
  destruct (String.eqb_spec s "gpu") as [->|Hs].
  - destruct H as [H| ->]; [congruence|reflexivity].
  - destruct (String.eqb s "cpu"); reflexivity.
Qed.

(** ** The network builders *)

Lemma depth_iter_apply (l : Layer) (n : nat) (x : Tensor) :
  depth (Nat.iter n (Apply l) x) = (n + depth x)%nat.
Proof.
  induction n as [|n IH]; simpl; [reflexivity|]. now rewrite IH.
Qed.

Lemma trunk_iter_apply (l : Layer) (n : nat) (x : Tensor) :
  trunk_layers (Nat.iter n (Apply l) x) = repeat l n ++ trunk_layers x.
Proof.
  induction n as [|n IH]; simpl; [reflexivity|]. now rewrite IH.
Qed.

Lemma shape_iter_dense (units : Z) (a : option string) (i : string)
    (nm : option string) (n : nat) (b d : option Z) (x : Tensor) :
  shape_of x = Some [b; d] ->
  shape_of (Nat.iter n (Apply (Dense units a i nm)) x)
  = Some [b; match n with O => d | S _ => Some units end].
Proof.
  intros Hx. induction n as [|n IH]; simpl; [exact Hx|].
  rewrite IH. reflexivity.
Qed.

(** X23: [keras_mlp] returns the value head first and the policy head
    second; both are single dense layers on one shared tensor (1 unit with
    tanh, named value; num_actions units without activation, named policy),
    and that tensor lies exactly num_layers dense layers of num_hidden units
    with the given activation above the input (on the input itself when
    num_layers is not positive), for the positive sizes Keras accepts. *)
Theorem keras_mlp_structure :
  forall (input_size num_actions num_layers num_hidden : Z)
         (activation : string),
    (0 < input_size)%Z -> (0 < num_actions)%Z -> (0 < num_hidden)%Z ->
    exists trunk : Tensor,
      outputs (keras_mlp input_size num_actions num_layers num_hidden
                         activation)
      = [ Apply (Dense 1 (Some "tanh"%string) "he_uniform"
                       (Some "value"%string)) trunk;
          Apply (Dense num_actions None "he_uniform" (Some "policy"%string))
                trunk ]
      /\ depth trunk = Z.to_nat num_layers
      /\ trunk_layers trunk
         = repeat (Dense num_hidden (Some activation) "he_uniform" None)
                  (Z.to_nat num_layers)
      /\ ((num_layers <= 0)%Z -> trunk = Input [input_size] "input").
Proof.
  intros input_size num_actions num_layers num_hidden activation _ _ _.
  eexists. split; [reflexivity|]. split; [|split].
  - rewrite depth_iter_apply. simpl. lia.
  - rewrite trunk_iter_apply. simpl. apply app_nil_r.
  - intros Hn. replace (Z.to_nat num_layers) with O by lia. reflexivity.
Qed.

(** X24: for positive sizes the shapes of a [keras_mlp] model fit the evaluator's constructor:
    its input shape is (None, input_size) and its output shapes are
    (None, 1) and (None, num_actions), so an evaluator constructed over it on
    the cpu records the input shape [1, input_size] and num_actions
    actions. *)
Theorem evaluator_over_keras_mlp :
  forall (input_size num_actions num_layers num_hidden : Z)
         (activation : string) (l2_regularization : R)
         (is_gpu_available : bool),
    (0 < input_size)%Z -> (0 < num_actions)%Z -> (0 < num_hidden)%Z ->
    shape_of (inputs (keras_mlp input_size num_actions num_layers num_hidden
                                activation))
    = Some [None; Some input_size]
    /\ shapes_of (outputs (keras_mlp input_size num_actions num_layers
                                     num_hidden activation))
       = Some [[None; Some 1%Z]; [None; Some num_actions]]
    /\ AlphaZeroKerasEvaluator_init [None; Some input_size]
         [[None; Some 1%Z]; [None; Some num_actions]] l2_regularization
         (DeviceString "cpu") is_gpu_available
       = Ok {| attr_input_shape := [Some 1%Z; Some input_size];
               attr_num_actions := Some num_actions;
               attr_l2_regularization := l2_regularization;
               attr_device := DeviceContext "cpu:0" |}.
Proof.
  intros input_size num_actions num_layers num_hidden activation l2 gpu _ _ _.
  split; [reflexivity|]. split; [|reflexivity].
  unfold keras_mlp. cbn [outputs shapes_of shape_of].
  rewrite (@shape_iter_dense num_hidden (Some activation) "he_uniform" None
             (Z.to_nat num_layers) None (Some input_size)
             (Input [input_size] "input") eq_refl).
  reflexivity.
Qed.

Lemma depth_residual_block (f k : Z) (a : string) (x : Tensor) :
  depth (residual_block f k a x) = (7 + depth x)%nat.
Proof.
  unfold residual_block, _residual_layer. cbn [depth].
  rewrite Nat.max_r by lia. lia.
Qed.

Lemma depth_residual_tower (f k : Z) (a : string) (n : nat) (x : Tensor) :
  depth (Nat.iter n (residual_block f k a) x) = (7 * n + depth x)%nat.
Proof.
  induction n as [|n IH]; [simpl; lia|].
  change (Nat.iter (S n) (residual_block f k a) x)
    with (residual_block f k a (Nat.iter n (residual_block f k a) x)).
  rewrite depth_residual_block, IH. lia.
Qed.

Lemma trunk_residual_tower (f k : Z) (a : string) (n : nat) (x : Tensor) :
  trunk_layers (Nat.iter n (residual_block f k a) x)
  = repeat (Activation a) n ++ trunk_layers x.
Proof.
  induction n as [|n IH]; [reflexivity|].
  change (Nat.iter (S n) (residual_block f k a) x)
    with (residual_block f k a (Nat.iter n (residual_block f k a) x)).
  change (trunk_layers
            (residual_block f k a (Nat.iter n (residual_block f k a) x)))
    with (Activation a
          :: trunk_layers (Nat.iter n (residual_block f k a) x)).
  rewrite IH. reflexivity.
Qed.

(** X25: the depth of a [keras_resnet] model on an input of three positive
    dimensions and positive sizes: every residual block adds
    seven layers to the longest path, so below the value output there are
    [7 * num_residual_blocks + 9] layers and below the policy output
    [7 * num_residual_blocks + 8]; with no residual block the heads sit on
    the three layers of the body. *)
Theorem keras_resnet_depth :
  forall (input_shape : list Z)
         (num_actions num_residual_blocks num_filters value_head_hidden_size : Z)
         (activation : string),
    List.length input_shape = 3%nat ->
    (forall d, In d input_shape -> (0 < d)%Z) ->
    (0 < num_actions)%Z -> (0 < num_filters)%Z ->
    (0 < value_head_hidden_size)%Z ->
    exists value_head policy_head : Tensor,
      outputs (keras_resnet input_shape num_actions num_residual_blocks
                            num_filters value_head_hidden_size activation)
      = [value_head; policy_head]
      /\ depth value_head = (7 * Z.to_nat num_residual_blocks + 9)%nat
      /\ depth policy_head = (7 * Z.to_nat num_residual_blocks + 8)%nat.
Proof.
  intros input_shape num_actions blocks filters hidden activation _ _ _ _ _.
  eexists. eexists. split; [reflexivity|].
  unfold _resnet_value_head, _resnet_mlp_policy_head, _resnet_body,
    _residual_tower.
  cbn [depth]. rewrite depth_residual_tower. cbn [depth]. split; lia.
Qed.

(** X26: in [keras_resnet] (input of three positive dimensions, positive
    sizes) the caller's activation is used in the body only:
    along the skip connections the value output is reached through the
    body's convolution, batch normalisation and activation, one activation
    per residual block, and then the value head, whose hidden activations
    are relu whatever activation was passed; likewise the policy head. *)
Theorem keras_resnet_activations :
  forall (input_shape : list Z)
         (num_actions num_residual_blocks num_filters value_head_hidden_size : Z)
         (activation : string),
    List.length input_shape = 3%nat ->
    (forall d, In d input_shape -> (0 < d)%Z) ->
    (0 < num_actions)%Z -> (0 < num_filters)%Z ->
    (0 < value_head_hidden_size)%Z ->
    map trunk_layers
        (outputs (keras_resnet input_shape num_actions num_residual_blocks
                               num_filters value_head_hidden_size activation))
    = [ [ Dense 1 (Some "tanh"%string) "he_uniform" (Some "value"%string);
          Dense value_head_hidden_size (Some "relu"%string) "he_uniform" None;
          Flatten; Activation "relu"; BatchNormalization;
          Conv2D 1 1 1 "valid" "he_uniform" ]
        ++ repeat (Activation activation) (Z.to_nat num_residual_blocks)
        ++ [ Activation activation; BatchNormalization;
             Conv2D num_filters 3 1 "same" "he_uniform" ];
        [ Dense num_actions None "he_uniform" (Some "policy"%string);
          Flatten; Activation "relu"; BatchNormalization;
          Conv2D 2 1 1 "valid" "he_uniform" ]
        ++ repeat (Activation activation) (Z.to_nat num_residual_blocks)
        ++ [ Activation activation; BatchNormalization;
             Conv2D num_filters 3 1 "same" "he_uniform" ] ].
Proof.
  intros input_shape num_actions blocks filters hidden activation _ _ _ _ _.
  unfold keras_resnet, _resnet_value_head, _resnet_mlp_policy_head,
    _resnet_body, _residual_tower.
  cbn [outputs map trunk_layers]. rewrite trunk_residual_tower.
  reflexivity.
Qed.

Lemma keras_mlp_structure_witness :
  ((0 < 9)%Z /\ (0 < 3)%Z /\ (0 < 128)%Z)
  /\ exists trunk : Tensor,
       outputs (keras_mlp 9 3 2 128 "relu")
       = [ Apply (Dense 1 (Some "tanh"%string) "he_uniform"
                        (Some "value"%string)) trunk;
           Apply (Dense 3 None "he_uniform" (Some "policy"%string)) trunk ]
       /\ depth trunk = 2%nat.
Proof.
  split; [lia|].
  destruct (@keras_mlp_structure 9 3 2 128 "relu") as (trunk & Ho & Hd & _);
    try lia.
  exists trunk. split; [exact Ho|exact Hd].
Defined.

Lemma evaluator_over_keras_mlp_witness :
  ((0 < 9)%Z /\ (0 < 3)%Z /\ (0 < 128)%Z)
  /\ shapes_of (outputs (keras_mlp 9 3 2 128 "relu"))
     = Some [[None; Some 1%Z]; [None; Some 3%Z]].
Proof.
  split; [lia|].
  apply (@evaluator_over_keras_mlp 9 3 2 128 "relu" 0%R false); lia.
Defined.

Lemma toy_board_positive : forall d, In d [3; 3; 1]%Z -> (0 < d)%Z.
Proof. intros d [<-|[<-|[<-|[]]]]; lia. Qed.

Lemma keras_resnet_depth_witness :
  List.length [3; 3; 1]%Z = 3%nat
  /\ exists value_head policy_head : Tensor,
       outputs (keras_resnet [3; 3; 1]%Z 9 2 19 256 "relu")
       = [value_head; policy_head]
       /\ depth value_head = 23%nat
       /\ depth policy_head = 22%nat.
Proof.
  split; [reflexivity|].
  apply (@keras_resnet_depth [3; 3; 1]%Z 9 2 19 256 "relu" eq_refl
           toy_board_positive); lia.
Defined.

Lemma keras_resnet_activations_witness :
  List.length [3; 3; 1]%Z = 3%nat
  /\ map trunk_layers (outputs (keras_resnet [3; 3; 1]%Z 9 0 19 256 "elu"))
     = [ [ Dense 1 (Some "tanh"%string) "he_uniform" (Some "value"%string);
           Dense 256 (Some "relu"%string) "he_uniform" None;
           Flatten; Activation "relu"; BatchNormalization;
           Conv2D 1 1 1 "valid" "he_uniform";
           Activation "elu"; BatchNormalization;
           Conv2D 19 3 1 "same" "he_uniform" ];
         [ Dense 9 None "he_uniform" (Some "policy"%string);
           Flatten; Activation "relu"; BatchNormalization;
           Conv2D 2 1 1 "valid" "he_uniform";
           Activation "elu"; BatchNormalization;
           Conv2D 19 3 1 "same" "he_uniform" ] ].
Proof.
  split; [reflexivity|].
  apply (@keras_resnet_activations [3; 3; 1]%Z 9 0 19 256 "elu" eq_refl
           toy_board_positive); lia.
Defined.

Lemma conv_dim_same_stride_1 (k n : Z) :
  conv_dim "same" k 1 (Some n) = Some n.
Proof.
  unfold conv_dim. cbn [String.eqb Ascii.eqb Bool.eqb]. simpl.
  f_equal. rewrite Z.div_1_r. lia.
Qed.

Lemma conv_dim_valid_1 (n : Z) : conv_dim "valid" 1 1 (Some n) = Some n.
Proof.
  unfold conv_dim. simpl. f_equal. rewrite Z.div_1_r. lia.
Qed.

Lemma shape_eqb_refl (s : Shape) : shape_eqb s s = true.
Proof.
  induction s as [|d s IH]; [reflexivity|]. simpl. rewrite IH.
  destruct d as [n|]; simpl; [now rewrite Z.eqb_refl|reflexivity].
Qed.

Lemma shape_residual_block (f k : Z) (a : string) (x : Tensor)
    (b : option Z) (h w : Z) :
  shape_of x = Some [b; Some h; Some w; Some f] ->
  shape_of (residual_block f k a x) = Some [b; Some h; Some w; Some f].
Proof.
  intros Hx. unfold residual_block, _residual_layer.
  cbn [shape_of]. rewrite Hx. cbn [layer_shape].
  rewrite !conv_dim_same_stride_1. cbn [layer_shape].
  rewrite ?conv_dim_same_stride_1. now rewrite shape_eqb_refl.
Qed.

Lemma shape_residual_tower (f k : Z) (a : string) (n : nat) (x : Tensor)
    (b : option Z) (h w : Z) :
  shape_of x = Some [b; Some h; Some w; Some f] ->
  shape_of (Nat.iter n (residual_block f k a) x)
  = Some [b; Some h; Some w; Some f].
Proof.
  intros Hx. induction n as [|n IH]; [exact Hx|].
  change (Nat.iter (S n) (residual_block f k a) x)
    with (residual_block f k a (Nat.iter n (residual_block f k a) x)).
  now apply shape_residual_block.
Qed.

(** X27: for a board of three positive dimensions and positive sizes the
    shapes of a [keras_resnet] model fit the evaluator's constructor,
    whatever the number of residual blocks: the input shape is
    (None, h, w, c), the output shapes are (None, 1) and (None, num_actions),
    so an evaluator constructed over it on the cpu records the input shape
    [1, h, w, c] and num_actions actions. *)
Theorem evaluator_over_keras_resnet :
  forall (h w c num_actions num_residual_blocks num_filters
          value_head_hidden_size : Z)
         (activation : string) (l2_regularization : R)
         (is_gpu_available : bool),
    (0 < h)%Z -> (0 < w)%Z -> (0 < c)%Z ->
    (0 < num_actions)%Z -> (0 < num_filters)%Z ->
    (0 < value_head_hidden_size)%Z ->
    shape_of (inputs (keras_resnet [h; w; c] num_actions num_residual_blocks
                                   num_filters value_head_hidden_size
                                   activation))
    = Some [None; Some h; Some w; Some c]
    /\ shapes_of (outputs (keras_resnet [h; w; c] num_actions
                                        num_residual_blocks num_filters
                                        value_head_hidden_size activation))
       = Some [[None; Some 1%Z]; [None; Some num_actions]]
    /\ AlphaZeroKerasEvaluator_init [None; Some h; Some w; Some c]
         [[None; Some 1%Z]; [None; Some num_actions]] l2_regularization
         (DeviceString "cpu") is_gpu_available
       = Ok {| attr_input_shape := [Some 1%Z; Some h; Some w; Some c];
               attr_num_actions := Some num_actions;
               attr_l2_regularization := l2_regularization;
               attr_device := DeviceContext "cpu:0" |}.
Proof.
  intros h w c num_actions blocks filters hidden activation l2 gpu _ _ _ _ _ _.
  split; [reflexivity|]. split; [|reflexivity].
  assert (Hbody :
            shape_of (_resnet_body (Input [h; w; c] "input") blocks filters 3
                                   activation)
            = Some [None; Some h; Some w; Some filters]).
  { unfold _resnet_body, _residual_tower. apply shape_residual_tower.
    cbn [shape_of map layer_shape]. now rewrite !conv_dim_same_stride_1. }
  unfold keras_resnet, _resnet_value_head, _resnet_mlp_policy_head.
  cbn [outputs shapes_of shape_of]. rewrite Hbody. cbn [layer_shape].
  rewrite !conv_dim_valid_1. reflexivity.
Qed.

Lemma evaluator_over_keras_resnet_witness :
  ((0 < 3)%Z /\ (0 < 1)%Z /\ (0 < 9)%Z /\ (0 < 19)%Z /\ (0 < 256)%Z)
  /\ shapes_of (outputs (keras_resnet [3; 3; 1]%Z 9 2 19 256 "relu"))
     = Some [[None; Some 1%Z]; [None; Some 9%Z]].
Proof.
  split; [lia|].
  apply (@evaluator_over_keras_resnet 3 3 1 9 2 19 256 "relu" 0%R false); lia.
Defined.
